(** * evipy (Node.js port): frame codec, credential hash and exploration driver

    A shallow embedding of [nodejs/src/utils/protocol.ts],
    [nodejs/src/utils/hash.ts] and [nodejs/src/client.ts].

    Conventions.
    - A Node [Buffer] is a list of bytes ([Byte.byte]).
    - A JavaScript string is the list of its UTF-16 code units ([N]).
    - A JavaScript number that the code handles as an integer (header bytes,
      counters, lengths, clock readings) is a [Z].
    - Values of type [Record<string, unknown> | string | null] are [JSValue]s.
    - The runtime built-ins the code calls ([Buffer.toString], [Buffer.from],
      [JSON.parse], [JSON.stringify], SHA-256, base64) are written out below the
      way the platform documents them, so that every definition evaluates. *)

From Stdlib Require Import String Ascii.
From Stdlib.Strings Require Import Byte.
From Stdlib Require Import ZArith NArith List Bool Lia.
Import ListNotations.

Set Implicit Arguments.

(** ** Buffers and strings *)

Definition Buffer := list byte.
Definition jsstring := list N.

(** A literal of the source text, as a JavaScript string. *)
Definition js (s : string) : jsstring := map Byte.to_N (list_byte_of_string s).

Module Encoding.
Local Open Scope N_scope.

Definition byte_of_N (n : N) : byte :=
  match Byte.of_N (n mod 256) with Some b => b | None => x00 end.

(** [Buffer.from([n1, n2, ...])]: every entry is reduced modulo 256. *)
Definition byte_of_number (z : Z) : byte := byte_of_N (Z.to_N (z mod 256)).
Definition Buffer_from_array (l : list Z) : Buffer := map byte_of_number l.

(** [buf.toString('hex')]: two lowercase digits per byte. *)
Definition hex_digit (n : N) : N := if n <? 10 then 48 + n else 87 + n.
Definition hex_of_byte (b : byte) : jsstring :=
  let n := Byte.to_N b in [hex_digit (n / 16); hex_digit (n mod 16)].
Definition toString_hex (b : Buffer) : jsstring := flat_map hex_of_byte b.

(** The inverse reading of a hex string, used to state that the bytes are
    recoverable from [rawHex]. *)
Definition unhex_digit (c : N) : option N :=
  if (48 <=? c) && (c <=? 57) then Some (c - 48)
  else if (97 <=? c) && (c <=? 102) then Some (c - 87)
  else None.
Fixpoint Buffer_from_hex (s : jsstring) : option Buffer :=
  match s with
  | [] => Some []
  | h :: l :: r =>
      match unhex_digit h, unhex_digit l, Buffer_from_hex r with
      | Some a, Some b, Some bs => Some (byte_of_N (16 * a + b) :: bs)
      | _, _, _ => None
      end
  | _ => None
  end.

(** [buf.toString('binary')] (latin1): one code unit per byte. *)
Definition toString_latin1 (b : Buffer) : jsstring := map Byte.to_N b.

(** [buf.toString('ascii')]: the high bit of every byte is cleared. *)
Definition toString_ascii (b : Buffer) : jsstring :=
  map (fun x => N.land (Byte.to_N x) 127) b.

(** [buf.toString('utf-8')]: the decoder of the Encoding standard; an
    ill-formed sequence yields U+FFFD and decoding resumes at the offending
    byte.  The decoder never fails. *)
Record utf8_state := { u_cp : N; u_needed : nat; u_lower : N; u_upper : N }.

Definition utf8_init : utf8_state :=
  {| u_cp := 0; u_needed := 0; u_lower := 128; u_upper := 191 |}.

Definition code_units_of (cp : N) : jsstring :=
  if cp <? 65536 then [cp]
  else let c := cp - 65536 in [55296 + c / 1024; 56320 + c mod 1024].

Definition utf8_lead (b : N) : utf8_state * jsstring :=
  if b <? 128 then (utf8_init, [b])
  else if (194 <=? b) && (b <=? 223) then
    ({| u_cp := N.land b 31; u_needed := 1; u_lower := 128; u_upper := 191 |}, [])
  else if (224 <=? b) && (b <=? 239) then
    ({| u_cp := N.land b 15; u_needed := 2;
        u_lower := if b =? 224 then 160 else 128;
        u_upper := if b =? 237 then 159 else 191 |}, [])
  else if (240 <=? b) && (b <=? 244) then
    ({| u_cp := N.land b 7; u_needed := 3;
        u_lower := if b =? 240 then 144 else 128;
        u_upper := if b =? 244 then 143 else 191 |}, [])
  else (utf8_init, [65533]).

Definition utf8_step (st : utf8_state) (b : N) : utf8_state * jsstring :=
  match u_needed st with
  | O => utf8_lead b
  | S k =>
      if (u_lower st <=? b) && (b <=? u_upper st) then
        let cp := N.lor (N.shiftl (u_cp st) 6) (N.land b 63) in
        match k with
        | O => (utf8_init, code_units_of cp)
        | S _ => ({| u_cp := cp; u_needed := k; u_lower := 128; u_upper := 191 |}, [])
        end
      else let '(st', out) := utf8_lead b in (st', 65533 :: out)
  end.

Fixpoint utf8_run (st : utf8_state) (bs : Buffer) : jsstring :=
  match bs with
  | [] => match u_needed st with O => [] | S _ => [65533] end
  | b :: r => let '(st', out) := utf8_step st (Byte.to_N b) in out ++ utf8_run st' r
  end.

Definition toString_utf8 (bs : Buffer) : jsstring := utf8_run utf8_init bs.

(** [Buffer.from(str, 'utf-8')]: surrogate pairs are joined, a lone surrogate is
    written as U+FFFD. *)
Definition utf8_of_cp (cp : N) : Buffer :=
  if cp <? 128 then [byte_of_N cp]
  else if cp <? 2048 then [byte_of_N (192 + cp / 64); byte_of_N (128 + cp mod 64)]
  else if cp <? 65536 then
    [byte_of_N (224 + cp / 4096); byte_of_N (128 + (cp / 64) mod 64);
     byte_of_N (128 + cp mod 64)]
  else
    [byte_of_N (240 + cp / 262144); byte_of_N (128 + (cp / 4096) mod 64);
     byte_of_N (128 + (cp / 64) mod 64); byte_of_N (128 + cp mod 64)].

Definition is_high (c : N) : bool := (55296 <=? c) && (c <=? 56319).
Definition is_low (c : N) : bool := (56320 <=? c) && (c <=? 57343).

Fixpoint Buffer_from_utf8 (s : jsstring) : Buffer :=
  match s with
  | [] => []
  | c :: r =>
      if is_high c then
        match r with
        | d :: r' =>
            if is_low d
            then utf8_of_cp (65536 + (c - 55296) * 1024 + (d - 56320)) ++ Buffer_from_utf8 r'
            else utf8_of_cp 65533 ++ Buffer_from_utf8 r
        | [] => utf8_of_cp 65533
        end
      else if is_low c then utf8_of_cp 65533 ++ Buffer_from_utf8 r
      else utf8_of_cp c ++ Buffer_from_utf8 r
  end.

(** [str.split(sep)] for a separator of one code unit. *)
Fixpoint String_split (sep : N) (s : jsstring) : list jsstring :=
  match s with
  | [] => [[]]
  | c :: r =>
      if c =? sep then [] :: String_split sep r
      else match String_split sep r with
           | p :: ps => (c :: p) :: ps
           | [] => [[c]]
           end
  end.

(** Decimal digits of a natural number. *)
Fixpoint digits_fuel (fuel : nat) (n : N) (acc : jsstring) : jsstring :=
  match fuel with
  | O => acc
  | S f =>
      let acc' := (48 + n mod 10) :: acc in
      if n <? 10 then acc' else digits_fuel f (n / 10) acc'
  end.
Definition decimal (n : N) : jsstring := digits_fuel (S (N.to_nat (N.log2 n))) n [].

End Encoding.

(** ** JavaScript values and JSON *)

(** The values a payload can hold.  [JNum m e] is the number written
    [m * 10^e]: the literal is kept as it was written, and what observes the
    number (printing it, comparing map keys) goes through the binary64 value
    nearest to it.  An object is the list of its own properties in the order they
    were written; that an engine enumerates integer-like keys first is not
    modelled (the driver reads properties by name only). *)
#[warnings="-register-all"]
Inductive JSValue : Type :=
| JUndefined
| JNull
| JBool (b : bool)
| JNum (m e : Z)
| JStr (s : jsstring)
| JArr (items : list JSValue)
| JObj (fields : list (jsstring * JSValue)).

Module JSON.
Import Encoding.
Local Open Scope N_scope.

Definition jsstring_eqb (a b : jsstring) : bool :=
  if list_eq_dec N.eq_dec a b then true else false.

(** Assignment to a property: an existing key keeps its place. *)
Fixpoint obj_set (fs : list (jsstring * JSValue)) (k : jsstring) (v : JSValue)
  : list (jsstring * JSValue) :=
  match fs with
  | [] => [(k, v)]
  | (k', v') :: r => if jsstring_eqb k' k then (k', v) :: r else (k', v') :: obj_set r k v
  end.

Fixpoint obj_get (fs : list (jsstring * JSValue)) (k : jsstring) : option JSValue :=
  match fs with
  | [] => None
  | (k', v') :: r => if jsstring_eqb k' k then Some v' else obj_get r k
  end.

(** *** Numbers (binary64) and Number::toString, radix 10 *)

(** The magnitude of a binary64 value: zero, [f * 2^q] with [0 < f < 2^53] and
    [-1074 <= q <= 971] ([2^52 <= f] unless [q = -1074]), or infinity. *)
Inductive binary64 : Type :=
| B_zero
| B_finite (f q : Z)
| B_infinity.

Definition binary64_eqb (a b : binary64) : bool :=
  match a, b with
  | B_zero, B_zero => true
  | B_finite f q, B_finite f' q' => ((f =? f') && (q =? q'))%Z
  | B_infinity, B_infinity => true
  | _, _ => false
  end.

(** The integer part of the binary logarithm of [num / den], both positive. *)
Definition log2_ratio (num den : Z) : Z :=
  let l := (Z.log2 num - Z.log2 den)%Z in
  let reaches :=
    if (0 <=? l)%Z then (den * 2 ^ l <=? num)%Z else (den <=? num * 2 ^ (- l))%Z in
  if reaches then l else (l - 1)%Z.

(** The binary64 value nearest to [num / den], ties to even. *)
Definition round_binary64 (num den : Z) : binary64 :=
  let q := Z.max (log2_ratio num den - 52) (-1074) in
  let N := if (0 <=? q)%Z then num else (num * 2 ^ (- q))%Z in
  let D := if (0 <=? q)%Z then (den * 2 ^ q)%Z else den in
  let f0 := (N / D)%Z in
  let r := (N mod D)%Z in
  let f := if (D <? 2 * r)%Z || ((D =? 2 * r)%Z && Z.odd f0) then (f0 + 1)%Z else f0 in
  let '(f, q) := if (f =? 2 ^ 53)%Z then ((2 ^ 52)%Z, (q + 1)%Z) else (f, q) in
  if (f =? 0)%Z then B_zero
  else if (971 <? q)%Z then B_infinity
  else B_finite f q.

(** The value of the literal [m * 10^e], [m] positive. *)
Definition to_binary64 (m e : Z) : binary64 :=
  if (0 <=? e)%Z then round_binary64 (m * 10 ^ e) 1 else round_binary64 m (10 ^ (- e)).

(** The [n] with [10^(n-1) <= xn / xd < 10^n]. *)
Fixpoint small_magnitude (fuel : nat) (xn xd j : Z) : Z :=
  match fuel with
  | O => (1 - j)%Z
  | S f => if (xd <=? xn * 10 ^ j)%Z then (1 - j)%Z else small_magnitude f xn xd (j + 1)%Z
  end.

Definition magnitude (xn xd : Z) : Z :=
  if (xd <=? xn)%Z then Z.of_nat (length (decimal (Z.to_N (xn / xd))))
  else small_magnitude 400 xn xd 1.

(** [xn / xd * 10^p] as a fraction. *)
Definition scaled (xn xd p : Z) : Z * Z :=
  if (0 <=? p)%Z then ((xn * 10 ^ p)%Z, xd) else (xn, (xd * 10 ^ (- p))%Z).

(** The digits [s] and the exponent [n] of Number::toString: the least number
    [k] of digits for which some [s * 10^(n-k)] has the value [x], and for
    that [k] the [s] nearest to [x] (the even one of two).  For each [k] the
    two candidates are [x] cut to [k] digits and the next [k]-digit number; a
    candidate that equals [x] is taken at once.  Seventeen digits always
    identify a binary64 value, so the fuel does not run out. *)
Fixpoint shortest (fuel : nat) (x : binary64) (xn xd n k : Z) : Z * Z :=
  let '(N, D) := scaled xn xd (k - n) in
  let lo := (N / D)%Z in
  let r := (N mod D)%Z in
  if (r =? 0)%Z then (lo, n)
  else
    match fuel with
    | O => (lo, n)
    | S fuel' =>
        let '(hi, hn) :=
          if (lo + 1 =? 10 ^ k)%Z then ((10 ^ (k - 1))%Z, (n + 1)%Z) else ((lo + 1)%Z, n) in
        let lo_ok := binary64_eqb (to_binary64 lo (n - k)) x in
        let hi_ok := binary64_eqb (to_binary64 hi (hn - k)) x in
        if lo_ok && hi_ok then
          if (2 * r <? D)%Z then (lo, n)
          else if (D <? 2 * r)%Z then (hi, hn)
          else if Z.even lo then (lo, n) else (hi, hn)
        else if lo_ok then (lo, n)
        else if hi_ok then (hi, hn)
        else shortest fuel' x xn xd n (k + 1)%Z
    end.

Definition zeros (n : Z) : jsstring := repeat 48 (Z.to_nat n).

(** [Number::toString(x)] for the value [x] of the literal [m * 10^e]: the
    shortest digits of [x], laid out as an integer, as a decimal fraction or
    in exponent notation according to the exponent [n]. *)
Definition Number_toString (m e : Z) : jsstring :=
  if (m =? 0)%Z then js "0"
  else
    match to_binary64 (Z.abs m) e with
    | B_zero => js "0"
    | B_infinity => (if (m <? 0)%Z then js "-" else []) ++ js "Infinity"
    | B_finite f q =>
        let '(xn, xd) := if (0 <=? q)%Z then ((f * 2 ^ q)%Z, 1%Z) else (f, (2 ^ (- q))%Z) in
        let '(a, n) := shortest 17 (B_finite f q) xn xd (magnitude xn xd) 1 in
        let s := decimal (Z.to_N a) in
        let k := Z.of_nat (length s) in
        let body :=
          if ((k <=? n) && (n <=? 21))%Z then s ++ zeros (n - k)
          else if ((0 <? n) && (n <=? 21))%Z then
            firstn (Z.to_nat n) s ++ js "." ++ skipn (Z.to_nat n) s
          else if ((-6 <? n) && (n <=? 0))%Z then js "0." ++ zeros (- n) ++ s
          else
            let ex := (n - 1)%Z in
            let exs := (if (ex <? 0)%Z then js "-" else js "+") ++ decimal (Z.to_N (Z.abs ex)) in
            match s with
            | [d] => [d] ++ js "e" ++ exs
            | d :: r => [d] ++ js "." ++ r ++ js "e" ++ exs
            | [] => []
            end in
        (if (m <? 0)%Z then js "-" else []) ++ body
    end.

(** A number whose value is not infinite. *)
Definition is_finite (m e : Z) : bool :=
  if (m =? 0)%Z then true
  else match to_binary64 (Z.abs m) e with
       | B_infinity => false
       | _ => true
       end.

(** *** JSON.stringify *)

Definition hex4 (c : N) : jsstring :=
  [hex_digit (c / 4096); hex_digit ((c / 256) mod 16);
   hex_digit ((c / 16) mod 16); hex_digit (c mod 16)].

Definition quote_unit (c : N) : jsstring :=
  if c =? 34 then js "\" ++ [34]
  else if c =? 92 then js "\\"
  else if c =? 8 then js "\b"
  else if c =? 12 then js "\f"
  else if c =? 10 then js "\n"
  else if c =? 13 then js "\r"
  else if c =? 9 then js "\t"
  else if c <? 32 then js "\u" ++ hex4 c
  else [c].

Fixpoint quote_units (s : jsstring) : jsstring :=
  match s with
  | [] => []
  | c :: r =>
      if is_high c then
        match r with
        | d :: r' =>
            if is_low d then c :: d :: quote_units r'
            else js "\u" ++ hex4 c ++ quote_units r
        | [] => js "\u" ++ hex4 c
        end
      else if is_low c then js "\u" ++ hex4 c ++ quote_units r
      else quote_unit c ++ quote_units r
  end.

Definition quote (s : jsstring) : jsstring := [34] ++ quote_units s ++ [34].

Fixpoint join (sep : jsstring) (l : list jsstring) : jsstring :=
  match l with
  | [] => []
  | [x] => x
  | x :: r => x ++ sep ++ join sep r
  end.

(** [JSON.stringify(v)] without indentation.  A property whose value is
    [undefined] is left out; an [undefined] array element and an infinite
    number are written [null]. *)
Fixpoint JSON_stringify (v : JSValue) : jsstring :=
  match v with
  | JUndefined => js "null"
  | JNull => js "null"
  | JBool true => js "true"
  | JBool false => js "false"
  | JNum m e => if is_finite m e then Number_toString m e else js "null"
  | JStr s => quote s
  | JArr l => js "[" ++ join (js ",") (map JSON_stringify l) ++ js "]"
  | JObj fs =>
      let fix members (fs : list (jsstring * JSValue)) : list jsstring :=
        match fs with
        | [] => []
        | (_, JUndefined) :: r => members r
        | (k, x) :: r => (quote k ++ js ":" ++ JSON_stringify x) :: members r
        end in
      js "{" ++ join (js ",") (members fs) ++ js "}"
  end.

(** *** JSON.parse: tokens, then values *)

Inductive token : Type :=
| TLBrace | TRBrace | TLBrack | TRBrack | TColon | TComma
| TStr (s : jsstring)
| TAtom (v : JSValue).

Definition is_ws (c : N) : bool := (c =? 32) || (c =? 9) || (c =? 10) || (c =? 13).
Definition is_digit (c : N) : bool := (48 <=? c) && (c <=? 57).

Definition unescape (c : N) : option N :=
  if c =? 34 then Some 34
  else if c =? 92 then Some 92
  else if c =? 47 then Some 47
  else if c =? 98 then Some 8
  else if c =? 102 then Some 12
  else if c =? 110 then Some 10
  else if c =? 114 then Some 13
  else if c =? 116 then Some 9
  else None.

Definition hex_value (c : N) : option N :=
  if is_digit c then Some (c - 48)
  else if (97 <=? c) && (c <=? 102) then Some (c - 87)
  else if (65 <=? c) && (c <=? 70) then Some (c - 55)
  else None.

(** The characters of a string literal after its opening quote. *)
Fixpoint scan_string (s : jsstring) (acc : jsstring) : option (jsstring * jsstring) :=
  match s with
  | [] => None
  | c :: r =>
      if c =? 34 then Some (rev acc, r)
      else if c =? 92 then
        match r with
        | [] => None
        | x :: r' =>
            if x =? 117 then
              match r' with
              | h1 :: h2 :: h3 :: h4 :: r'' =>
                  match hex_value h1, hex_value h2, hex_value h3, hex_value h4 with
                  | Some a, Some b, Some c', Some d =>
                      scan_string r'' (4096 * a + 256 * b + 16 * c' + d :: acc)
                  | _, _, _, _ => None
                  end
              | _ => None
              end
            else match unescape x with
                 | Some u => scan_string r' (u :: acc)
                 | None => None
                 end
        end
      else if c <? 32 then None
      else scan_string r (c :: acc)
  end.

Fixpoint span_digits (s : jsstring) : jsstring * jsstring :=
  match s with
  | [] => ([], [])
  | c :: r =>
      if is_digit c then let '(d, t) := span_digits r in (c :: d, t) else ([], s)
  end.

Definition digits_value (d : jsstring) : Z :=
  fold_left (fun a c => (10 * a + Z.of_N (c - 48))%Z) d 0%Z.

(** A number literal: an optional minus sign, an integer part without a
    leading zero, an optional fraction and an optional exponent. *)
Definition scan_minus (s : jsstring) : bool * jsstring :=
  match s with
  | c :: r => if c =? 45 then (true, r) else (false, s)
  | [] => (false, s)
  end.

Definition scan_fraction (s : jsstring) : option (jsstring * jsstring) :=
  match s with
  | c :: r =>
      if c =? 46 then
        let '(f, t) := span_digits r in
        match f with [] => None | _ :: _ => Some (f, t) end
      else Some ([], s)
  | [] => Some ([], s)
  end.

Definition scan_exp_sign (s : jsstring) : bool * jsstring :=
  match s with
  | x :: r => if x =? 45 then (true, r) else if x =? 43 then (false, r) else (false, s)
  | [] => (false, s)
  end.

Definition scan_exponent (s : jsstring) : option (Z * jsstring) :=
  match s with
  | c :: r =>
      if (c =? 101) || (c =? 69) then
        let '(eneg, r1) := scan_exp_sign r in
        let '(ed, t) := span_digits r1 in
        match ed with
        | [] => None
        | _ :: _ => Some ((if eneg then - digits_value ed else digits_value ed)%Z, t)
        end
      else Some (0%Z, s)
  | [] => Some (0%Z, s)
  end.

Definition scan_number (s : jsstring) : option (JSValue * jsstring) :=
  let '(neg, s1) := scan_minus s in
  let '(ip, s2) := span_digits s1 in
  match ip with
  | [] => None
  | d0 :: more =>
      if (d0 =? 48) && negb (Nat.eqb (length more) 0) then None
      else
        match scan_fraction s2 with
        | None => None
        | Some (fp, s3) =>
            match scan_exponent s3 with
            | None => None
            | Some (ex, s4) =>
                let m := digits_value (ip ++ fp) in
                Some (JNum (if neg then - m else m)%Z (ex - Z.of_nat (length fp))%Z, s4)
            end
        end
  end.

Fixpoint starts_with (p s : jsstring) : bool :=
  match p, s with
  | [], _ => true
  | a :: p', b :: s' => (a =? b) && starts_with p' s'
  | _ :: _, [] => false
  end.

Definition push (t : token) (r : option (list token)) : option (list token) :=
  option_map (cons t) r.

(** The token list of a JSON text.  Every step consumes a code unit, so
    [length s] steps are enough. *)
Fixpoint lex (fuel : nat) (s : jsstring) : option (list token) :=
  match s with
  | [] => Some []
  | c :: r =>
      match fuel with
      | O => None
      | S f =>
          if is_ws c then lex f r
          else if c =? 123 then push TLBrace (lex f r)
          else if c =? 125 then push TRBrace (lex f r)
          else if c =? 91 then push TLBrack (lex f r)
          else if c =? 93 then push TRBrack (lex f r)
          else if c =? 58 then push TColon (lex f r)
          else if c =? 44 then push TComma (lex f r)
          else if c =? 34 then
            match scan_string r [] with
            | Some (str, t) => push (TStr str) (lex f t)
            | None => None
            end
          else if (c =? 45) || is_digit c then
            match scan_number s with
            | Some (v, t) => push (TAtom v) (lex f t)
            | None => None
            end
          else if starts_with (js "true") s then push (TAtom (JBool true)) (lex f (skipn 4 s))
          else if starts_with (js "false") s then push (TAtom (JBool false)) (lex f (skipn 5 s))
          else if starts_with (js "null") s then push (TAtom JNull) (lex f (skipn 4 s))
          else None
      end
  end.

Fixpoint parse_value (fuel : nat) (ts : list token) : option (JSValue * list token) :=
  match fuel with
  | O => None
  | S f =>
      match ts with
      | TAtom v :: r => Some (v, r)
      | TStr s :: r => Some (JStr s, r)
      | TLBrack :: TRBrack :: r => Some (JArr [], r)
      | TLBrack :: r => parse_elements f r []
      | TLBrace :: TRBrace :: r => Some (JObj [], r)
      | TLBrace :: r => parse_members f r []
      | _ => None
      end
  end
with parse_elements (fuel : nat) (ts : list token) (acc : list JSValue)
  : option (JSValue * list token) :=
  match fuel with
  | O => None
  | S f =>
      match parse_value f ts with
      | Some (v, TComma :: r) => parse_elements f r (v :: acc)
      | Some (v, TRBrack :: r) => Some (JArr (rev (v :: acc)), r)
      | _ => None
      end
  end
with parse_members (fuel : nat) (ts : list token) (acc : list (jsstring * JSValue))
  : option (JSValue * list token) :=
  match fuel with
  | O => None
  | S f =>
      match ts with
      | TStr k :: TColon :: r =>
          match parse_value f r with
          | Some (v, TComma :: r') => parse_members f r' (obj_set acc k v)
          | Some (v, TRBrace :: r') => Some (JObj (obj_set acc k v), r')
          | _ => None
          end
      | _ => None
      end
  end.

(** [JSON.parse(text)]; [None] stands for the [SyntaxError] it throws. *)
Definition JSON_parse (text : jsstring) : option JSValue :=
  match lex (length text) text with
  | Some ts =>
      match parse_value (S (2 * length ts)) ts with
      | Some (v, []) => Some v
      | _ => None
      end
  | None => None
  end.

End JSON.

(** ** utils/protocol.ts *)

Module Protocol.
Import Encoding JSON.

Record MessageHeader : Type := {
  byte1 : Z;
  byte2 : Z;
  byte3 : Z;
  byte4 : Z;
  hasPayload : bool;
  headerHex : jsstring;
  totalLength : Z;
  payloadType : option jsstring
}.

Record ParsedMessage : Type := {
  header : option MessageHeader;
  payload : JSValue
}.

(** [data[i]] for an index inside the buffer. *)
Definition at_index (data : Buffer) (i : nat) : Z := Z.of_N (Byte.to_N (nth i data x00)).

(** [isPrintable]: every code unit is in 0x20..0x7E or is LF, CR or TAB. *)
Definition printable_code (code : N) : bool :=
  ((32 <=? code) && (code <=? 126) || (code =? 10) || (code =? 13) || (code =? 9))%N.

Definition isPrintable (str : jsstring) : bool := forallb printable_code str.

(** The descriptor built in the three [binary] branches of the source. *)
Definition binary_descriptor (payloadData : Buffer) : JSValue :=
  JObj [ (js "hex", JStr (toString_hex payloadData));
         (js "length", JNum (Z.of_nat (length payloadData)) 0);
         (js "preview",
          JStr (if (50 <? length payloadData)%nat
                then toString_hex (firstn 50 payloadData)
                else toString_hex payloadData)) ].

(** [parseWidgetUpdate].  Neither [toString] nor [split] throws, so the [catch]
    branch of the source is never entered. *)
Definition parseWidgetUpdate (payloadData : Buffer) : JSValue :=
  let parts := String_split 0 (toString_latin1 payloadData) in
  if (length parts <? 2)%nat then
    JObj [ (js "error", JStr (js "Insufficient null terminators"));
           (js "rawHex", JStr (toString_hex payloadData)) ]
  else
    let deviceId := nth 0 parts [] in
    let widgetId := if (2 <? length parts)%nat then nth 2 parts [] else [] in
    let widgetValue := if (3 <? length parts)%nat then nth 3 parts [] else [] in
    JObj [ (js "widgetId", JStr widgetId);
           (js "deviceId", JStr deviceId);
           (js "widgetValue", JStr widgetValue) ].

(** The classification of a payload whose frame is not a widget update: JSON,
    then printable ASCII, then printable UTF-8, then binary.  Only [JSON.parse]
    can throw; the inner [catch] branches of the source build the same binary
    descriptor and are not reachable. *)
Definition classify (payloadData : Buffer) : JSValue * jsstring :=
  match JSON_parse (toString_utf8 payloadData) with
  | Some v => (v, js "json")
  | None =>
      let asciiStr := toString_ascii payloadData in
      if isPrintable asciiStr then (JStr asciiStr, js "ascii")
      else
        let utf8Str := toString_utf8 payloadData in
        if isPrintable utf8Str then (JStr utf8Str, js "text")
        else (binary_descriptor payloadData, js "binary")
  end.

Definition parseBinaryMessage (data : Buffer) : ParsedMessage :=
  if (length data <? 4)%nat then {| header := None; payload := JNull |}
  else
    let b1 := at_index data 0 in
    let b2 := at_index data 1 in
    let b3 := at_index data 2 in
    let b4 := at_index data 3 in
    let has := (4 <? length data)%nat in
    let '(pl, ptype) :=
      if has then
        let payloadData := skipn 4 data in
        if (b2 =? 20)%Z then (parseWidgetUpdate payloadData, Some (js "widget_update"))
        else let '(v, t) := classify payloadData in (v, Some t)
      else (JNull, None) in
    {| header := Some {| byte1 := b1; byte2 := b2; byte3 := b3; byte4 := b4;
                         hasPayload := has;
                         headerHex := toString_hex (firstn 4 data);
                         totalLength := Z.of_nat (length data);
                         payloadType := ptype |};
       payload := pl |}.

(** [createBinaryMessage].  A missing ([undefined]) payload takes the default
    [null]. *)
Definition createBinaryMessage (payload : JSValue) (byte1 byte2 byte3 byte4 : Z) : Buffer :=
  let header := Buffer_from_array [byte1; byte2; byte3; byte4] in
  match payload with
  | JStr s => header ++ Buffer_from_utf8 s
  | JNull | JUndefined => header
  | _ => header ++ Buffer_from_utf8 (JSON_stringify payload)
  end.

End Protocol.

(** ** utils/hash.ts *)

Module Hash.
Import Encoding.
Local Open Scope N_scope.

(** *** SHA-256 (FIPS 180-4) on 32-bit words *)

Definition w32 (x : N) : N := x mod 4294967296.
Definition rotr (n x : N) : N := N.lor (N.shiftr x n) (w32 (N.shiftl x (32 - n))).
Definition not32 (x : N) : N := N.lxor x 4294967295.
Definition Ch (x y z : N) : N := N.lxor (N.land x y) (N.land (not32 x) z).
Definition Maj (x y z : N) : N := N.lxor (N.lxor (N.land x y) (N.land x z)) (N.land y z).
Definition Sigma0 (x : N) : N := N.lxor (N.lxor (rotr 2 x) (rotr 13 x)) (rotr 22 x).
Definition Sigma1 (x : N) : N := N.lxor (N.lxor (rotr 6 x) (rotr 11 x)) (rotr 25 x).
Definition sigma0 (x : N) : N := N.lxor (N.lxor (rotr 7 x) (rotr 18 x)) (N.shiftr x 3).
Definition sigma1 (x : N) : N := N.lxor (N.lxor (rotr 17 x) (rotr 19 x)) (N.shiftr x 10).

Definition K256 : list N :=
  [ 1116352408; 1899447441; 3049323471; 3921009573; 961987163; 1508970993;
    2453635748; 2870763221; 3624381080; 310598401; 607225278; 1426881987;
    1925078388; 2162078206; 2614888103; 3248222580; 3835390401; 4022224774;
    264347078; 604807628; 770255983; 1249150122; 1555081692; 1996064986;
    2554220882; 2821834349; 2952996808; 3210313671; 3336571891; 3584528711;
    113926993; 338241895; 666307205; 773529912; 1294757372; 1396182291;
    1695183700; 1986661051; 2177026350; 2456956037; 2730485921; 2820302411;
    3259730800; 3345764771; 3516065817; 3600352804; 4094571909; 275423344;
    430227734; 506948616; 659060556; 883997877; 958139571; 1322822218;
    1537002063; 1747873779; 1955562222; 2024104815; 2227730452; 2361852424;
    2428436474; 2756734187; 3204031479; 3329325298 ].

Record state256 : Type := {
  h_a : N; h_b : N; h_c : N; h_d : N; h_e : N; h_f : N; h_g : N; h_h : N
}.

Definition H0 : state256 :=
  {| h_a := 1779033703; h_b := 3144134277; h_c := 1013904242; h_d := 2773480762;
     h_e := 1359893119; h_f := 2600822924; h_g := 528734635; h_h := 1541459225 |}.

(** Padding: a one bit, zeros up to 56 modulo 64, the bit length on 8 bytes. *)
Definition be_bytes (n : nat) (x : N) : Buffer :=
  map (fun i => byte_of_N (N.shiftr x (8 * N.of_nat i))) (rev (seq 0 n)).

Definition pad (msg : Buffer) : Buffer :=
  let len := N.of_nat (length msg) in
  msg ++ [x80] ++ repeat x00 (N.to_nat ((119 - len mod 64) mod 64)) ++ be_bytes 8 (8 * len).

Fixpoint words_of (bs : Buffer) : list N :=
  match bs with
  | a :: b :: c :: d :: r =>
      (16777216 * Byte.to_N a + 65536 * Byte.to_N b + 256 * Byte.to_N c + Byte.to_N d)
        :: words_of r
  | _ => []
  end.

Fixpoint schedule (n : nat) (w : list N) : list N :=
  match n with
  | O => w
  | S k =>
      let t := length w in
      schedule k
        (w ++ [w32 (sigma1 (nth (t - 2) w 0) + nth (t - 7) w 0
                    + sigma0 (nth (t - 15) w 0) + nth (t - 16) w 0)])
  end.

Definition round256 (s : state256) (kw : N * N) : state256 :=
  let t1 := w32 (h_h s + Sigma1 (h_e s) + Ch (h_e s) (h_f s) (h_g s) + fst kw + snd kw) in
  let t2 := w32 (Sigma0 (h_a s) + Maj (h_a s) (h_b s) (h_c s)) in
  {| h_a := w32 (t1 + t2); h_b := h_a s; h_c := h_b s; h_d := h_c s;
     h_e := w32 (h_d s + t1); h_f := h_e s; h_g := h_f s; h_h := h_g s |}.

Definition compress (s : state256) (block : list N) : state256 :=
  let r := fold_left round256 (combine K256 (schedule 48 block)) s in
  {| h_a := w32 (h_a s + h_a r); h_b := w32 (h_b s + h_b r); h_c := w32 (h_c s + h_c r);
     h_d := w32 (h_d s + h_d r); h_e := w32 (h_e s + h_e r); h_f := w32 (h_f s + h_f r);
     h_g := w32 (h_g s + h_g r); h_h := w32 (h_h s + h_h r) |}.

Fixpoint blocks (n : nat) (ws : list N) (s : state256) : state256 :=
  match n with
  | O => s
  | S k => blocks k (skipn 16 ws) (compress s (firstn 16 ws))
  end.

Definition sha256 (msg : Buffer) : Buffer :=
  let ws := words_of (pad msg) in
  let s := blocks (length ws / 16) ws H0 in
  flat_map (be_bytes 4) [h_a s; h_b s; h_c s; h_d s; h_e s; h_f s; h_g s; h_h s].

(** *** Base64, standard alphabet, padded ([buf.toString('base64')]) *)

Definition b64_char (n : N) : N :=
  if n <? 26 then 65 + n
  else if n <? 52 then 97 + (n - 26)
  else if n <? 62 then 48 + (n - 52)
  else if n =? 62 then 43
  else 47.

Fixpoint toString_base64 (bs : Buffer) : jsstring :=
  match bs with
  | [] => []
  | [a] =>
      let x := Byte.to_N a in
      [b64_char (x / 4); b64_char ((x mod 4) * 16); 61; 61]
  | [a; b] =>
      let x := Byte.to_N a in
      let y := Byte.to_N b in
      [b64_char (x / 4); b64_char ((x mod 4) * 16 + y / 16); b64_char ((y mod 16) * 4); 61]
  | a :: b :: c :: r =>
      let x := Byte.to_N a in
      let y := Byte.to_N b in
      let z := Byte.to_N c in
      [b64_char (x / 4); b64_char ((x mod 4) * 16 + y / 16);
       b64_char ((y mod 16) * 4 + z / 64); b64_char (z mod 64)] ++ toString_base64 r
  end.

(** *** The [crypto] hash object: [createHash], [update], [digest] *)

Record HashObject : Type := { pending : Buffer }.

Definition createHash_sha256 : HashObject := {| pending := [] |}.
(** [update(str)] feeds the UTF-8 bytes of a string. *)
Definition update_string (h : HashObject) (s : jsstring) : HashObject :=
  {| pending := pending h ++ Buffer_from_utf8 s |}.
Definition update_buffer (h : HashObject) (b : Buffer) : HashObject :=
  {| pending := pending h ++ b |}.
Definition digest (h : HashObject) : Buffer := sha256 (pending h).

Definition Buffer_concat (l : list Buffer) : Buffer := concat l.

Definition is_ascii (c : N) : bool := c <? 128.
Definition ascii_lower (c : N) : N := if (65 <=? c) && (c <=? 90) then c + 32 else c.

Section CaseTables.

(** The lower-casing of a string that has a code unit outside ASCII is decided
    by the Unicode case tables of the runtime, which are not part of the
    repository. *)
Variable unicode_lower : jsstring -> jsstring.

(** [str.toLowerCase()]. *)
Definition toLowerCase (s : jsstring) : jsstring :=
  if forallb is_ascii s then map ascii_lower s else unicode_lower s.

Definition calculateHash (email password : jsstring) : jsstring :=
  let emailHash := digest (update_string createHash_sha256 (toLowerCase email)) in
  let combined := Buffer_concat [Buffer_from_utf8 password; emailHash] in
  let finalHash := digest (update_buffer createHash_sha256 combined) in
  toString_base64 finalHash.

End CaseTables.

End Hash.

(** ** client.ts *)

Module Client.
Import Encoding JSON Protocol Hash.
Local Open Scope Z_scope.

(** *** Errors and completions *)

Inductive JSError : Type :=
| Error (message : jsstring)
| TypeError (message : jsstring).

Inductive Completion (A : Type) : Type :=
| Normal (a : A)
| Throw (e : JSError).
Arguments Normal {A} a.
Arguments Throw {A} e.

(** *** Reading JavaScript values

    The source casts payloads to its model interfaces without checking them, so
    the accesses below follow the language: reading a property of [null] or
    [undefined] throws a [TypeError], reading a missing property gives
    [undefined], and [for ... of] throws on a value that is not iterable. *)

Definition str (s : string) : JSValue := JStr (js s).
Definition field (k : string) (v : JSValue) : jsstring * JSValue := (js k, v).

(** [v.k], for a property name that no built-in prototype defines. *)
Definition get_prop (v : JSValue) (k : string) : Completion JSValue :=
  match v with
  | JUndefined | JNull =>
      Throw (TypeError (js "Cannot read properties of null or undefined, reading " ++ js k))
  | JObj fs => Normal (match obj_get fs (js k) with Some x => x | None => JUndefined end)
  | _ => Normal JUndefined
  end.

(** [v[i]] for a literal index. *)
Definition get_index (v : JSValue) (i : nat) : Completion JSValue :=
  match v with
  | JUndefined | JNull =>
      Throw (TypeError (js "Cannot read properties of null or undefined, reading an index"))
  | JArr l => Normal (nth i l JUndefined)
  | JStr s => Normal (match nth_error s i with Some c => JStr [c] | None => JUndefined end)
  | JObj fs =>
      Normal (match obj_get fs (decimal (N.of_nat i)) with Some x => x | None => JUndefined end)
  | _ => Normal JUndefined
  end.

(** The string iterator yields code points: a surrogate pair is one item. *)
Fixpoint code_points (s : jsstring) : list JSValue :=
  match s with
  | [] => []
  | c :: r =>
      match r with
      | d :: r' =>
          if is_high c && is_low d then JStr [c; d] :: code_points r'
          else JStr [c] :: code_points r
      | [] => [JStr [c]]
      end
  end.

(** The items [for (const x of v)] visits. *)
Definition iterate (v : JSValue) : Completion (list JSValue) :=
  match v with
  | JArr l => Normal l
  | JStr s => Normal (code_points s)
  | _ => Throw (TypeError (js "value is not iterable"))
  end.

(** [String(v)], which is also the conversion of [v] inside a template
    literal.  An object is converted by its [toString]: an object read from a
    payload inherits the one of [Object.prototype], unless it has a property
    of that name of its own, which is not a function, and then (its [valueOf]
    giving no primitive either) the conversion throws.  An array joins the
    conversions of its elements, [undefined] and [null] giving the empty
    string. *)
Fixpoint String_of (v : JSValue) : Completion jsstring :=
  match v with
  | JUndefined => Normal (js "undefined")
  | JNull => Normal (js "null")
  | JBool true => Normal (js "true")
  | JBool false => Normal (js "false")
  | JNum m e => Normal (Number_toString m e)
  | JStr s => Normal s
  | JArr l =>
      let fix elements (l : list JSValue) : Completion (list jsstring) :=
        match l with
        | [] => Normal []
        | x :: r =>
            match match x with
                  | JUndefined | JNull => Normal []
                  | _ => String_of x
                  end with
            | Throw e => Throw e
            | Normal t =>
                match elements r with
                | Throw e => Throw e
                | Normal ts => Normal (t :: ts)
                end
            end
        end in
      match elements l with
      | Throw e => Throw e
      | Normal ts => Normal (join (js ",") ts)
      end
  | JObj fs =>
      match obj_get fs (js "toString") with
      | Some _ => Throw (TypeError (js "Cannot convert object to primitive value"))
      | None => Normal (js "[object Object]")
      end
  end.

(** Equality of [Map] keys (SameValueZero): primitives by value; two objects
    read from a payload are never the same object. *)
Definition key_eqb (a b : JSValue) : bool :=
  match a, b with
  | JUndefined, JUndefined => true
  | JNull, JNull => true
  | JBool x, JBool y => Bool.eqb x y
  | JNum m e, JNum m' e' => jsstring_eqb (Number_toString m e) (Number_toString m' e')
  | JStr s, JStr t => jsstring_eqb s t
  | _, _ => false
  end.

Definition JSMap : Type := list (JSValue * JSValue).

Fixpoint Map_set (m : JSMap) (k v : JSValue) : JSMap :=
  match m with
  | [] => [(k, v)]
  | (k', v') :: r => if key_eqb k' k then (k', v) :: r else (k', v') :: Map_set r k v
  end.

Fixpoint Map_get (m : JSMap) (k : JSValue) : option JSValue :=
  match m with
  | [] => None
  | (k', v') :: r => if key_eqb k' k then Some v' else Map_get r k
  end.

(** *** The session and its surroundings *)

(** The socket as the driver sees it: the frames handed to [ws.send], and
    whether [ws.close] was called. *)
Record Socket : Type := { sent : list Buffer; closed : bool }.

(** What a call of [listen] meets: a binary message within the window, or the
    timer. *)
Inductive Arrival : Type :=
| Frame (data : Buffer)
| Silence.

(** How [connect] ends: the socket opens; the HTTP request fails (caught,
    [false]); or the socket reports an error (the returned promise rejects). *)
Inductive ConnectResult : Type :=
| Opens
| HttpFails
| SocketFails (message : jsstring).

(** The fields of [EviqoWebsocketConnection], the events handed to
    [EventEmitter.emit] (the class extends [EventEmitter]), and the
    environment: the arrivals the successive [listen] calls meet, the
    successive readings of [new Date()], and the fate of [connect]. *)
Record State : Type := {
  username : option jsstring;
  password : option jsstring;
  ws : option Socket;
  user : JSValue;
  devices : list JSValue;
  devicePages : list JSValue;
  messageCounter : Z;
  widgetIdMap : list (Z * JSMap);
  widgetNameMap : list (Z * JSMap);
  keepaliveTimer : Z;
  emitted : list (jsstring * JSValue);
  inbound : list Arrival;
  clock : list Z;
  connection : ConnectResult
}.

(** *** State and exceptions *)

Definition M (A : Type) : Type := State -> Completion A * State.

Definition ret {A : Type} (a : A) : M A := fun s => (Normal a, s).
Definition throw {A : Type} (e : JSError) : M A := fun s => (Throw e, s).
Definition bind {A B : Type} (c : M A) (k : A -> M B) : M B :=
  fun s => match c s with
           | (Normal a, s') => k a s'
           | (Throw e, s') => (Throw e, s')
           end.
Definition lift {A : Type} (c : Completion A) : M A := fun s => (c, s).
Definition get : M State := fun s => (Normal s, s).
Definition modify (f : State -> State) : M unit := fun s => (Normal tt, f s).

Notation "x <- c ;; k" := (bind c (fun x => k))
  (at level 61, c at next level, right associativity).
Notation "c ;; k" := (bind c (fun _ => k))
  (at level 61, right associativity).

(** [for (const x of l) body]. *)
Fixpoint for_of {A : Type} (l : list A) (body : A -> M unit) : M unit :=
  match l with
  | [] => ret tt
  | x :: r => body x ;; for_of r body
  end.

Definition set_ws (w : option Socket) (s : State) : State :=
  {| username := username s; password := password s; ws := w; user := user s;
     devices := devices s; devicePages := devicePages s;
     messageCounter := messageCounter s; widgetIdMap := widgetIdMap s;
     widgetNameMap := widgetNameMap s; keepaliveTimer := keepaliveTimer s;
     emitted := emitted s; inbound := inbound s; clock := clock s;
     connection := connection s |}.

Definition set_user (u : JSValue) (s : State) : State :=
  {| username := username s; password := password s; ws := ws s; user := u;
     devices := devices s; devicePages := devicePages s;
     messageCounter := messageCounter s; widgetIdMap := widgetIdMap s;
     widgetNameMap := widgetNameMap s; keepaliveTimer := keepaliveTimer s;
     emitted := emitted s; inbound := inbound s; clock := clock s;
     connection := connection s |}.

Definition set_devices (d : list JSValue) (s : State) : State :=
  {| username := username s; password := password s; ws := ws s; user := user s;
     devices := d; devicePages := devicePages s;
     messageCounter := messageCounter s; widgetIdMap := widgetIdMap s;
     widgetNameMap := widgetNameMap s; keepaliveTimer := keepaliveTimer s;
     emitted := emitted s; inbound := inbound s; clock := clock s;
     connection := connection s |}.

Definition set_devicePages (p : list JSValue) (s : State) : State :=
  {| username := username s; password := password s; ws := ws s; user := user s;
     devices := devices s; devicePages := p;
     messageCounter := messageCounter s; widgetIdMap := widgetIdMap s;
     widgetNameMap := widgetNameMap s; keepaliveTimer := keepaliveTimer s;
     emitted := emitted s; inbound := inbound s; clock := clock s;
     connection := connection s |}.

Definition set_messageCounter (c : Z) (s : State) : State :=
  {| username := username s; password := password s; ws := ws s; user := user s;
     devices := devices s; devicePages := devicePages s;
     messageCounter := c; widgetIdMap := widgetIdMap s;
     widgetNameMap := widgetNameMap s; keepaliveTimer := keepaliveTimer s;
     emitted := emitted s; inbound := inbound s; clock := clock s;
     connection := connection s |}.

Definition set_widgetIdMap (m : list (Z * JSMap)) (s : State) : State :=
  {| username := username s; password := password s; ws := ws s; user := user s;
     devices := devices s; devicePages := devicePages s;
     messageCounter := messageCounter s; widgetIdMap := m;
     widgetNameMap := widgetNameMap s; keepaliveTimer := keepaliveTimer s;
     emitted := emitted s; inbound := inbound s; clock := clock s;
     connection := connection s |}.

Definition set_widgetNameMap (m : list (Z * JSMap)) (s : State) : State :=
  {| username := username s; password := password s; ws := ws s; user := user s;
     devices := devices s; devicePages := devicePages s;
     messageCounter := messageCounter s; widgetIdMap := widgetIdMap s;
     widgetNameMap := m; keepaliveTimer := keepaliveTimer s;
     emitted := emitted s; inbound := inbound s; clock := clock s;
     connection := connection s |}.

Definition set_keepaliveTimer (t : Z) (s : State) : State :=
  {| username := username s; password := password s; ws := ws s; user := user s;
     devices := devices s; devicePages := devicePages s;
     messageCounter := messageCounter s; widgetIdMap := widgetIdMap s;
     widgetNameMap := widgetNameMap s; keepaliveTimer := t;
     emitted := emitted s; inbound := inbound s; clock := clock s;
     connection := connection s |}.

Definition set_inbound (i : list Arrival) (s : State) : State :=
  {| username := username s; password := password s; ws := ws s; user := user s;
     devices := devices s; devicePages := devicePages s;
     messageCounter := messageCounter s; widgetIdMap := widgetIdMap s;
     widgetNameMap := widgetNameMap s; keepaliveTimer := keepaliveTimer s;
     emitted := emitted s; inbound := i; clock := clock s;
     connection := connection s |}.

Definition set_clock (c : list Z) (s : State) : State :=
  {| username := username s; password := password s; ws := ws s; user := user s;
     devices := devices s; devicePages := devicePages s;
     messageCounter := messageCounter s; widgetIdMap := widgetIdMap s;
     widgetNameMap := widgetNameMap s; keepaliveTimer := keepaliveTimer s;
     emitted := emitted s; inbound := inbound s; clock := c;
     connection := connection s |}.

(** [new Date().getTime()]: the next reading of the clock. *)
Definition Date_now : M Z :=
  fun s => match clock s with
           | [] => (Normal 0, s)
           | t :: r => (Normal t, set_clock r s)
           end.

(** The constructor; [keepaliveTimer] is initialised with [new Date()].  The
    [url] is only handed to the socket and [_sessionId] is not stored. *)
Definition new_session (username password : option jsstring)
    (inbound : list Arrival) (clock : list Z) (connection : ConnectResult) : State :=
  {| username := username; password := password; ws := None; user := JNull;
     devices := []; devicePages := []; messageCounter := 0;
     widgetIdMap := []; widgetNameMap := [];
     keepaliveTimer := hd 0 clock;
     emitted := []; inbound := inbound; clock := tl clock;
     connection := connection |}.

(** *** The methods of [EviqoWebsocketConnection]

    Calls of [logger] leave no trace in the state and are left out, except
    for the conversions to string that building a log message performs: they
    can throw. *)

Definition null_message : ParsedMessage := {| header := None; payload := JNull |}.

(** [listen(duration)]: the next binary message, parsed, or the null message
    when the timer fires first (or when there is no socket).  The handler
    only parses, logs and resolves. *)
Definition listen (duration : Z) : M ParsedMessage :=
  s <- get ;;
  match ws s with
  | None => ret null_message
  | Some _ =>
      match inbound s with
      | [] => ret null_message
      | Silence :: r => modify (set_inbound r) ;; ret null_message
      | Frame data :: r => modify (set_inbound r) ;; ret (parseBinaryMessage data)
      end
  end.

(** [this.ws.send(message)]. *)
Definition ws_send (message : Buffer) : M unit :=
  modify (fun s =>
            match ws s with
            | Some k => set_ws (Some {| sent := sent k ++ [message]; closed := closed k |}) s
            | None => s
            end).

(** [sendMessage(payload, byte1, byte2, byte3, byte4, description)];
    [byte4 = None] is the omitted ([undefined]) argument. *)
Definition sendMessage (payload : JSValue) (byte1 byte2 byte3 : Z) (byte4 : option Z)
    (description : string) : M unit :=
  s <- get ;;
  match ws s with
  | None => ret tt
  | Some _ =>
      actualByte4 <-
        match byte4 with
        | Some b => ret b
        | None =>
            modify (set_messageCounter (messageCounter s + 1)) ;;
            ret (messageCounter s)
        end ;;
      ws_send (createBinaryMessage payload byte1 byte2 byte3 actualByte4)
  end.

Definition keepalive : M unit :=
  now <- Date_now ;;
  s <- get ;;
  let elapsed := now - keepaliveTimer s in
  if 15000 <=? elapsed then
    t <- Date_now ;;
    modify (set_keepaliveTimer t) ;;
    sendMessage JNull 0 6 0 None "KEEPALIVE" ;;
    _ <- listen 10 ;;
    ret tt
  else ret tt.

Definition initPayload : JSValue :=
  JObj [ field "clientType" (str "web");
         field "version" (str "0.98.2");
         field "locale" (str "en_US") ].

Definition issueInitialization : M unit :=
  sendMessage initPayload 1 48 0 (Some 1) "INIT" ;;
  r <- listen 10 ;;
  match payload r with
  | JNull => throw (Error (js "Init message failed"))
  | _ => ret tt
  end.

Section Driver.

Variable unicode_lower : jsstring -> jsstring.

Definition login : M unit :=
  s <- get ;;
  match username s, password s with
  | Some u, Some p =>
      sendMessage
        (JObj [ field "email" (JStr u);
                field "hash" (JStr (calculateHash unicode_lower u p));
                field "clientType" (str "web");
                field "version" (str "0.98.2");
                field "locale" (str "en_US") ])
        0 2 0 (Some 3) "LOGIN" ;;
      r <- listen 10 ;;
      match payload r with
      | JNull => throw (Error (js "Did not get back user payload"))
      | v => modify (set_user v)
      end
  | _, _ => throw (Error (js "User and password must be set"))
  end.

Definition deviceQuery : JSValue :=
  JObj [ field "docType" (str "DEVICE");
         field "mode" (str "MATCH_ALL");
         field "viewType" (str "LIST");
         field "filters"
           (JArr [ JObj [ field "type" (str "SUB_SEGMENT");
                          field "filters" (JArr []);
                          field "mode" (str "MATCH_ANY");
                          field "isCurrent" (JBool true) ] ]);
         field "offset" (JNum 0 0);
         field "limit" (JNum 17 0);
         field "order" (str "ASC");
         field "sortBy" (str "Name") ].

Definition queryDevices : M unit :=
  sendMessage deviceQuery 1 27 0 None "DEVICE QUERY" ;;
  r <- listen 10 ;;
  let deviceResponse := payload r in
  docs <- lift (get_prop deviceResponse "docs") ;;
  items <- lift (iterate docs) ;;
  for_of items (fun device =>
    deviceDetails <- lift (get_index device 1) ;;
    modify (fun s => set_devices (devices s ++ [deviceDetails]) s) ;;
    name <- lift (get_prop deviceDetails "name") ;;
    _ <- lift (String_of name) ;;
    deviceId <- lift (get_prop deviceDetails "deviceId") ;;
    _ <- lift (String_of deviceId) ;;
    ret tt).

Definition requestChargingStatus (deviceId : JSValue) : M JSValue :=
  s <- get ;;
  match ws s with
  | None => throw (Error (js "Cannot request charging status before websocket is created"))
  | Some _ =>
      let pageId := str "17948" in
      number <- lift (String_of deviceId) ;;
      sendMessage (JStr number) 0 73 1 None "DEVICE NUMBER" ;;
      _ <- listen 10 ;;
      text <- lift (String_of deviceId) ;;
      sendMessage
        (JObj [ field "pageId" pageId;
                field "deviceId" (JStr text);
                field "dashboardPageId" JNull ])
        1 4 1 None "DEVICE PAGE" ;;
      result <- listen 10 ;;
      ret (payload result)
  end.

Fixpoint outer_get (m : list (Z * JSMap)) (i : Z) : option JSMap :=
  match m with
  | [] => None
  | (j, x) :: r => if j =? i then Some x else outer_get r i
  end.

Fixpoint outer_set (m : list (Z * JSMap)) (i : Z) (x : JSMap) : list (Z * JSMap) :=
  match m with
  | [] => [(i, x)]
  | (j, y) :: r => if j =? i then (j, x) :: r else (j, y) :: outer_set r i x
  end.

Definition ensure (m : list (Z * JSMap)) (i : Z) : list (Z * JSMap) :=
  match outer_get m i with
  | Some _ => m
  | None => outer_set m i []
  end.

Definition inner_set (m : list (Z * JSMap)) (i : Z) (k v : JSValue) : list (Z * JSMap) :=
  match outer_get m i with
  | Some x => outer_set m i (Map_set x k v)
  | None => m
  end.

Definition extractWidgetMappings (deviceIdx : Z) (devicePage : JSValue) : M unit :=
  dashboard <- lift (get_prop devicePage "dashboard") ;;
  widgets <- lift (get_prop dashboard "widgets") ;;
  modify (fun s => set_widgetIdMap (ensure (widgetIdMap s) deviceIdx) s) ;;
  modify (fun s => set_widgetNameMap (ensure (widgetNameMap s) deviceIdx) s) ;;
  ws <- lift (iterate widgets) ;;
  for_of ws (fun widget =>
    modules <- lift (get_prop widget "modules") ;;
    ms <- lift (iterate modules) ;;
    for_of ms (fun module =>
      displayDataStreams <- lift (get_prop module "displayDataStreams") ;;
      ss <- lift (iterate displayDataStreams) ;;
      for_of ss (fun stream =>
        id <- lift (get_prop stream "id") ;;
        key <- lift (String_of id) ;;
        modify (fun s =>
          set_widgetIdMap (inner_set (widgetIdMap s) deviceIdx (JStr key) stream) s) ;;
        name <- lift (get_prop stream "name") ;;
        modify (fun s =>
          set_widgetNameMap (inner_set (widgetNameMap s) deviceIdx name stream) s)))).

(** [connect]: on success the socket exists and is open.  A socket error
    rejects the promise that [connect] returns without awaiting it, so the
    error leaves [connect] itself. *)
Definition connect : M bool :=
  s <- get ;;
  match connection s with
  | HttpFails => ret false
  | Opens => modify (set_ws (Some {| sent := []; closed := false |})) ;; ret true
  | SocketFails message =>
      modify (set_ws (Some {| sent := []; closed := false |})) ;;
      throw (Error message)
  end.

(** The body of the [try] block of [run] up to the loop. *)
Definition handshake : M unit :=
  issueInitialization ;;
  login ;;
  queryDevices ;;
  s <- get ;;
  match devices s with
  | [] => throw (Error (js "No devices found"))
  | device :: _ =>
      deviceId <- lift (get_prop device "deviceId") ;;
      match deviceId with
      | JUndefined => throw (Error (js "Device ID was not set"))
      | _ =>
          page <- requestChargingStatus deviceId ;;
          modify (fun s => set_devicePages (devicePages s ++ [page]) s) ;;
          s' <- get ;;
          extractWidgetMappings 0 (nth 0 (devicePages s') JUndefined) ;;
          keepalive
      end
  end.

(** [n] turns of [while (!justScan) { await keepalive(); await listen(20) }]. *)
Fixpoint steady_state (n : nat) : M unit :=
  match n with
  | O => ret tt
  | S k => keepalive ;; _ <- listen 20 ;; steady_state k
  end.

(** The [finally] block. *)
Definition close_ws (s : State) : State :=
  match ws s with
  | Some k => set_ws (Some {| sent := sent k; closed := true |}) s
  | None => s
  end.

(** How an observation of [run] ends: it returned, or it is still in its
    loop after the observed number of turns (the loop has no exit). *)
Inductive RunResult : Type :=
| Returned
| Listening.

(** [run(justScan)], observed for [n] turns of the steady-state loop. *)
Definition run (n : nat) (justScan : bool) : M RunResult :=
  ok <- connect ;;
  if negb ok then ret Returned
  else
    fun s =>
      match handshake s with
      | (Throw e, s') => (Throw e, close_ws s')
      | (Normal _, s') =>
          if justScan then (Normal Returned, close_ws s')
          else
            match steady_state n s' with
            | (Throw e, s'') => (Throw e, close_ws s'')
            | (Normal _, s'') => (Normal Listening, s'')
            end
      end.

End Driver.

End Client.

(** ** Vocabulary of the statements *)

Import Encoding JSON Protocol.

(** The bytes of an ASCII literal. *)
Definition bytes (s : string) : Buffer := list_byte_of_string s.

(** The null-delimited segments of a telemetry payload. *)
Definition segments (payloadData : Buffer) : list jsstring :=
  String_split 0 (toString_latin1 payloadData).

(** The own property [k] of a result object, [undefined] when absent. *)
Definition member (v : JSValue) (k : string) : JSValue :=
  match v with
  | JObj fs => match obj_get fs (js k) with Some x => x | None => JUndefined end
  | _ => JUndefined
  end.

Definition has_member (v : JSValue) (k : string) : bool :=
  match v with
  | JObj fs => match obj_get fs (js k) with Some _ => true | None => false end
  | _ => false
  end.

(** A payload byte of the printable range, and a byte of 0x00..0x08. *)
Definition printable_byte (b : byte) : bool := printable_code (Byte.to_N b).
Definition control_byte (b : byte) : bool := (Byte.to_N b <=? 8)%N.

(** A character of the standard base64 alphabet, or the padding character. *)
Definition base64_unit (c : N) : bool :=
  ((65 <=? c) && (c <=? 90) || (97 <=? c) && (c <=? 122) || (48 <=? c) && (c <=? 57)
   || (c =? 43) || (c =? 47) || (c =? 61))%N.

(** The UTF-8 decoder expects continuation bytes at or above 0x80. *)
Definition utf8_wf (st : utf8_state) : Prop := (128 <= u_lower st)%N.

(** A code unit that is not one of U+0000..U+0008. *)
Definition json_ok (c : N) : Prop := (8 < c)%N.

(** The payload type recorded in the header of a decoded frame. *)
Definition classified_as (m : ParsedMessage) (t : string) : Prop :=
  option_map payloadType (header m) = Some (Some (js t)).

(** Classified as text: printable ASCII ([ascii]) or printable UTF-8
    ([text]). *)
Definition is_text (m : ParsedMessage) : Prop :=
  classified_as m "ascii" \/ classified_as m "text".

(** *** The driver *)

Import Client.

(** What a call of [listen] returns for an arrival. *)
Definition arrival_message (a : Arrival) : ParsedMessage :=
  match a with
  | Frame data => parseBinaryMessage data
  | Silence => null_message
  end.

(** The payload that the [i]-th call of [listen] returns when the calls meet
    [arrivals] in order (no arrival left: the timer fires). *)
Definition response (arrivals : list Arrival) (i : nat) : JSValue :=
  payload (arrival_message (nth i arrivals Silence)).

(** A computation leaves the observation [f] of the state unchanged, whether
    it returns or throws. *)
Definition preserves {A X : Type} (f : State -> X) (c : M A) : Prop :=
  forall s, f (snd (c s)) = f s.

(** One call of [sendMessage], and a sequence of calls. *)
Record SendCall : Type := {
  sc_payload : JSValue;
  sc_byte1 : Z;
  sc_byte2 : Z;
  sc_byte3 : Z;
  sc_byte4 : option Z;
  sc_description : string
}.

Definition send (c : SendCall) : M unit :=
  sendMessage (sc_payload c) (sc_byte1 c) (sc_byte2 c) (sc_byte3 c) (sc_byte4 c)
    (sc_description c).

Fixpoint send_all (calls : list SendCall) : M unit :=
  match calls with
  | [] => ret tt
  | c :: r => bind (send c) (fun _ => send_all r)
  end.

Definition is_auto (c : SendCall) : bool :=
  match sc_byte4 c with None => true | Some _ => false end.

(** The frames a session has handed to its socket. *)
Definition sent_frames (s : State) : list Buffer :=
  match ws s with Some k => sent k | None => [] end.

Definition has_socket (s : State) : bool :=
  match ws s with Some _ => true | None => false end.

(** The state of the handshake before its [i]-th call of [listen]: the socket
    exists, no device page is stored, and [i] arrivals have been consumed. *)
Definition at_stage (arrivals : list Arrival) (i : nat) (s : State) : Prop :=
  has_socket s = true /\ devicePages s = [] /\ inbound s = skipn i arrivals.

(** A received frame that decodes as telemetry. *)
Definition is_telemetry (a : Arrival) : bool :=
  match header (arrival_message a) with
  | Some h =>
      match payloadType h with
      | Some t => jsstring_eqb t (js "widget_update")
      | None => false
      end
  | None => false
  end.

(** *** A session with one charger

    The server answers Init, Login, Device Query, Device Select and Device Page,
    then pushes three telemetry frames. *)

Definition telemetry_frame : Buffer :=
  [x00; x14; x00; x00] ++ bytes "89349" ++ [x00] ++ bytes "vw" ++ [x00] ++ bytes "5"
    ++ [x00] ++ bytes "241.29".

Definition stream5 : JSValue :=
  JObj [ field "id" (JNum 5 0); field "name" (str "Charging Power") ].

Definition device_page : JSValue :=
  JObj [ field "dashboard"
           (JObj [ field "widgets"
                     (JArr [ JObj [ field "modules"
                                      (JArr [ JObj [ field "displayDataStreams"
                                                       (JArr [stream5]) ] ]) ] ]) ]) ].

Definition device_list : JSValue :=
  JObj [ field "docs"
           (JArr [ JArr [ str "DEVICE";
                          JObj [ field "name" (str "Home Charger");
                                 field "deviceId" (JNum 89349 0) ] ] ]) ].

Definition handshake_answers (select_ack : Arrival) : list Arrival :=
  [ Frame (createBinaryMessage (JObj [field "status" (str "ok")]) 1 48 0 1);
    Frame (createBinaryMessage (JObj [field "email" (str "test@example.com")]) 0 2 0 3);
    Frame (createBinaryMessage device_list 1 27 0 0);
    select_ack;
    Frame (createBinaryMessage device_page 1 4 1 2) ].

Definition charger_session (arrivals : list Arrival) (clock : list Z) : State :=
  new_session (Some (js "test@example.com")) (Some (js "pw")) arrivals clock Opens.

Definition monitoring : State :=
  charger_session
    (handshake_answers (Frame (createBinaryMessage (str "ok") 0 73 1 1))
       ++ [Frame telemetry_frame; Frame telemetry_frame; Frame telemetry_frame])
    [0; 1000; 2000; 16000; 16000]%Z.

(** *** The UTF-8 decoder between two characters

    While a sequence is pending, the code point collected so far and the lower
    bound for the next byte already force the finished code point to be at
    least U+0080. *)
Definition utf8_pending_ok (st : utf8_state) : Prop :=
  match u_needed st with
  | O => True
  | S k =>
      (128 <= u_lower st)%N /\ (u_upper st <= 191)%N
      /\ (128 <= (u_cp st * 64 + (u_lower st - 128)) * 64 ^ N.of_nat k)%N
  end.

(** A field of a telemetry payload: bytes without the null delimiter. *)
Definition zero_free (field : Buffer) : Prop := Forall (fun b => b <> x00) field.

(** A computation that returns on every state. *)
Definition never_throws {A : Type} (c : M A) : Prop :=
  forall s, exists a s', c s = (Normal a, s').

(** The socket exists and [close] has not been called on it. *)
Definition socket_open (s : State) : bool :=
  match ws s with Some k => negb (closed k) | None => false end.

(** The socket exists and [close] has been called on it. *)
Definition socket_closed (s : State) : bool :=
  match ws s with Some k => closed k | None => false end.

(** Whether [close] has been called on the socket, when there is one. *)
Definition socket_flag (s : State) : option bool := option_map closed (ws s).

(** *** The order of the requests *)

(** The four header bytes of the five handshake requests: Init, Login, Device
    Query, Device Select, Device Page. *)
Definition handshake_headers : list Buffer :=
  [ [x01; x30; x00; x01]; [x00; x02; x00; x03]; [x01; x1b; x00; x00];
    [x00; x49; x01; x01]; [x01; x04; x01; x02] ].

(** The headers of the frames handed to the socket, in order. *)
Definition frame_headers (s : State) : list Buffer := map (firstn 4) (sent_frames s).

Definition keepalive_header (h : Buffer) : Prop := exists c, h = [x00; x06; x00; c].

(** Before the [i]-th call of [listen] of a handshake that started on a fresh
    session: [i] requests have been sent, and the counter has served the
    requests after Login. *)
Definition progress (arrivals : list Arrival) (i : nat) (s : State) : Prop :=
  at_stage arrivals i s
  /\ frame_headers s = firstn i handshake_headers
  /\ messageCounter s = Z.of_nat (i - 2).

(** The frames sent so far are the first [k] handshake requests, followed by
    keepalive frames only, and by none before all five requests are out. *)
Definition sent_in_order (k : nat) (s : State) : Prop :=
  (k <= 5)%nat
  /\ exists kas,
       frame_headers s = firstn k handshake_headers ++ kas
       /\ Forall keepalive_header kas
       /\ ((k < 5)%nat -> kas = []).

(** A computation that sends nothing but keepalive frames. *)
Definition only_keepalives {A : Type} (c : M A) : Prop :=
  forall s, exists kas,
    frame_headers (snd (c s)) = frame_headers s ++ kas /\ Forall keepalive_header kas.

(** *** The device list *)

(** [device[1]], the details of an entry of [docs]; [undefined] also stands
    for an access that throws. *)
Definition details (device : JSValue) : JSValue :=
  match get_index device 1 with
  | Normal v => v
  | Throw _ => JUndefined
  end.

(** A value that [String] converts. *)
Definition converts (v : JSValue) : bool :=
  match String_of v with
  | Normal _ => true
  | Throw _ => false
  end.

(** An entry of [docs] whose details can be read and logged: [device[1]] is
    neither [undefined] nor [null], and its [name] and [deviceId] convert to
    strings. *)
Definition device_entry (device : JSValue) : Prop :=
  details device <> JUndefined /\ details device <> JNull
  /\ converts (match get_prop (details device) "name" with
               | Normal v => v
               | Throw _ => JUndefined
               end) = true
  /\ converts (match get_prop (details device) "deviceId" with
               | Normal v => v
               | Throw _ => JUndefined
               end) = true.

(** The body of the loop of [queryDevices]. *)
Definition device_step (device : JSValue) : M unit :=
  bind (lift (get_index device 1))
    (fun deviceDetails =>
       bind (modify (fun s => set_devices (devices s ++ [deviceDetails]) s))
         (fun _ =>
            bind (lift (get_prop deviceDetails "name"))
              (fun name =>
                 bind (lift (String_of name))
                   (fun _ =>
                      bind (lift (get_prop deviceDetails "deviceId"))
                        (fun deviceId =>
                           bind (lift (String_of deviceId)) (fun _ => ret tt)))))).

(** A session on an open socket whose next arrival is the given frame. *)
Definition answering (data : Buffer) : State :=
  set_ws (Some {| sent := []; closed := false |}) (charger_session [Frame data] []).

(** *** The widget maps *)

(** [v.k] and the items of [for (const x of v)] where the access succeeds. *)
Definition prop (v : JSValue) (k : string) : JSValue :=
  match get_prop v k with
  | Normal x => x
  | Throw _ => JUndefined
  end.

Definition items (v : JSValue) : list JSValue :=
  match iterate v with
  | Normal l => l
  | Throw _ => []
  end.

(** The display data streams of a device page, in the order in which the
    three nested loops of [extractWidgetMappings] visit them. *)
Definition page_streams (devicePage : JSValue) : list JSValue :=
  flat_map
    (fun widget =>
       flat_map (fun module => items (prop module "displayDataStreams"))
         (items (prop widget "modules")))
    (items (prop (prop devicePage "dashboard") "widgets")).

(** [widgetIdMap.get(deviceIdx)?.get(id)] and the same for names. *)
Definition stream_by_id (s : State) (deviceIdx : Z) (id : jsstring) : option JSValue :=
  match outer_get (widgetIdMap s) deviceIdx with
  | Some m => Map_get m (JStr id)
  | None => None
  end.

Definition stream_by_name (s : State) (deviceIdx : Z) (name : jsstring) : option JSValue :=
  match outer_get (widgetNameMap s) deviceIdx with
  | Some m => Map_get m (JStr name)
  | None => None
  end.

(** The key under which a stream goes into each map: [String(stream.id)]
    (no key when the conversion throws) and [stream.name]. *)
Definition has_id (id : jsstring) (stream : JSValue) : bool :=
  match String_of (prop stream "id") with
  | Normal key => jsstring_eqb key id
  | Throw _ => false
  end.

Definition has_name (name : jsstring) (stream : JSValue) : bool :=
  key_eqb (prop stream "name") (JStr name).

(** The last item of a list that satisfies a test. *)
Definition last_with (p : JSValue -> bool) (l : list JSValue) : option JSValue :=
  find p (rev l).

(** The two [set] calls of the innermost loop body, for a stream whose id
    converts. *)
Definition register (deviceIdx : Z) (stream : JSValue) (s : State) : State :=
  match String_of (prop stream "id") with
  | Normal key =>
      set_widgetNameMap
        (inner_set (widgetNameMap s) deviceIdx (prop stream "name") stream)
        (set_widgetIdMap (inner_set (widgetIdMap s) deviceIdx (JStr key) stream) s)
  | Throw _ => s
  end.

(** Both maps have an inner map for the device. *)
Definition has_maps (deviceIdx : Z) (s : State) : Prop :=
  outer_get (widgetIdMap s) deviceIdx <> None
  /\ outer_get (widgetNameMap s) deviceIdx <> None.

(** ** The logger (utils/logger.ts) *)

Module Logging.

Inductive LogLevel : Type :=
| DEBUG
| INFO
| WARN
| ERROR.

(** The number of an enum member, and the reverse mapping [LogLevel[level]]. *)
Definition value (l : LogLevel) : Z :=
  match l with
  | DEBUG => 0
  | INFO => 1
  | WARN => 2
  | ERROR => 3
  end.

Definition levelName (l : LogLevel) : jsstring :=
  match l with
  | DEBUG => js "DEBUG"
  | INFO => js "INFO"
  | WARN => js "WARN"
  | ERROR => js "ERROR"
  end.

Record Logger : Type := { level : LogLevel; name : jsstring }.

(** [new Logger(name, level)]; the level defaults to [INFO]. *)
Definition new_Logger (name : jsstring) (level : option LogLevel) : Logger :=
  {| level := match level with Some l => l | None => INFO end; name := name |}.

Inductive ConsoleMethod : Type :=
| console_debug
| console_info
| console_warn
| console_error.

(** One call of a console method: the method, the formatted message and the
    further arguments. *)
Record ConsoleCall : Type := {
  method : ConsoleMethod;
  text : jsstring;
  args : list JSValue
}.

(** What the logger acts on: the console calls made so far and the number of
    times the clock has been read. *)
Record World : Type := { console : list ConsoleCall; reads : nat }.

Section Clock.

(** [new Date().toTimeString()] at the [n]-th reading of the clock. *)
Variable toTimeString : nat -> jsstring.

Definition formatTime (w : World) : jsstring * World :=
  (hd [] (String_split 32 (toTimeString (reads w))),
   {| console := console w; reads := S (reads w) |}).

Definition log (lg : Logger) (lvl : LogLevel) (message : jsstring) (rest : list JSValue)
    (w : World) : World :=
  if (value lvl <? value (level lg))%Z then w
  else
    let '(timestamp, w1) := formatTime w in
    let formattedMessage :=
      timestamp ++ js " - " ++ name lg ++ js " - " ++ levelName lvl ++ js " - " ++ message in
    let call m := {| method := m; text := formattedMessage; args := rest |} in
    match lvl with
    | DEBUG => {| console := console w1 ++ [call console_debug]; reads := reads w1 |}
    | INFO => {| console := console w1 ++ [call console_info]; reads := reads w1 |}
    | WARN => {| console := console w1 ++ [call console_warn]; reads := reads w1 |}
    | ERROR => {| console := console w1 ++ [call console_error]; reads := reads w1 |}
    end.

Definition debug (lg : Logger) := log lg DEBUG.
Definition info (lg : Logger) := log lg INFO.
Definition warn (lg : Logger) := log lg WARN.
Definition error (lg : Logger) := log lg ERROR.

End Clock.

Definition setLevel (l : LogLevel) (lg : Logger) : Logger :=
  {| level := l; name := name lg |}.

(** The default instance. *)
Definition logger : Logger := new_Logger (js "evipy") (Some DEBUG).

End Logging.

(** *** Vocabulary for the logger *)

(** A use of one of the four public logging methods. *)
Definition LogCall : Type := (Logging.LogLevel * jsstring * list JSValue)%type.

Definition call_level (c : LogCall) : Logging.LogLevel := fst (fst c).

Definition perform (toTimeString : nat -> jsstring) (lg : Logging.Logger) (c : LogCall)
    (w : Logging.World) : Logging.World :=
  let '(lvl, message, rest) := c in
  match lvl with
  | Logging.DEBUG => Logging.debug toTimeString lg message rest w
  | Logging.INFO => Logging.info toTimeString lg message rest w
  | Logging.WARN => Logging.warn toTimeString lg message rest w
  | Logging.ERROR => Logging.error toTimeString lg message rest w
  end.

(** The calls in order. *)
Definition perform_all (toTimeString : nat -> jsstring) (lg : Logging.Logger)
    (calls : list LogCall) (w : Logging.World) : Logging.World :=
  fold_left (fun w c => perform toTimeString lg c w) calls w.

(** A call passes when its level is not below the level of the logger. *)
Definition passes (lg : Logging.Logger) (c : LogCall) : bool :=
  (Logging.value (Logging.level lg) <=? Logging.value (call_level c))%Z.

Definition method_of (l : Logging.LogLevel) : Logging.ConsoleMethod :=
  match l with
  | Logging.DEBUG => Logging.console_debug
  | Logging.INFO => Logging.console_info
  | Logging.WARN => Logging.console_warn
  | Logging.ERROR => Logging.console_error
  end.

(** The console call that a passing call gives when it reads the clock for
    the [n]-th time. *)
Definition written (toTimeString : nat -> jsstring) (lg : Logging.Logger)
    (n : nat) (c : LogCall) : Logging.ConsoleCall :=
  let '(lvl, message, rest) := c in
  {| Logging.method := method_of lvl;
     Logging.text :=
       hd [] (String_split 32 (toTimeString n)) ++ js " - " ++ Logging.name lg
         ++ js " - " ++ Logging.levelName lvl ++ js " - " ++ message;
     Logging.args := rest |}.

(** *** Values that survive JSON *)

(** An integer that binary64 holds exactly. *)
Definition safe_integer (m : Z) : bool := (Z.abs m <=? 9007199254740991)%Z.

(** A property name of ASCII characters that is not an array index (the
    engine lists those first, whatever the order they were written in). *)
Definition plain_key (k : jsstring) : bool :=
  forallb Hash.is_ascii k
  && match k with
     | c :: _ => negb (is_digit c)
     | [] => true
     end.

Fixpoint distinct (ks : list jsstring) : bool :=
  match ks with
  | [] => true
  | k :: r => negb (existsb (jsstring_eqb k) r) && distinct r
  end.

(** The values that [JSON.stringify] writes in full and without rounding:
    null, booleans, safe integers, ASCII strings, and the arrays and objects
    made of them; an object has distinct plain keys. *)
Fixpoint plain (v : JSValue) : bool :=
  match v with
  | JUndefined => false
  | JNull => true
  | JBool _ => true
  | JNum m e => (e =? 0)%Z && safe_integer m
  | JStr s => forallb Hash.is_ascii s
  | JArr l => forallb plain l
  | JObj fs =>
      forallb (fun kv => let '(k, x) := kv in plain_key k && plain x) fs
      && distinct (map fst fs)
  end.

(** The tokens of the text that [JSON.stringify] writes for a plain value. *)
Fixpoint token_join (l : list (list token)) : list token :=
  match l with
  | [] => []
  | [x] => x
  | x :: r => x ++ TComma :: token_join r
  end.

Fixpoint tokens (v : JSValue) : list token :=
  match v with
  | JUndefined => [TAtom JNull]
  | JNull => [TAtom JNull]
  | JBool b => [TAtom (JBool b)]
  | JNum m e => [TAtom (JNum m e)]
  | JStr s => [TStr s]
  | JArr l => TLBrack :: token_join (map tokens l) ++ [TRBrack]
  | JObj fs =>
      TLBrace
        :: token_join (map (fun kv => let '(k, x) := kv in TStr k :: TColon :: tokens x) fs)
        ++ [TRBrace]
  end.

(** What may follow a value inside a JSON text: nothing, or a comma or a
    closing bracket or brace. *)
Definition delimited (rest : jsstring) : Prop :=
  match rest with
  | [] => True
  | c :: _ => c = 44%N \/ c = 93%N \/ c = 125%N
  end.

(** The text of a value, followed by a delimiter, gives the tokens of the
    value and then the tokens of what follows. *)
Definition lexes (text : jsstring) (tk : list token) : Prop :=
  forall rest ts f0,
    delimited rest -> lex f0 rest = Some ts ->
    lex (length text + f0) (text ++ rest) = Some (tk ++ ts).

(** With fuel for its tokens, the parser reads the value and leaves what
    follows. *)
Definition parses (v : JSValue) : Prop :=
  forall f rest,
    (length (tokens v) <= f)%nat -> parse_value f (tokens v ++ rest) = Some (v, rest).

(** *** A cooperative server *)

(** A value whose properties can be read, and a value that [for ... of]
    accepts. *)
Definition readable (v : JSValue) : bool :=
  match v with
  | JUndefined | JNull => false
  | _ => true
  end.

Definition iterable (v : JSValue) : bool :=
  match iterate v with
  | Normal _ => true
  | Throw _ => false
  end.

(** A device page on which every access and conversion of
    [extractWidgetMappings] succeeds. *)
Definition page_ok (devicePage : JSValue) : bool :=
  readable devicePage
  && readable (prop devicePage "dashboard")
  && iterable (prop (prop devicePage "dashboard") "widgets")
  && forallb
       (fun widget =>
          readable widget
          && iterable (prop widget "modules")
          && forallb
               (fun module =>
                  readable module
                  && iterable (prop module "displayDataStreams")
                  && forallb (fun stream => readable stream && converts (prop stream "id"))
                       (items (prop module "displayDataStreams")))
               (items (prop widget "modules")))
       (items (prop (prop devicePage "dashboard") "widgets")).

(** The session after [run] on a fresh session with credentials. *)
Definition after_run (unicode_lower : jsstring -> jsstring) (n : nat) (justScan : bool)
    (u p : jsstring) (arrivals : list Arrival) (clock : list Z) : State :=
  snd (run unicode_lower n justScan (new_session (Some u) (Some p) arrivals clock Opens)).

(** The answers of a cooperative server to the five requests, followed by
    three telemetry pushes. *)
Definition cooperative_answers : list Arrival :=
  handshake_answers (Frame (createBinaryMessage (str "ok") 0 73 1 1))
    ++ [Frame telemetry_frame; Frame telemetry_frame; Frame telemetry_frame].

(** * Properties *)

(** ** Bytes and hex *)

Lemma byte_of_N_to_N (n : N) : (n < 256)%N -> Byte.to_N (Encoding.byte_of_N n) = n.
Proof.
  intros Hn. unfold Encoding.byte_of_N.
  rewrite N.mod_small by exact Hn.
  destruct (Byte.of_N n) as [b|] eqn:E.
  - now apply Byte.to_of_N.
  - apply Byte.of_N_None_iff in E. lia.
Qed.

Lemma byte_of_N_of_to_N (b : byte) : Encoding.byte_of_N (Byte.to_N b) = b.
Proof.
  unfold Encoding.byte_of_N.
  rewrite N.mod_small by (pose proof (Byte.to_N_bounded b); lia).
  now rewrite Byte.of_to_N.
Qed.

Lemma byte_of_number_value (z : Z) :
  Z.of_N (Byte.to_N (byte_of_number z)) = (z mod 256)%Z.
Proof.
  unfold byte_of_number.
  pose proof (Z.mod_pos_bound z 256 ltac:(lia)) as Hb.
  rewrite byte_of_N_to_N by lia.
  apply Z2N.id. lia.
Qed.

Lemma unhex_hex_digit (n : N) : (n < 16)%N -> unhex_digit (hex_digit n) = Some n.
Proof.
  intros Hn. unfold unhex_digit, hex_digit.
  destruct (n <? 10)%N eqn:E.
  - apply N.ltb_lt in E.
    replace ((48 <=? 48 + n)%N && (48 + n <=? 57)%N) with true.
    + f_equal. lia.
    + symmetry. apply andb_true_iff. split; apply N.leb_le; lia.
  - apply N.ltb_ge in E.
    replace ((48 <=? 87 + n)%N && (87 + n <=? 57)%N) with false.
    + replace ((97 <=? 87 + n)%N && (87 + n <=? 102)%N) with true.
      * f_equal. lia.
      * symmetry. apply andb_true_iff. split; apply N.leb_le; lia.
    + symmetry. apply andb_false_iff. right. apply N.leb_gt. lia.
Qed.

(** The bytes of a buffer are recovered from its hex rendering. *)
Lemma Buffer_from_hex_toString_hex (bs : Buffer) :
  Buffer_from_hex (toString_hex bs) = Some bs.
Proof.
  induction bs as [|b r IH]; [reflexivity|].
  unfold toString_hex in *. cbn [flat_map hex_of_byte app Buffer_from_hex].
  pose proof (Byte.to_N_bounded b) as Hb.
  assert (Hq : (Byte.to_N b / 16 < 16)%N)
    by (apply N.Div0.div_lt_upper_bound; lia).
  assert (Hr : (Byte.to_N b mod 16 < 16)%N) by (apply N.mod_lt; lia).
  rewrite (unhex_hex_digit Hq), (unhex_hex_digit Hr), IH.
  f_equal. f_equal.
  rewrite <- (byte_of_N_of_to_N b) at 3. f_equal.
  rewrite (N.div_mod (Byte.to_N b) 16) at 3 by lia. reflexivity.
Qed.

(** ** The frame decoder *)

(** C5. Decoding a buffer of fewer than four bytes gives a null header and a
    null payload; [parseBinaryMessage] is a total function, it has no way to
    throw. *)
Theorem parseBinaryMessage_short (data : Buffer) :
  (length data < 4)%nat ->
  parseBinaryMessage data = {| header := None; payload := JNull |}.
Proof.
  intros H. unfold parseBinaryMessage.
  apply Nat.ltb_lt in H. now rewrite H.
Qed.

Lemma parseBinaryMessage_short_witness :
  parseBinaryMessage [x01; x02] = {| header := None; payload := JNull |}.
Proof.
  apply (@parseBinaryMessage_short [x01; x02]). simpl. lia.
Defined.

(** ** Telemetry payloads *)

Lemma String_split_length (sep : N) (s : jsstring) :
  length (String_split sep s) = S (count_occ N.eq_dec s sep).
Proof.
  induction s as [|c r IH]; [reflexivity|].
  cbn [String_split count_occ].
  destruct (N.eqb_spec c sep) as [->|Hne].
  - destruct (N.eq_dec sep sep) as [_|F]; [|contradiction].
    cbn [length]. now rewrite IH.
  - destruct (N.eq_dec c sep) as [F|_]; [contradiction|].
    destruct (String_split sep r) as [|p ps] eqn:E; cbn [length] in *; lia.
Qed.

(** The number of segments is one more than the number of null bytes. *)
Lemma segments_length (p : Buffer) :
  length (segments p) = S (count_occ N.eq_dec (toString_latin1 p) 0%N).
Proof. apply String_split_length. Qed.

(** C6. A telemetry payload with fewer than two null-delimited segments gives
    the error-shaped result: an [error] message and, under [rawHex], the hex
    rendering from which the payload bytes are recovered.
    [parseWidgetUpdate] is total: there is no exception. *)
Theorem parseWidgetUpdate_malformed (payloadData : Buffer) :
  (length (segments payloadData) < 2)%nat ->
  parseWidgetUpdate payloadData =
    JObj [ (js "error", JStr (js "Insufficient null terminators"));
           (js "rawHex", JStr (toString_hex payloadData)) ]
  /\ Buffer_from_hex (toString_hex payloadData) = Some payloadData.
Proof.
  intros H. split.
  - unfold parseWidgetUpdate. fold (segments payloadData).
    apply Nat.ltb_lt in H. now rewrite H.
  - apply Buffer_from_hex_toString_hex.
Qed.

Lemma parseWidgetUpdate_malformed_witness :
  parseWidgetUpdate (bytes "invalid") =
    JObj [ (js "error", JStr (js "Insufficient null terminators"));
           (js "rawHex", JStr (js "696e76616c6964")) ]
  /\ Buffer_from_hex (js "696e76616c6964") = Some (bytes "invalid").
Proof.
  apply (@parseWidgetUpdate_malformed (bytes "invalid")). vm_compute. lia.
Defined.

(** C10, as stated, fails: with three segments [widgetId] is the third
    segment, not the empty string. *)
Lemma parseWidgetUpdate_three_segments_widgetId :
  ~ (forall payloadData : Buffer,
        (length (segments payloadData) = 2 \/ length (segments payloadData) = 3)%nat ->
        member (parseWidgetUpdate payloadData) "deviceId"
          = JStr (nth 0 (segments payloadData) [])
        /\ member (parseWidgetUpdate payloadData) "widgetId" = JStr []
        /\ member (parseWidgetUpdate payloadData) "widgetValue" = JStr []).
Proof.
  intros H.
  specialize (H (bytes "89349" ++ [x00] ++ bytes "vw" ++ [x00] ++ bytes "5")).
  destruct H as (_ & H & _); [right; reflexivity|].
  vm_compute in H. discriminate H.
Qed.

(** C10, amended. With exactly two or three segments the result is
    success-shaped: [deviceId] is the first segment, [widgetValue] is empty,
    and [widgetId] is empty for two segments and the third segment for three.
    The [error] field is present exactly when there are fewer than two
    segments. *)
Theorem parseWidgetUpdate_partial (payloadData : Buffer) :
  ((length (segments payloadData) = 2 \/ length (segments payloadData) = 3)%nat ->
   parseWidgetUpdate payloadData =
     JObj [ (js "widgetId",
             JStr (if (length (segments payloadData) =? 3)%nat
                   then nth 2 (segments payloadData) [] else []));
            (js "deviceId", JStr (nth 0 (segments payloadData) []));
            (js "widgetValue", JStr []) ])
  /\ (has_member (parseWidgetUpdate payloadData) "error" = true
      <-> (length (segments payloadData) < 2)%nat).
Proof.
  unfold parseWidgetUpdate. fold (segments payloadData).
  split.
  - intros [H|H]; rewrite H; reflexivity.
  - destruct (Nat.ltb_spec (length (segments payloadData)) 2) as [Hlt|Hge].
    + split; [intros _; exact Hlt | intros _; reflexivity].
    + split; [intros F; vm_compute in F; discriminate F | intros F; lia].
Qed.

Lemma parseWidgetUpdate_partial_witness :
  parseWidgetUpdate (bytes "89349" ++ [x00] ++ bytes "vw" ++ [x00] ++ bytes "5") =
    JObj [ (js "widgetId", JStr (js "5"));
           (js "deviceId", JStr (js "89349"));
           (js "widgetValue", JStr []) ].
Proof.
  apply (proj1 (parseWidgetUpdate_partial
                  (bytes "89349" ++ [x00] ++ bytes "vw" ++ [x00] ++ bytes "5"))).
  right. reflexivity.
Defined.

(** ** Encoding and decoding of frames *)

Lemma createBinaryMessage_shape (p : JSValue) (b1 b2 b3 b4 : Z) :
  exists rest,
    createBinaryMessage p b1 b2 b3 b4 =
      byte_of_number b1 :: byte_of_number b2 :: byte_of_number b3
        :: byte_of_number b4 :: rest.
Proof.
  unfold createBinaryMessage, Buffer_from_array. cbn [map].
  destruct p; cbn [app]; eexists; reflexivity.
Qed.

Lemma parseBinaryMessage_header (d0 d1 d2 d3 : byte) (rest : Buffer) :
  exists h,
    header (parseBinaryMessage (d0 :: d1 :: d2 :: d3 :: rest)) = Some h
    /\ byte1 h = Z.of_N (Byte.to_N d0) /\ byte2 h = Z.of_N (Byte.to_N d1)
    /\ byte3 h = Z.of_N (Byte.to_N d2) /\ byte4 h = Z.of_N (Byte.to_N d3)
    /\ hasPayload h = negb (Nat.eqb (length rest) 0)
    /\ totalLength h = Z.of_nat (4 + length rest).
Proof.
  unfold parseBinaryMessage.
  cbn [length Nat.ltb Nat.leb].
  match goal with
  | |- context [let '(pl, ptype) := ?X in _] => destruct X as [pl ptype]
  end.
  eexists. split; [reflexivity|].
  cbn [byte1 byte2 byte3 byte4 hasPayload totalLength at_index nth].
  repeat split. now destruct rest.
Qed.

(** C4. For header bytes in range and any payload, decoding an encoded frame
    gives a header, and its four bytes are the ones encoded. *)
Theorem header_roundtrip (p : JSValue) (b1 b2 b3 b4 : Z) :
  (0 <= b1 < 256)%Z -> (0 <= b2 < 256)%Z -> (0 <= b3 < 256)%Z -> (0 <= b4 < 256)%Z ->
  exists h,
    header (parseBinaryMessage (createBinaryMessage p b1 b2 b3 b4)) = Some h
    /\ byte1 h = b1 /\ byte2 h = b2 /\ byte3 h = b3 /\ byte4 h = b4.
Proof.
  intros H1 H2 H3 H4.
  destruct (createBinaryMessage_shape p b1 b2 b3 b4) as [rest ->].
  destruct (parseBinaryMessage_header (byte_of_number b1) (byte_of_number b2)
              (byte_of_number b3) (byte_of_number b4) rest)
    as (h & Hh & E1 & E2 & E3 & E4 & _).
  exists h. rewrite !byte_of_number_value in *.
  rewrite Z.mod_small in E1, E2, E3, E4 by assumption.
  auto.
Qed.

Lemma header_roundtrip_witness :
  exists h,
    header (parseBinaryMessage
              (createBinaryMessage (JObj [(js "key", JStr (js "value"))]) 1 48 0 255))
      = Some h
    /\ byte1 h = 1%Z /\ byte2 h = 48%Z /\ byte3 h = 0%Z /\ byte4 h = 255%Z.
Proof.
  apply (@header_roundtrip (JObj [(js "key", JStr (js "value"))]) 1 48 0 255); lia.
Defined.

(** Outside the byte range the encoder reduces modulo 256. *)
Lemma encoded_header_modulo (p : JSValue) (b1 b2 b3 b4 : Z) :
  exists h,
    header (parseBinaryMessage (createBinaryMessage p b1 b2 b3 b4)) = Some h
    /\ byte1 h = (b1 mod 256)%Z /\ byte2 h = (b2 mod 256)%Z
    /\ byte3 h = (b3 mod 256)%Z /\ byte4 h = (b4 mod 256)%Z.
Proof.
  destruct (createBinaryMessage_shape p b1 b2 b3 b4) as [rest ->].
  destruct (parseBinaryMessage_header (byte_of_number b1) (byte_of_number b2)
              (byte_of_number b3) (byte_of_number b4) rest)
    as (h & Hh & E1 & E2 & E3 & E4 & _).
  exists h. rewrite !byte_of_number_value in *. auto.
Qed.

(** C9. An empty string is encoded as the four header bytes, the frame of a
    null payload; a four-byte frame decodes to [hasPayload = false] and a null
    payload; so the empty string does not come back, and a decoded header has
    [hasPayload] exactly when the frame is longer than four bytes. *)
Theorem empty_string_payload (b1 b2 b3 b4 : Z) :
  createBinaryMessage (JStr []) b1 b2 b3 b4 = createBinaryMessage JNull b1 b2 b3 b4
  /\ length (createBinaryMessage (JStr []) b1 b2 b3 b4) = 4%nat
  /\ (forall d0 d1 d2 d3 : byte,
        payload (parseBinaryMessage [d0; d1; d2; d3]) = JNull
        /\ option_map hasPayload (header (parseBinaryMessage [d0; d1; d2; d3]))
           = Some false)
  /\ payload (parseBinaryMessage (createBinaryMessage (JStr []) b1 b2 b3 b4)) = JNull
  /\ payload (parseBinaryMessage (createBinaryMessage (JStr []) b1 b2 b3 b4)) <> JStr []
  /\ (forall data : Buffer,
        option_map hasPayload (header (parseBinaryMessage data))
        = if (length data <? 4)%nat then None else Some (4 <? length data)%nat).
Proof.
  assert (Hfour : forall d0 d1 d2 d3 : byte,
             payload (parseBinaryMessage [d0; d1; d2; d3]) = JNull
             /\ option_map hasPayload (header (parseBinaryMessage [d0; d1; d2; d3]))
                = Some false)
    by (intros; split; reflexivity).
  assert (Henc : createBinaryMessage (JStr []) b1 b2 b3 b4
                 = [byte_of_number b1; byte_of_number b2; byte_of_number b3;
                    byte_of_number b4]) by reflexivity.
  split; [reflexivity|]. split; [reflexivity|]. split; [exact Hfour|].
  rewrite Henc. split; [apply Hfour|]. split.
  - rewrite (proj1 (Hfour _ _ _ _)). discriminate.
  - intros data. unfold parseBinaryMessage.
    destruct (length data <? 4)%nat; [reflexivity|].
    match goal with
    | |- context [let '(pl, ptype) := ?X in _] => destruct X as [pl ptype]
    end.
    reflexivity.
Qed.

(** ** The credential hash *)

(** C7. [calculateHash] is the base64 rendering of
    SHA-256(utf8(password) ++ SHA-256(utf8(lowercase(email)))); the case of the
    email does not matter, the case of the password does. *)
Theorem calculateHash_spec (unicode_lower : jsstring -> jsstring)
    (email password : jsstring) :
  Hash.calculateHash unicode_lower email password =
    Hash.toString_base64
      (Hash.sha256
         (Buffer_from_utf8 password
            ++ Hash.sha256 (Buffer_from_utf8 (Hash.toLowerCase unicode_lower email))))
  /\ Hash.calculateHash unicode_lower (js "Test@Example.Com") (js "pw")
     = Hash.calculateHash unicode_lower (js "test@example.com") (js "pw")
  /\ Hash.calculateHash unicode_lower (js "test@example.com") (js "pw")
     = js "Qw2LS7qOa1uwYv7D7FBvJU1ETeEDxYFJE2XeHBPfx7Y="
  /\ Hash.calculateHash unicode_lower (js "test@example.com") (js "PW")
     <> Hash.calculateHash unicode_lower (js "test@example.com") (js "pw").
Proof.
  split; [|split; [|split]].
  - unfold Hash.calculateHash, Hash.digest, Hash.update_string, Hash.update_buffer,
      Hash.createHash_sha256, Hash.Buffer_concat.
    cbn [Hash.pending concat app]. now rewrite app_nil_r.
  - vm_compute. reflexivity.
  - vm_compute. reflexivity.
  - vm_compute. discriminate.
Qed.

(** The digest has 32 bytes, so the hash has 44 characters. *)
Lemma sha256_length (msg : Buffer) : length (Hash.sha256 msg) = 32%nat.
Proof. reflexivity. Qed.

Lemma b64_char_alphabet (n : N) : base64_unit (Hash.b64_char n) = true.
Proof.
  unfold Hash.b64_char, base64_unit.
  destruct (N.ltb_spec n 26); [|destruct (N.ltb_spec n 52); [|destruct (N.ltb_spec n 62);
    [|destruct (N.eqb_spec n 62)]]].
  - replace ((65 <=? 65 + n) && (65 + n <=? 90))%N with true; [reflexivity|].
    symmetry. apply andb_true_iff. split; apply N.leb_le; lia.
  - replace ((97 <=? 97 + (n - 26)) && (97 + (n - 26) <=? 122))%N with true;
      [now rewrite orb_true_r|].
    symmetry. apply andb_true_iff. split; apply N.leb_le; lia.
  - replace ((48 <=? 48 + (n - 52)) && (48 + (n - 52) <=? 57))%N with true;
      [now rewrite !orb_true_r|].
    symmetry. apply andb_true_iff. split; apply N.leb_le; lia.
  - reflexivity.
  - reflexivity.
Qed.

(** X15. Whatever the e-mail address and the password, the hash is 44
    characters of the standard base64 alphabet, the last one the padding
    character. *)
Lemma calculateHash_shape (unicode_lower : jsstring -> jsstring)
    (email password : jsstring) :
  length (Hash.calculateHash unicode_lower email password) = 44%nat
  /\ nth 43 (Hash.calculateHash unicode_lower email password) 0%N = 61%N
  /\ forallb base64_unit (Hash.calculateHash unicode_lower email password) = true.
Proof.
  split; [reflexivity|]. split; [reflexivity|].
  unfold Hash.calculateHash.
  set (h := Hash.digest _).
  assert (Hlen : length h = 32%nat) by reflexivity.
  clearbody h.
  do 32 (destruct h as [|? h]; [discriminate Hlen|]).
  destruct h; [|discriminate Hlen].
  clear Hlen.
  cbn [Hash.toString_base64 forallb app].
  rewrite !b64_char_alphabet. reflexivity.
Qed.

(** ** The printability classifier *)

Lemma printable_byte_ascii (b : byte) :
  printable_byte b = true -> N.land (Byte.to_N b) 127 = Byte.to_N b.
Proof. destruct b; intros H; try discriminate H; reflexivity. Qed.

Lemma printable_ascii (p : Buffer) :
  forallb printable_byte p = true ->
  toString_ascii p = toString_latin1 p /\ isPrintable (toString_ascii p) = true.
Proof.
  unfold toString_ascii, toString_latin1, isPrintable.
  induction p as [|b r IH]; [now split|].
  cbn [forallb map]. intros H. apply andb_true_iff in H as [Hb Hr].
  destruct (IH Hr) as [E1 E2].
  rewrite (printable_byte_ascii b Hb), E1. split; [reflexivity|].
  rewrite <- E1, E2. unfold printable_byte in Hb. now rewrite Hb.
Qed.

Lemma control_byte_ascii (b : byte) :
  control_byte b = true -> printable_code (N.land (Byte.to_N b) 127) = false.
Proof. destruct b; intros H; try discriminate H; reflexivity. Qed.

Lemma control_not_printable_ascii (p : Buffer) :
  existsb control_byte p = true -> isPrintable (toString_ascii p) = false.
Proof.
  unfold toString_ascii, isPrintable.
  induction p as [|b r IH]; [discriminate|].
  cbn [existsb map forallb]. intros H. apply orb_true_iff in H as [Hb|Hr].
  - now rewrite (control_byte_ascii b Hb).
  - rewrite (IH Hr). apply andb_false_r.
Qed.

(** The UTF-8 decoder hands every ASCII byte over unchanged, whatever
    precedes it. *)
Lemma utf8_lead_wf (b : N) : utf8_wf (fst (utf8_lead b)).
Proof.
  unfold utf8_lead, utf8_wf.
  repeat match goal with
         | |- context [if ?c then _ else _] => destruct c
         end; cbn; lia.
Qed.

Lemma utf8_step_wf (st : utf8_state) (b : N) : utf8_wf (fst (utf8_step st b)).
Proof.
  unfold utf8_step. destruct (u_needed st) as [|k]; [apply utf8_lead_wf|].
  destruct ((u_lower st <=? b)%N && (b <=? u_upper st)%N).
  - destruct k; cbn; unfold utf8_wf; cbn; lia.
  - pose proof (utf8_lead_wf b) as H. destruct (utf8_lead b). exact H.
Qed.

Lemma utf8_step_ascii (st : utf8_state) (b : N) :
  utf8_wf st -> (b < 128)%N -> In b (snd (utf8_step st b)).
Proof.
  intros Hwf Hb. unfold utf8_step.
  assert (Hlead : utf8_lead b = (utf8_init, [b])).
  { unfold utf8_lead. apply N.ltb_lt in Hb. now rewrite Hb. }
  destruct (u_needed st) as [|k]; [rewrite Hlead; now left|].
  replace ((u_lower st <=? b)%N && (b <=? u_upper st)%N) with false.
  - rewrite Hlead. right. now left.
  - symmetry. apply andb_false_iff. left. apply N.leb_gt.
    unfold utf8_wf in Hwf. lia.
Qed.

Lemma utf8_run_ascii (bs : Buffer) :
  forall (st : utf8_state) (b : byte),
    utf8_wf st -> In b bs -> (Byte.to_N b < 128)%N ->
    In (Byte.to_N b) (utf8_run st bs).
Proof.
  induction bs as [|a r IH]; intros st b Hwf Hin Hb; [contradiction|].
  cbn [utf8_run].
  pose proof (utf8_step_wf st (Byte.to_N a)) as Hwf'.
  destruct (utf8_step st (Byte.to_N a)) as [st' out] eqn:E.
  apply in_or_app. destruct Hin as [->|Hin].
  - left. pose proof (utf8_step_ascii Hwf Hb) as H. now rewrite E in H.
  - right. apply IH; assumption.
Qed.

Lemma toString_utf8_ascii (bs : Buffer) (b : byte) :
  In b bs -> (Byte.to_N b < 128)%N -> In (Byte.to_N b) (toString_utf8 bs).
Proof.
  apply utf8_run_ascii. unfold utf8_wf. cbn. lia.
Qed.

Lemma control_not_printable_utf8 (p : Buffer) :
  existsb control_byte p = true -> isPrintable (toString_utf8 p) = false.
Proof.
  intros H. apply existsb_exists in H as (b & Hin & Hb).
  unfold control_byte in Hb. apply N.leb_le in Hb.
  assert (Hu : In (Byte.to_N b) (toString_utf8 p))
    by (apply toString_utf8_ascii; [assumption | lia]).
  unfold isPrintable.
  destruct (forallb printable_code (toString_utf8 p)) eqn:E; [|reflexivity].
  rewrite forallb_forall in E. specialize (E _ Hu).
  unfold printable_code in E.
  repeat (apply orb_true_iff in E as [E|E]).
  - apply andb_true_iff in E as [E _]. apply N.leb_le in E. lia.
  - apply N.eqb_eq in E. lia.
  - apply N.eqb_eq in E. lia.
  - apply N.eqb_eq in E. lia.
Qed.

(** [JSON.parse] accepts no text that holds one of U+0000..U+0008: the
    tokeniser reads every code unit and accepts none of them. *)
Lemma is_digit_ok (c : N) : is_digit c = true -> json_ok c.
Proof.
  unfold is_digit, json_ok. intros H. apply andb_true_iff in H as [H _].
  apply N.leb_le in H. lia.
Qed.

Lemma eqb_ok (c k : N) : (c =? k)%N = true -> (8 < k)%N -> json_ok c.
Proof. intros H Hk. apply N.eqb_eq in H. subst. exact Hk. Qed.

Lemma span_digits_rest (s : jsstring) :
  forall d t, span_digits s = (d, t) -> Forall json_ok t -> Forall json_ok s.
Proof.
  induction s as [|c r IH]; intros d t E Ht.
  - cbn in E. inversion E; subst. constructor.
  - cbn [span_digits] in E. destruct (is_digit c) eqn:Hd.
    + destruct (span_digits r) as [d' t'] eqn:E'. inversion E; subst.
      constructor; [now apply is_digit_ok | now apply (IH d' t)].
    + inversion E; subst. exact Ht.
Qed.

Lemma scan_minus_rest (s : jsstring) (b : bool) (t : jsstring) :
  scan_minus s = (b, t) -> Forall json_ok t -> Forall json_ok s.
Proof.
  unfold scan_minus. destruct s as [|c r]; [intros E; inversion E; auto|].
  destruct (c =? 45)%N eqn:Hc; intros E Ht; inversion E; subst; auto.
  constructor; [apply (eqb_ok _ Hc); lia | assumption].
Qed.

Lemma scan_exp_sign_rest (s : jsstring) (b : bool) (t : jsstring) :
  scan_exp_sign s = (b, t) -> Forall json_ok t -> Forall json_ok s.
Proof.
  unfold scan_exp_sign. destruct s as [|c r]; [intros E; inversion E; auto|].
  destruct (c =? 45)%N eqn:Hc; [|destruct (c =? 43)%N eqn:Hp];
    intros E Ht; inversion E; subst; auto.
  - constructor; [apply (eqb_ok _ Hc); lia | assumption].
  - constructor; [apply (eqb_ok _ Hp); lia | assumption].
Qed.

Lemma scan_fraction_rest (s f t : jsstring) :
  scan_fraction s = Some (f, t) -> Forall json_ok t -> Forall json_ok s.
Proof.
  unfold scan_fraction. destruct s as [|c r]; [intros E; inversion E; auto|].
  destruct (c =? 46)%N eqn:Hc.
  - destruct (span_digits r) as [f' t'] eqn:E'.
    destruct f'; intros E Ht; inversion E; subst.
    constructor; [apply (eqb_ok _ Hc); lia | now apply (span_digits_rest _ E')].
  - intros E Ht; inversion E; subst; auto.
Qed.

Lemma scan_exponent_rest (s : jsstring) (x : Z) (t : jsstring) :
  scan_exponent s = Some (x, t) -> Forall json_ok t -> Forall json_ok s.
Proof.
  unfold scan_exponent. destruct s as [|c r]; [intros E; inversion E; auto|].
  destruct ((c =? 101)%N || (c =? 69)%N) eqn:Hc.
  - destruct (scan_exp_sign r) as [eneg r1] eqn:Es.
    destruct (span_digits r1) as [ed t'] eqn:Ed.
    destruct ed; intros E Ht; inversion E; subst.
    constructor.
    + apply orb_true_iff in Hc as [Hc|Hc]; apply (eqb_ok _ Hc); lia.
    + apply (scan_exp_sign_rest _ Es). now apply (span_digits_rest _ Ed).
  - intros E Ht; inversion E; subst; auto.
Qed.

Lemma scan_number_rest (s : jsstring) (v : JSValue) (t : jsstring) :
  scan_number s = Some (v, t) -> Forall json_ok t -> Forall json_ok s.
Proof.
  unfold scan_number.
  destruct (scan_minus s) as [neg s1] eqn:Em.
  destruct (span_digits s1) as [ip s2] eqn:Ei.
  destruct ip as [|d0 more]; [discriminate|].
  destruct ((d0 =? 48)%N && negb (Nat.eqb (length more) 0)); [discriminate|].
  destruct (scan_fraction s2) as [[fp s3]|] eqn:Ef; [|discriminate].
  destruct (scan_exponent s3) as [[ex s4]|] eqn:Ee; [|discriminate].
  intros E Ht. inversion E; subst.
  apply (scan_minus_rest _ Em), (span_digits_rest _ Ei),
    (scan_fraction_rest _ Ef), (scan_exponent_rest _ Ee), Ht.
Qed.

Lemma unescape_ok (x u : N) : unescape x = Some u -> json_ok x.
Proof.
  unfold unescape.
  repeat match goal with
         | |- context [if (x =? ?k)%N then _ else _] =>
             let H := fresh in
             destruct (x =? k)%N eqn:H; [intros _; apply (eqb_ok _ H); lia|]
         end.
  discriminate.
Qed.

Lemma hex_value_ok (c v : N) : hex_value c = Some v -> json_ok c.
Proof.
  unfold hex_value. destruct (is_digit c) eqn:Hd; [intros _; now apply is_digit_ok|].
  destruct ((97 <=? c)%N && (c <=? 102)%N) eqn:H1.
  - intros _. apply andb_true_iff in H1 as [H1 _]. apply N.leb_le in H1.
    unfold json_ok. lia.
  - destruct ((65 <=? c)%N && (c <=? 70)%N) eqn:H2; [|discriminate].
    intros _. apply andb_true_iff in H2 as [H2 _]. apply N.leb_le in H2.
    unfold json_ok. lia.
Qed.

Lemma scan_string_rest (n : nat) :
  forall (s acc str t : jsstring),
    (length s <= n)%nat ->
    scan_string s acc = Some (str, t) -> Forall json_ok t -> Forall json_ok s.
Proof.
  induction n as [|n IH]; intros s acc str t Hlen E Ht.
  - destruct s; [discriminate E | cbn in Hlen; lia].
  - destruct s as [|c r]; [discriminate E|].
    cbn [scan_string] in E. cbn [length] in Hlen.
    destruct (c =? 34)%N eqn:Hq.
    { inversion E; subst. constructor; [apply (eqb_ok _ Hq); lia | assumption]. }
    destruct (c =? 92)%N eqn:Hb.
    { assert (Hc : json_ok c) by (apply (eqb_ok _ Hb); lia).
      destruct r as [|x r']; [discriminate E|]. cbn [length] in Hlen.
      destruct (x =? 117)%N eqn:Hu.
      - assert (Hx : json_ok x) by (apply (eqb_ok _ Hu); lia).
        destruct r' as [|h1 [|h2 [|h3 [|h4 r'']]]]; try discriminate E.
        cbn [length] in Hlen.
        destruct (hex_value h1) eqn:E1; [|discriminate E].
        destruct (hex_value h2) eqn:E2; [|discriminate E].
        destruct (hex_value h3) eqn:E3; [|discriminate E].
        destruct (hex_value h4) eqn:E4; [|discriminate E].
        repeat constructor; eauto using hex_value_ok.
        eapply (IH r''); [|exact E|exact Ht]; lia.
      - destruct (unescape x) eqn:Ex; [|discriminate E].
        repeat constructor; eauto using unescape_ok.
        eapply (IH r'); [|exact E|exact Ht]; lia. }
    destruct (c <? 32)%N eqn:Hlow; [discriminate E|].
    constructor.
    + apply N.ltb_ge in Hlow. unfold json_ok. lia.
    + eapply (IH r); [|exact E|exact Ht]; lia.
Qed.

Lemma starts_with_ok (p s : jsstring) :
  starts_with p s = true -> Forall json_ok p ->
  Forall json_ok (skipn (length p) s) -> Forall json_ok s.
Proof.
  revert s. induction p as [|a p IH]; intros s H Hp Hs; [exact Hs|].
  destruct s as [|b s]; [discriminate H|].
  cbn [starts_with] in H. apply andb_true_iff in H as [Hab H].
  apply N.eqb_eq in Hab. subst b. inversion Hp; subst.
  constructor; [assumption|]. now apply IH.
Qed.

Lemma push_some (tk : token) (r : option (list token)) (ts : list token) :
  push tk r = Some ts -> exists ts', r = Some ts'.
Proof. destruct r; [eauto | discriminate]. Qed.

Lemma lex_ok (fuel : nat) :
  forall (s : jsstring) (ts : list token), lex fuel s = Some ts -> Forall json_ok s.
Proof.
  induction fuel as [|f IH]; intros s ts E.
  - destruct s; [constructor | discriminate E].
  - destruct s as [|c r]; [constructor|].
    cbn [lex] in E.
    destruct (is_ws c) eqn:Hws.
    { constructor; [|eauto].
      unfold is_ws in Hws.
      repeat (apply orb_true_iff in Hws as [Hws|Hws]); apply (eqb_ok _ Hws); lia. }
    repeat match type of E with
           | (if (c =? ?k)%N then push ?tk _ else _) = _ =>
               let H := fresh in
               destruct (c =? k)%N eqn:H;
               [apply push_some in E as [ts' E];
                constructor; [apply (eqb_ok _ H); lia | eauto] |]
           end.
    destruct (c =? 34)%N eqn:Hq.
    { destruct (scan_string r []) as [[str t]|] eqn:Es; [|discriminate E].
      apply push_some in E as [ts' E].
      constructor; [apply (eqb_ok _ Hq); lia|].
      apply (@scan_string_rest (length r) r [] str t); eauto. }
    destruct ((c =? 45)%N || is_digit c) eqn:Hn.
    { destruct (scan_number (c :: r)) as [[v t]|] eqn:Es; [|discriminate E].
      apply push_some in E as [ts' E].
      apply (scan_number_rest _ Es). eauto. }
    destruct (starts_with (js "true") (c :: r)) eqn:Ht.
    { apply push_some in E as [ts' E].
      apply (starts_with_ok _ Ht); [|eauto].
      repeat constructor; unfold json_ok; lia. }
    destruct (starts_with (js "false") (c :: r)) eqn:Hf.
    { apply push_some in E as [ts' E].
      apply (starts_with_ok _ Hf); [|eauto].
      repeat constructor; unfold json_ok; lia. }
    destruct (starts_with (js "null") (c :: r)) eqn:Hnull; [|discriminate E].
    apply push_some in E as [ts' E].
    apply (starts_with_ok _ Hnull); [|eauto].
    repeat constructor; unfold json_ok; lia.
Qed.

Lemma JSON_parse_control (text : jsstring) (c : N) :
  In c text -> (c <= 8)%N -> JSON_parse text = None.
Proof.
  intros Hin Hc. unfold JSON_parse.
  destruct (lex (length text) text) as [ts|] eqn:E; [|reflexivity].
  apply lex_ok in E. rewrite Forall_forall in E. specialize (E c Hin).
  unfold json_ok in E. lia.
Qed.

(** C3, as stated, fails: a frame whose second header byte is 0x14 is a
    widget update even when all its payload bytes are printable. *)
Lemma printable_widget_update_not_text :
  ~ (forall data : Buffer,
        (4 < length data)%nat ->
        (forallb printable_byte (skipn 4 data) = true ->
         is_text (parseBinaryMessage data))
        /\ (existsb control_byte (skipn 4 data) = true ->
            classified_as (parseBinaryMessage data) "binary")).
Proof.
  intros H.
  destruct (H ([x00; x14; x00; x00] ++ bytes "abc")) as [Htext _];
    [vm_compute; lia|].
  destruct (Htext eq_refl) as [F|F]; vm_compute in F; discriminate F.
Qed.

(** A printable payload that is a JSON text is classified as JSON, not as
    text, whatever the header. *)
Example printable_json_not_text :
  classified_as (parseBinaryMessage ([x01; x02; x03; x04] ++ bytes "{}")) "json"
  /\ forallb printable_byte (bytes "{}") = true.
Proof. split; reflexivity. Qed.

Lemma classify_printable (p : Buffer) :
  forallb printable_byte p = true ->
  (exists v, JSON_parse (toString_utf8 p) = Some v /\ classify p = (v, js "json"))
  \/ (JSON_parse (toString_utf8 p) = None
      /\ classify p = (JStr (toString_latin1 p), js "ascii")).
Proof.
  intros H. unfold classify.
  destruct (JSON_parse (toString_utf8 p)) as [v|]; [left; eauto|].
  right. split; [reflexivity|].
  destruct (printable_ascii p H) as [E1 E2]. now rewrite E2, E1.
Qed.

Lemma classify_control (p : Buffer) :
  existsb control_byte p = true ->
  classify p = (binary_descriptor p, js "binary").
Proof.
  intros H. unfold classify.
  replace (JSON_parse (toString_utf8 p)) with (@None JSValue).
  - now rewrite (control_not_printable_ascii p H), (control_not_printable_utf8 p H).
  - symmetry. apply existsb_exists in H as (b & Hin & Hb).
    unfold control_byte in Hb. apply N.leb_le in Hb.
    apply (@JSON_parse_control _ (Byte.to_N b)); [|exact Hb].
    apply toString_utf8_ascii; [exact Hin | lia].
Qed.

Lemma parseBinaryMessage_payload (data : Buffer) :
  (4 < length data)%nat ->
  (at_index data 1 = 20%Z ->
   classified_as (parseBinaryMessage data) "widget_update"
   /\ payload (parseBinaryMessage data) = parseWidgetUpdate (skipn 4 data))
  /\ (at_index data 1 <> 20%Z ->
      option_map payloadType (header (parseBinaryMessage data))
        = Some (Some (snd (classify (skipn 4 data))))
      /\ payload (parseBinaryMessage data) = fst (classify (skipn 4 data))).
Proof.
  intros Hlen. unfold parseBinaryMessage, classified_as.
  assert (H4 : (length data <? 4)%nat = false) by (apply Nat.ltb_ge; lia).
  assert (H5 : (4 <? length data)%nat = true) by (apply Nat.ltb_lt; lia).
  rewrite H4, H5. split; intros Hb.
  - rewrite Hb. cbn. split; reflexivity.
  - apply Z.eqb_neq in Hb. rewrite Hb.
    destruct (classify (skipn 4 data)) as [v t]. cbn. split; reflexivity.
Qed.

(** C3, amended. For a frame with a payload whose second header byte is not
    0x14: if every payload byte is printable, the payload is classified as
    JSON when it is a JSON text and as ASCII text otherwise, never as binary;
    if a payload byte is in 0x00..0x08, it is classified as binary.  A frame
    whose second header byte is 0x14 is a widget update whatever its bytes. *)
Theorem printability_classifier (data : Buffer) :
  (4 < length data)%nat ->
  (at_index data 1 = 20%Z -> classified_as (parseBinaryMessage data) "widget_update")
  /\ (at_index data 1 <> 20%Z ->
      forallb printable_byte (skipn 4 data) = true ->
      ~ classified_as (parseBinaryMessage data) "binary"
      /\ ((classified_as (parseBinaryMessage data) "json"
           /\ JSON_parse (toString_utf8 (skipn 4 data))
              = Some (payload (parseBinaryMessage data)))
          \/ (classified_as (parseBinaryMessage data) "ascii"
              /\ JSON_parse (toString_utf8 (skipn 4 data)) = None
              /\ payload (parseBinaryMessage data)
                 = JStr (toString_latin1 (skipn 4 data)))))
  /\ (at_index data 1 <> 20%Z ->
      existsb control_byte (skipn 4 data) = true ->
      classified_as (parseBinaryMessage data) "binary"
      /\ payload (parseBinaryMessage data) = binary_descriptor (skipn 4 data)).
Proof.
  intros Hlen.
  destruct (parseBinaryMessage_payload data Hlen) as [Hw Hc].
  split; [intros Hb; apply (Hw Hb)|]. split; intros Hb Hp.
  - destruct (Hc Hb) as [Ht Hv]. unfold classified_as. rewrite Ht, Hv.
    destruct (classify_printable _ Hp) as [(v & Ev & ->)|(En & ->)]; cbn [fst snd].
    + split; [intros F; vm_compute in F; discriminate F|]. left. now split.
    + split; [intros F; vm_compute in F; discriminate F|]. right. now repeat split.
  - destruct (Hc Hb) as [Ht Hv]. unfold classified_as. rewrite Ht, Hv.
    rewrite (classify_control _ Hp). now split.
Qed.

Lemma printability_classifier_witness :
  classified_as (parseBinaryMessage ([x00; x14; x00; x00] ++ bytes "abc")) "widget_update"
  /\ classified_as (parseBinaryMessage ([x01; x02; x03; x04] ++ bytes "test-string")) "ascii"
  /\ classified_as (parseBinaryMessage ([x01; x02; x03; x04] ++ [x41; x05])) "binary".
Proof.
  split; [|split].
  - apply (printability_classifier ([x00; x14; x00; x00] ++ bytes "abc"));
      [vm_compute; lia | reflexivity].
  - destruct (printability_classifier ([x01; x02; x03; x04] ++ bytes "test-string"))
      as (_ & H & _); [vm_compute; lia|].
    destruct H as [_ [[_ F]|[H _]]]; [vm_compute; lia | reflexivity | | exact H].
    vm_compute in F. discriminate F.
  - destruct (printability_classifier ([x01; x02; x03; x04] ++ [x41; x05]))
      as (_ & _ & H); [vm_compute; lia|].
    apply H; [vm_compute; lia | reflexivity].
Defined.

(** ** The session: sending *)

Lemma sendMessage_no_socket (s : State) (p : JSValue) (b1 b2 b3 : Z) (b4 : option Z)
    (d : string) :
  ws s = None -> sendMessage p b1 b2 b3 b4 d s = (Normal tt, s).
Proof.
  intros H. unfold sendMessage, bind, get. now rewrite H.
Qed.

Lemma sendMessage_auto (s : State) (k : Socket) (p : JSValue) (b1 b2 b3 : Z) (d : string) :
  ws s = Some k ->
  sendMessage p b1 b2 b3 None d s =
    (Normal tt,
     set_ws (Some {| sent := sent k ++ [createBinaryMessage p b1 b2 b3 (messageCounter s)];
                     closed := closed k |})
       (set_messageCounter (messageCounter s + 1) s)).
Proof.
  intros H. unfold sendMessage, bind, get, modify, ret, ws_send.
  rewrite H. cbn. unfold modify. cbn. now rewrite H.
Qed.

Lemma sendMessage_explicit (s : State) (k : Socket) (p : JSValue) (b1 b2 b3 b4 : Z)
    (d : string) :
  ws s = Some k ->
  sendMessage p b1 b2 b3 (Some b4) d s =
    (Normal tt,
     set_ws (Some {| sent := sent k ++ [createBinaryMessage p b1 b2 b3 b4];
                     closed := closed k |}) s).
Proof.
  intros H. unfold sendMessage, bind, get, modify, ret, ws_send.
  rewrite H. cbn. unfold modify. cbn. now rewrite H.
Qed.

Lemma send_socket (c : SendCall) (s : State) (k : Socket) :
  ws s = Some k ->
  exists k', ws (snd (send c s)) = Some k'
             /\ messageCounter (snd (send c s))
                = (messageCounter s + if is_auto c then 1 else 0)%Z.
Proof.
  intros H. unfold send, is_auto. destruct (sc_byte4 c) as [b4|].
  - rewrite (@sendMessage_explicit _ _ _ _ _ _ _ _ H). cbn. eexists. split; [reflexivity|lia].
  - rewrite (@sendMessage_auto _ _ _ _ _ _ _ H). cbn. eexists. split; reflexivity.
Qed.

Lemma send_all_counter (calls : list SendCall) :
  forall (s : State) (k : Socket),
    ws s = Some k ->
    messageCounter (snd (send_all calls s))
    = (messageCounter s + Z.of_nat (length (filter is_auto calls)))%Z.
Proof.
  induction calls as [|c r IH]; intros s k H.
  - cbn. lia.
  - cbn [send_all filter]. unfold bind.
    destruct (send_socket c s H) as (k' & Hk' & Hc).
    destruct (send c s) as [[[]|e] s1] eqn:E; cbn [snd] in *.
    + rewrite (IH s1 k' Hk'), Hc.
      destruct (is_auto c); cbn [length]; lia.
    + exfalso. unfold send in E. destruct (sc_byte4 c).
      * rewrite (@sendMessage_explicit _ _ _ _ _ _ _ _ H) in E. discriminate E.
      * rewrite (@sendMessage_auto _ _ _ _ _ _ _ H) in E. discriminate E.
Qed.

(** C8, as stated, fails: on a session whose socket does not exist,
    [sendMessage] without [byte4] returns at once and the counter stays. *)
Lemma sendMessage_no_socket_counter :
  ~ (forall (s : State) (p : JSValue) (b1 b2 b3 : Z) (d : string),
        messageCounter (snd (sendMessage p b1 b2 b3 None d s))
        = (messageCounter s + 1)%Z).
Proof.
  intros H.
  specialize (H (new_session None None [] [] HttpFails) JNull 0%Z 6%Z 0%Z "KEEPALIVE"%string).
  vm_compute in H. discriminate H.
Qed.

(** C8, amended. On a session whose socket exists, a [sendMessage] call
    without [byte4] sends the frame encoded with the current counter as fourth
    header byte (on the wire, the counter modulo 256) and adds one to the
    counter; a call with [byte4] sends the frame with that byte and leaves the
    counter; so over any sequence of calls the counter grows by the number of
    calls without [byte4].  Without a socket nothing is sent and the counter
    stays. *)
Theorem sendMessage_counter (s : State) (p : JSValue) (b1 b2 b3 : Z) (d : string) :
  (forall k, ws s = Some k ->
     (let s' := snd (sendMessage p b1 b2 b3 None d s) in
      sent_frames s' = sent_frames s ++ [createBinaryMessage p b1 b2 b3 (messageCounter s)]
      /\ nth 3 (createBinaryMessage p b1 b2 b3 (messageCounter s)) x00
         = byte_of_number (messageCounter s)
      /\ messageCounter s' = (messageCounter s + 1)%Z)
     /\ (forall b4,
           let s' := snd (sendMessage p b1 b2 b3 (Some b4) d s) in
           sent_frames s' = sent_frames s ++ [createBinaryMessage p b1 b2 b3 b4]
           /\ messageCounter s' = messageCounter s)
     /\ (forall calls,
           messageCounter (snd (send_all calls s))
           = (messageCounter s + Z.of_nat (length (filter is_auto calls)))%Z))
  /\ (ws s = None -> forall b4, snd (sendMessage p b1 b2 b3 b4 d s) = s).
Proof.
  split.
  - intros k H. split; [|split].
    + rewrite (@sendMessage_auto _ _ _ _ _ _ _ H). unfold sent_frames. cbn. rewrite H.
      split; [reflexivity|]. split; [|reflexivity].
      destruct (createBinaryMessage_shape p b1 b2 b3 (messageCounter s)) as [rest ->].
      reflexivity.
    + intros b4. rewrite (@sendMessage_explicit _ _ _ _ _ _ _ _ H).
      unfold sent_frames. cbn. rewrite H. split; reflexivity.
    + intros calls. apply (send_all_counter calls s H).
  - intros H b4. now rewrite sendMessage_no_socket.
Qed.

Lemma sendMessage_counter_witness :
  let s := snd (Client.connect (new_session None None [] [] Opens)) in
  let s' := snd (sendMessage JNull 0 6 0 None "KEEPALIVE" s) in
  sent_frames s' = [[x00; x06; x00; x00]] /\ messageCounter s' = 1%Z.
Proof.
  destruct (sendMessage_counter (snd (Client.connect (new_session None None [] [] Opens)))
              JNull 0 6 0 "KEEPALIVE") as [H _].
  destruct (H {| sent := []; closed := false |} eq_refl) as [(H1 & _ & H3) _].
  split; [exact H1 | exact H3].
Defined.

(** ** What the methods leave unchanged *)

Local Arguments parseBinaryMessage : simpl never.
Local Arguments createBinaryMessage : simpl never.
Local Arguments Hash.calculateHash : simpl never.

Section Preservation.

Context {X : Type} (f : State -> X).

Lemma preserves_ret (A : Type) (a : A) : preserves f (ret a).
Proof. intros s. reflexivity. Qed.

Lemma preserves_throw (A : Type) (e : JSError) : preserves f (@throw A e).
Proof. intros s. reflexivity. Qed.

Lemma preserves_lift (A : Type) (c : Completion A) : preserves f (lift c).
Proof. intros s. reflexivity. Qed.

Lemma preserves_get : preserves f get.
Proof. intros s. reflexivity. Qed.

Lemma preserves_bind (A B : Type) (c : M A) (k : A -> M B) :
  preserves f c -> (forall a, preserves f (k a)) -> preserves f (bind c k).
Proof.
  intros Hc Hk s. unfold bind. specialize (Hc s).
  destruct (c s) as [[a|e] s1]; cbn [snd] in *.
  - now rewrite Hk.
  - exact Hc.
Qed.

Lemma preserves_modify (g : State -> State) :
  (forall s, f (g s) = f s) -> preserves f (modify g).
Proof. intros H s. apply H. Qed.

Lemma preserves_for_of (A : Type) (l : list A) (body : A -> M unit) :
  (forall x, preserves f (body x)) -> preserves f (for_of l body).
Proof.
  intros H. induction l as [|x r IH]; cbn [for_of].
  - apply preserves_ret.
  - apply preserves_bind; [apply H | intros _; exact IH].
Qed.

End Preservation.

Ltac state_simpl :=
  cbv beta delta [has_socket];
  cbn [ws username password user devices devicePages messageCounter widgetIdMap
       widgetNameMap keepaliveTimer emitted inbound clock connection
       set_ws set_user set_devices set_devicePages set_messageCounter
       set_widgetIdMap set_widgetNameMap set_keepaliveTimer set_inbound set_clock].

Ltac preserve_modify :=
  apply preserves_modify; intros ?; state_simpl;
  repeat match goal with
         | |- context [match ?x with _ => _ end] => destruct x
         end;
  reflexivity.

Ltac preserve :=
  repeat first
    [ match goal with H : _ |- _ => solve [apply H] end
    | apply preserves_ret
    | apply preserves_throw
    | apply preserves_lift
    | apply preserves_get
    | preserve_modify
    | apply preserves_for_of; intros ?
    | apply preserves_bind; [|intros ?]
    | match goal with
      | |- preserves _ (match ?x with _ => _ end) => destruct x
      | |- preserves _ (if ?x then _ else _) => destruct x
      end ].

(** *** Nothing is ever handed to [emit] *)

Lemma listen_emitted (d : Z) : preserves emitted (listen d).
Proof. unfold listen. preserve. Qed.

Lemma sendMessage_emitted (p : JSValue) (b1 b2 b3 : Z) (b4 : option Z) (d : string) :
  preserves emitted (sendMessage p b1 b2 b3 b4 d).
Proof. unfold sendMessage, ws_send. preserve. Qed.

Lemma Date_now_emitted : preserves emitted Date_now.
Proof. intros s. unfold Date_now. destruct (clock s); reflexivity. Qed.

Lemma keepalive_emitted : preserves emitted keepalive.
Proof.
  pose proof listen_emitted. pose proof sendMessage_emitted. pose proof Date_now_emitted.
  unfold keepalive. preserve.
Qed.

Lemma issueInitialization_emitted : preserves emitted issueInitialization.
Proof.
  pose proof listen_emitted. pose proof sendMessage_emitted.
  unfold issueInitialization. preserve.
Qed.

Lemma login_emitted (ul : jsstring -> jsstring) : preserves emitted (login ul).
Proof.
  pose proof listen_emitted. pose proof sendMessage_emitted.
  unfold login. preserve.
Qed.

Lemma queryDevices_emitted : preserves emitted queryDevices.
Proof.
  pose proof listen_emitted. pose proof sendMessage_emitted.
  unfold queryDevices. preserve.
Qed.

Lemma requestChargingStatus_emitted (id : JSValue) :
  preserves emitted (requestChargingStatus id).
Proof.
  pose proof listen_emitted. pose proof sendMessage_emitted.
  unfold requestChargingStatus. preserve.
Qed.

Lemma extractWidgetMappings_emitted (i : Z) (page : JSValue) :
  preserves emitted (extractWidgetMappings i page).
Proof. unfold extractWidgetMappings. preserve. Qed.

Lemma handshake_emitted (ul : jsstring -> jsstring) : preserves emitted (handshake ul).
Proof.
  pose proof issueInitialization_emitted. pose proof (login_emitted ul).
  pose proof queryDevices_emitted. pose proof requestChargingStatus_emitted.
  pose proof extractWidgetMappings_emitted. pose proof keepalive_emitted.
  unfold handshake. preserve.
Qed.

Lemma steady_state_emitted (n : nat) : preserves emitted (steady_state n).
Proof.
  pose proof listen_emitted. pose proof keepalive_emitted.
  induction n as [|n IH]; cbn [steady_state]; preserve.
Qed.

Lemma close_ws_emitted (s : State) : emitted (close_ws s) = emitted s.
Proof. unfold close_ws. destruct (ws s); reflexivity. Qed.

Lemma run_emitted (ul : jsstring -> jsstring) (n : nat) (justScan : bool) :
  preserves emitted (run ul n justScan).
Proof.
  unfold run. apply preserves_bind.
  - unfold connect. preserve.
  - intros ok. destruct ok; cbn [negb]; [|apply preserves_ret].
    intros s.
    pose proof (handshake_emitted ul s) as Hh.
    destruct (handshake ul s) as [[[]|e] s1]; cbn [snd] in *.
    + destruct justScan; cbn [snd].
      * now rewrite close_ws_emitted.
      * pose proof (steady_state_emitted n s1) as Hs.
        destruct (steady_state n s1) as [[[]|e] s2]; cbn [snd] in *.
        -- congruence.
        -- rewrite close_ws_emitted. congruence.
    + now rewrite close_ws_emitted.
Qed.

(** C1. The driver never republishes telemetry: [run] hands nothing to
    [emit], whatever arrives and however long the loop is observed.  In the
    session with one charger, two turns of the steady-state loop receive three
    telemetry frames (one of them inside [keepalive]), and no event has been
    emitted. *)
Theorem telemetry_not_republished :
  (forall (unicode_lower : jsstring -> jsstring) (n : nat) (justScan : bool) (s : State),
      emitted (snd (run unicode_lower n justScan s)) = emitted s)
  /\ (let r := run (fun x => x) 2 false monitoring in
      fst r = Normal Listening
      /\ length (filter is_telemetry (inbound monitoring)) = 3%nat
      /\ inbound (snd r) = []
      /\ payload (arrival_message (Frame telemetry_frame))
         = JObj [ field "widgetId" (str "5"); field "deviceId" (str "89349");
                  field "widgetValue" (str "241.29") ]
      /\ option_map (fun m => Map_get m (str "5"))
           (outer_get (widgetIdMap (snd r)) 0) = Some (Some stream5)
      /\ emitted (snd r) = []).
Proof.
  split.
  - intros ul n justScan s. apply run_emitted.
  - vm_compute. repeat split; reflexivity.
Qed.

(** ** The handshake and null responses *)

Unset Implicit Arguments.

Lemma bind_normal (A B : Type) (c : M A) (k : A -> M B) (s s' : State) (a : A) :
  c s = (Normal a, s') -> bind c k s = k a s'.
Proof. intros H. unfold bind. now rewrite H. Qed.
Arguments bind_normal {A B c} k {s s' a} _.

Lemma bind_throw (A B : Type) (c : M A) (k : A -> M B) (s s' : State) (e : JSError) :
  c s = (Throw e, s') -> bind c k s = (Throw e, s').
Proof. intros H. unfold bind. now rewrite H. Qed.
Arguments bind_throw {A B c} k {s s' e} _.

Lemma bind_get (B : Type) (k : State -> M B) (s : State) : bind get k s = k s s.
Proof. reflexivity. Qed.

Lemma has_socket_ws (s : State) : has_socket s = true -> exists k, ws s = Some k.
Proof. unfold has_socket. destruct (ws s); [eauto | discriminate]. Qed.

(** With a socket, [listen] returns the message of the next arrival and
    consumes it. *)
Lemma listen_socket (d : Z) (s : State) :
  has_socket s = true ->
  listen d s = (Normal (arrival_message (hd Silence (inbound s))),
                set_inbound (tl (inbound s)) s).
Proof.
  intros H. apply has_socket_ws in H as [k H].
  unfold listen, bind, get. rewrite H.
  destruct s as [u p w us dv dp mc wi wn kt em inb cl cn]. cbn in *.
  destruct inb as [|[data|] r]; reflexivity.
Qed.

Lemma hd_skipn (A : Type) (d : A) (l : list A) (i : nat) :
  hd d (skipn i l) = nth i l d.
Proof.
  revert l. induction i as [|i IH]; intros [|x l]; cbn; auto.
Qed.

Lemma tl_skipn (A : Type) (l : list A) (i : nat) : tl (skipn i l) = skipn (S i) l.
Proof.
  revert l. induction i as [|i IH]; intros [|x l]; cbn; auto.
Qed.

(** The socket stays, and the list of device pages is not touched by the
    methods. *)
Lemma listen_socket_kept (d : Z) : preserves has_socket (listen d).
Proof. unfold listen. preserve. Qed.

Lemma sendMessage_socket_kept (p : JSValue) (b1 b2 b3 : Z) (b4 : option Z) (d : string) :
  preserves has_socket (sendMessage p b1 b2 b3 b4 d).
Proof.
  intros s. unfold has_socket. destruct (ws s) as [k|] eqn:H.
  - destruct b4 as [b4|].
    + rewrite (@sendMessage_explicit _ _ _ _ _ _ _ _ H). reflexivity.
    + rewrite (@sendMessage_auto _ _ _ _ _ _ _ H). reflexivity.
  - rewrite sendMessage_no_socket by exact H. cbn [snd]. now rewrite H.
Qed.

Lemma listen_pages (d : Z) : preserves devicePages (listen d).
Proof. unfold listen. preserve. Qed.

Lemma sendMessage_pages (p : JSValue) (b1 b2 b3 : Z) (b4 : option Z) (d : string) :
  preserves devicePages (sendMessage p b1 b2 b3 b4 d).
Proof. unfold sendMessage, ws_send. preserve. Qed.

Lemma sendMessage_inbound (p : JSValue) (b1 b2 b3 : Z) (b4 : option Z) (d : string) :
  preserves inbound (sendMessage p b1 b2 b3 b4 d).
Proof. unfold sendMessage, ws_send. preserve. Qed.

(** Sending, then listening, from a stage. *)
Lemma send_step (s : State) (p : JSValue) (b1 b2 b3 : Z) (b4 : option Z) (d : string) :
  has_socket s = true ->
  exists s0 f,
    sendMessage p b1 b2 b3 b4 d s = (Normal tt, s0)
    /\ has_socket s0 = true /\ devicePages s0 = devicePages s
    /\ inbound s0 = inbound s
    /\ sent_frames s0 = sent_frames s ++ [createBinaryMessage p b1 b2 b3 f].
Proof.
  intros Hs. destruct (has_socket_ws s Hs) as [k Hk].
  destruct b4 as [b4|].
  - rewrite (@sendMessage_explicit _ _ _ _ _ _ _ _ Hk).
    do 2 eexists. split; [reflexivity|].
    unfold sent_frames, has_socket. cbn. rewrite Hk. repeat split; reflexivity.
  - rewrite (@sendMessage_auto _ _ _ _ _ _ _ Hk).
    do 2 eexists. split; [reflexivity|].
    unfold sent_frames, has_socket. cbn. rewrite Hk. repeat split; reflexivity.
Qed.

Lemma send_listen (arrivals : list Arrival) (i : nat) (s : State)
    (p : JSValue) (b1 b2 b3 : Z) (b4 : option Z) (d : string) (dur : Z) :
  at_stage arrivals i s ->
  exists s1 f,
    bind (sendMessage p b1 b2 b3 b4 d) (fun _ => listen dur) s
      = (Normal (arrival_message (nth i arrivals Silence)), s1)
    /\ at_stage arrivals (S i) s1
    /\ sent_frames s1 = sent_frames s ++ [createBinaryMessage p b1 b2 b3 f].
Proof.
  intros (Hs & Hp & Hi).
  destruct (send_step s p b1 b2 b3 b4 d Hs) as (s0 & f & E & Ks & Kp & Ki & Kf).
  exists (set_inbound (tl (inbound s0)) s0), f.
  rewrite (bind_normal _ E), (listen_socket dur s0 Ks).
  split; [|split].
  - now rewrite Ki, Hi, hd_skipn.
  - unfold at_stage, has_socket in *. cbn.
    repeat split; [exact Ks | congruence | rewrite Ki, Hi; apply tl_skipn].
  - exact Kf.
Qed.

Lemma send_listen_then (arrivals : list Arrival) (i : nat) (s : State)
    (p : JSValue) (b1 b2 b3 : Z) (b4 : option Z) (d : string) (dur : Z) :
  at_stage arrivals i s ->
  exists s1 f,
    at_stage arrivals (S i) s1
    /\ sent_frames s1 = sent_frames s ++ [createBinaryMessage p b1 b2 b3 f]
    /\ forall (B : Type) (K : ParsedMessage -> M B),
         bind (sendMessage p b1 b2 b3 b4 d) (fun _ => bind (listen dur) K) s
         = K (arrival_message (nth i arrivals Silence)) s1.
Proof.
  intros H.
  destruct (send_listen arrivals i s p b1 b2 b3 b4 d dur H) as (s1 & f & E & H1 & Hf).
  exists s1, f. split; [exact H1|]. split; [exact Hf|]. intros B K.
  unfold bind in *.
  destruct (sendMessage p b1 b2 b3 b4 d s) as [[[]|e] s0]; [|discriminate E].
  now rewrite E.
Qed.

Lemma issueInitialization_stage (arrivals : list Arrival) (i : nat) (s : State) :
  at_stage arrivals i s ->
  exists s1,
    at_stage arrivals (S i) s1
    /\ issueInitialization s =
         (match response arrivals i with
          | JNull => Throw (Error (js "Init message failed"))
          | _ => Normal tt
          end, s1).
Proof.
  intros H. unfold issueInitialization.
  destruct (send_listen_then arrivals i s initPayload 1 48 0 (Some 1%Z) "INIT" 10 H)
    as (s1 & f & H1 & _ & E).
  exists s1. split; [exact H1|]. rewrite E. unfold response.
  destruct (payload (arrival_message (nth i arrivals Silence))); reflexivity.
Qed.

Lemma login_stage (ul : jsstring -> jsstring) (arrivals : list Arrival) (i : nat)
    (s : State) :
  at_stage arrivals i s ->
  exists res s1,
    login ul s = (res, s1)
    /\ (res = Normal tt -> at_stage arrivals (S i) s1)
    /\ (response arrivals i = JNull -> exists e, res = Throw e)
    /\ (forall u p, username s = Some u -> password s = Some p ->
        response arrivals i = JNull ->
        res = Throw (Error (js "Did not get back user payload"))).
Proof.
  intros H. unfold login. rewrite bind_get.
  destruct (username s) as [u|] eqn:Eu; [destruct (password s) as [p|] eqn:Ep|].
  - match goal with
    | |- context [sendMessage ?x 0 2 0 (Some 3%Z) "LOGIN"] =>
        destruct (send_listen_then arrivals i s x 0 2 0 (Some 3%Z) "LOGIN" 10 H) as (s1 & f & H1 & _ & E)
    end.
    rewrite E. unfold response.
    destruct (payload (arrival_message (nth i arrivals Silence))) eqn:Ev;
      try (do 2 eexists; split; [reflexivity|];
           split; [intros _; exact H1|];
           split; [intros F; discriminate F | intros ? ? _ _ F; discriminate F]).
    do 2 eexists. split; [reflexivity|].
    split; [intros F; discriminate F|].
    split; [intros _; eauto | intros; reflexivity].
  - do 2 eexists. split; [reflexivity|].
    split; [intros F; discriminate F|].
    split; [intros _; eauto | intros ? ? _ F; discriminate F].
  - do 2 eexists. split; [reflexivity|].
    split; [intros F; discriminate F|].
    split; [intros _; eauto | intros ? ? F; discriminate F].
Qed.

Lemma queryDevices_stage (arrivals : list Arrival) (i : nat) (s : State) :
  at_stage arrivals i s ->
  exists res s1,
    queryDevices s = (res, s1)
    /\ at_stage arrivals (S i) s1
    /\ (response arrivals i = JNull -> exists m, res = Throw (TypeError m)).
Proof.
  intros H. unfold queryDevices.
  destruct (send_listen_then arrivals i s deviceQuery 1 27 0 None "DEVICE QUERY" 10 H)
    as (s1 & f & (Hs & Hp & Hi) & _ & E).
  rewrite E. clear E.
  set (r := arrival_message (nth i arrivals Silence)).
  match goal with
  | |- context [bind ?c ?k s1] => set (rest := bind c k)
  end.
  assert (Ks : preserves has_socket rest) by (subst rest; preserve).
  assert (Kp : preserves devicePages rest) by (subst rest; preserve).
  assert (Ki : preserves inbound rest) by (subst rest; preserve).
  specialize (Ks s1). specialize (Kp s1). specialize (Ki s1).
  destruct (rest s1) as [res s2] eqn:E. cbn [snd] in *.
  exists res, s2. split; [reflexivity|]. split.
  - unfold at_stage. repeat split; congruence.
  - intros Hnull. unfold response in Hnull. fold r in Hnull.
    subst rest. unfold bind, lift in E. rewrite Hnull in E. cbn in E.
    inversion E; subst. eauto.
Qed.

Lemma requestChargingStatus_stage (arrivals : list Arrival) (i : nat) (s : State)
    (deviceId : JSValue) (text : jsstring) :
  at_stage arrivals i s ->
  String_of deviceId = Normal text ->
  exists s2,
    requestChargingStatus deviceId s = (Normal (response arrivals (S i)), s2)
    /\ at_stage arrivals (S (S i)) s2
    /\ exists f1 f2,
         sent_frames s2
         = sent_frames s
             ++ [createBinaryMessage (JStr text) 0 73 1 f1;
                 createBinaryMessage
                   (JObj [ field "pageId" (str "17948");
                           field "deviceId" (JStr text);
                           field "dashboardPageId" JNull ]) 1 4 1 f2].
Proof.
  intros H Ht. unfold requestChargingStatus. rewrite bind_get.
  destruct (has_socket_ws s (proj1 H)) as [k Hk]. rewrite Hk, Ht.
  unfold bind at 1, lift at 1.
  destruct (send_listen_then arrivals i s (JStr text) 0 73 1 None
              "DEVICE NUMBER" 10 H)
    as (s1 & f1 & H1 & Hf1 & E1).
  rewrite E1. unfold bind at 1, lift at 1.
  match goal with
  | |- context [sendMessage ?x 1 4 1 None "DEVICE PAGE"] =>
      destruct (send_listen_then arrivals (S i) s1 x 1 4 1 None "DEVICE PAGE" 10 H1)
        as (s2 & f2 & H2 & Hf2 & E2)
  end.
  rewrite E2. exists s2. split; [reflexivity|]. split; [exact H2|].
  exists f1, f2. rewrite Hf2, Hf1, <- app_assoc. reflexivity.
Qed.

(** A device id that [String] cannot convert makes [requestChargingStatus]
    throw before anything is sent. *)
Lemma requestChargingStatus_unconvertible (s : State) (deviceId : JSValue) (e : JSError) :
  has_socket s = true ->
  String_of deviceId = Throw e ->
  requestChargingStatus deviceId s = (Throw e, s).
Proof.
  intros H Ht. unfold requestChargingStatus. rewrite bind_get.
  destruct (has_socket_ws s H) as [k Hk]. rewrite Hk, Ht. reflexivity.
Qed.

Lemma Date_now_socket_kept : preserves has_socket Date_now.
Proof. intros s. unfold Date_now. destruct (clock s); reflexivity. Qed.

Lemma handshake_socket_kept (ul : jsstring -> jsstring) :
  preserves has_socket (handshake ul).
Proof.
  pose proof listen_socket_kept. pose proof sendMessage_socket_kept.
  pose proof Date_now_socket_kept.
  unfold handshake, issueInitialization, login, queryDevices, requestChargingStatus,
    extractWidgetMappings, keepalive.
  preserve.
Qed.

Lemma issueInitialization_cases (arrivals : list Arrival) (i : nat) (s : State) :
  at_stage arrivals i s ->
  exists s1,
    at_stage arrivals (S i) s1
    /\ ((response arrivals i = JNull
         /\ issueInitialization s = (Throw (Error (js "Init message failed")), s1))
        \/ (response arrivals i <> JNull /\ issueInitialization s = (Normal tt, s1))).
Proof.
  intros H. destruct (issueInitialization_stage arrivals i s H) as (s1 & H1 & E).
  exists s1. split; [exact H1|]. rewrite E.
  destruct (response arrivals i); first [left; now split | right; now split].
Qed.

Lemma extractWidgetMappings_null (i : Z) (s : State) :
  exists m, extractWidgetMappings i JNull s = (Throw (TypeError m), s).
Proof. eexists. reflexivity. Qed.

(** A null response at Init, Login, Device Query or Device Page makes the
    handshake throw. *)
Lemma handshake_null (ul : jsstring -> jsstring) (arrivals : list Arrival) (s : State) :
  at_stage arrivals 0 s ->
  (response arrivals 0 = JNull \/ response arrivals 1 = JNull
   \/ response arrivals 2 = JNull \/ response arrivals 4 = JNull) ->
  exists e s', handshake ul s = (Throw e, s')
    /\ (response arrivals 0 = JNull -> e = Error (js "Init message failed")).
Proof.
  intros H0 Hnull. unfold handshake.
  destruct (issueInitialization_cases arrivals 0 s H0) as (s1 & H1 & [[R0 E0]|[R0 E0]]).
  { rewrite (bind_throw _ E0). eauto. }
  rewrite (bind_normal _ E0).
  destruct (login_stage ul arrivals 1 s1 H1) as (res1 & s2 & E1 & N1 & T1 & _).
  destruct res1 as [[]|e1].
  2:{ rewrite (bind_throw _ E1). do 2 eexists. split; [reflexivity | tauto]. }
  rewrite (bind_normal _ E1). specialize (N1 eq_refl).
  destruct (queryDevices_stage arrivals 2 s2 N1) as (res2 & s3 & E2 & H3 & T2).
  destruct res2 as [[]|e2].
  2:{ rewrite (bind_throw _ E2). do 2 eexists. split; [reflexivity | tauto]. }
  rewrite (bind_normal _ E2).
  assert (R4 : response arrivals 4 = JNull).
  { destruct Hnull as [F|[F|[F|F]]]; [tauto | | | exact F].
    - destruct (T1 F) as [e F']. discriminate F'.
    - destruct (T2 F) as [m F']. discriminate F'. }
  rewrite bind_get.
  destruct (devices s3) as [|device rest].
  { do 2 eexists. split; [reflexivity | tauto]. }
  unfold bind at 1. unfold lift.
  destruct (get_prop device "deviceId") as [deviceId|e3].
  2:{ do 2 eexists. split; [reflexivity | tauto]. }
  assert (Hgo : exists e s',
             bind (requestChargingStatus deviceId)
               (fun page =>
                  bind (modify (fun s => set_devicePages (devicePages s ++ [page]) s))
                    (fun _ =>
                       bind get
                         (fun s' =>
                            bind (extractWidgetMappings 0 (nth 0 (devicePages s') JUndefined))
                              (fun _ => keepalive)))) s3
             = (Throw e, s')).
  { destruct (String_of deviceId) as [text|e5] eqn:Et.
    2:{ rewrite (bind_throw _ (requestChargingStatus_unconvertible s3 deviceId e5
                                 (proj1 H3) Et)). eauto. }
    destruct (requestChargingStatus_stage arrivals 3 s3 deviceId text H3 Et)
      as (s5 & E5 & (_ & Hp & _) & _).
    rewrite (bind_normal _ E5). unfold bind at 1. unfold modify.
    unfold bind at 1. unfold get. cbn [devicePages set_devicePages].
    rewrite Hp, R4. cbn [app nth].
    destruct (extractWidgetMappings_null 0 (set_devicePages [JNull] s5)) as [m Em].
    rewrite (bind_throw _ Em). eauto. }
  destruct Hgo as (e & s' & Hgo).
  destruct deviceId; try (rewrite Hgo; do 2 eexists; split; [reflexivity | tauto]).
  do 2 eexists. split; [reflexivity | tauto].
Qed.

(** [String] on the values a payload can hold.  An object with a [toString]
    entry of its own cannot be converted, alone or inside an array; an array
    joins its elements, null giving the empty string; a number is printed
    with the shortest digits that identify its binary64 value. *)
Example String_of_cases :
  String_of (JObj [field "toString" (JNum 1 0)])
  = Throw (TypeError (js "Cannot convert object to primitive value"))
  /\ String_of (JArr [JNum 1 0; JObj [field "toString" (JNum 1 0)]])
     = Throw (TypeError (js "Cannot convert object to primitive value"))
  /\ String_of (JObj [field "valueOf" (JNum 1 0)]) = Normal (js "[object Object]")
  /\ String_of (JArr [JNum 1 0; JNull; JArr [JNum 25 (-1); str "a"]; JBool true])
     = Normal (js "1,,2.5,a,true")
  /\ String_of (JNum (2 ^ 70) 0) = Normal (js "1.1805916207174113e+21")
  /\ String_of (JNum 9007199254740993 0) = Normal (js "9007199254740992")
  /\ String_of (JNum 24129 (-2)) = Normal (js "241.29")
  /\ String_of (JNum (-1) (-7)) = Normal (js "-1e-7")
  /\ String_of (JNum 1 400) = Normal (js "Infinity").
Proof. repeat split; vm_compute; reflexivity. Qed.

(** [JSON.stringify] prints a number the same way, and an infinite one as
    null. *)
Example JSON_stringify_numbers :
  JSON_stringify (JNum (2 ^ 70) 0) = js "1.1805916207174113e+21"
  /\ JSON_stringify (JNum 100 (-2)) = js "1"
  /\ JSON_stringify (JNum 1 400) = js "null".
Proof. repeat split; vm_compute; reflexivity. Qed.

(** C2, as stated, fails at Device Select: when that stage's [listen] times
    out (a null payload), the driver goes on, fetches the device page and
    [run] returns normally. *)
Lemma null_device_select_proceeds :
  ~ (forall (unicode_lower : jsstring -> jsstring) (n : nat) (justScan : bool)
            (u p : option jsstring) (arrivals : list Arrival) (clock : list Z) (i : nat),
        (i < 5)%nat ->
        response arrivals i = JNull ->
        exists e,
          fst (run unicode_lower n justScan (new_session u p arrivals clock Opens))
          = Throw e).
Proof.
  intros H.
  destruct (H (fun x => x) 0%nat true (Some (js "test@example.com")) (Some (js "pw"))
              (handshake_answers Silence) [0%Z; 1000%Z] 3%nat) as [e F].
  - lia.
  - reflexivity.
  - vm_compute in F. discriminate F.
Qed.

(** C2, amended. A null response payload at Init, Login, Device Query or
    Device Page makes [run] throw (at Init, the error "Init message failed")
    and the socket is closed.  The Device Select acknowledgement is not
    examined: whatever it is, [requestChargingStatus] sends the Device Page
    request and returns the payload of the next response, for every device id
    that [String] converts; a device id that it cannot convert makes the
    method throw before anything is sent. *)
Theorem null_response_aborts (unicode_lower : jsstring -> jsstring) (n : nat)
    (justScan : bool) (u p : option jsstring) (arrivals : list Arrival)
    (clock : list Z) (i : nat) :
  (i = 0 \/ i = 1 \/ i = 2 \/ i = 4)%nat ->
  response arrivals i = JNull ->
  (exists e,
      fst (run unicode_lower n justScan (new_session u p arrivals clock Opens)) = Throw e
      /\ (i = 0%nat -> e = Error (js "Init message failed")))
  /\ (exists k,
         ws (snd (run unicode_lower n justScan (new_session u p arrivals clock Opens)))
         = Some k /\ closed k = true)
  /\ (forall (s : State) (deviceId : JSValue),
         at_stage arrivals 3 s ->
         match String_of deviceId with
         | Normal text =>
             exists s' f1 f2,
               requestChargingStatus deviceId s = (Normal (response arrivals 4), s')
               /\ sent_frames s'
                  = sent_frames s
                      ++ [createBinaryMessage (JStr text) 0 73 1 f1;
                          createBinaryMessage
                            (JObj [ field "pageId" (str "17948");
                                    field "deviceId" (JStr text);
                                    field "dashboardPageId" JNull ]) 1 4 1 f2]
         | Throw e => requestChargingStatus deviceId s = (Throw e, s)
         end).
Proof.
  intros Hi Hnull.
  set (s0 := new_session u p arrivals clock Opens).
  set (sc := set_ws (Some {| sent := []; closed := false |}) s0).
  assert (Hc : at_stage arrivals 0 sc) by (repeat split).
  assert (Hr : run unicode_lower n justScan s0
               = match handshake unicode_lower sc with
                 | (Throw e, s') => (Throw e, close_ws s')
                 | (Normal _, s') =>
                     if justScan then (Normal Returned, close_ws s')
                     else match steady_state n s' with
                          | (Throw e, s'') => (Throw e, close_ws s'')
                          | (Normal _, s'') => (Normal Listening, s'')
                          end
                 end) by reflexivity.
  assert (Hn : response arrivals 0 = JNull \/ response arrivals 1 = JNull
               \/ response arrivals 2 = JNull \/ response arrivals 4 = JNull)
    by (destruct Hi as [ -> | [ -> | [ -> | -> ] ] ]; tauto).
  destruct (handshake_null unicode_lower arrivals sc Hc Hn) as (e & s' & E & He).
  pose proof (handshake_socket_kept unicode_lower sc) as Hk.
  rewrite E in Hr, Hk. cbn [snd] in Hk.
  rewrite Hr. cbn [fst snd]. split; [|split].
  - exists e. split; [reflexivity|]. intros ->. now apply He.
  - unfold has_socket in Hk. unfold close_ws.
    destruct (ws s') as [k|]; [|discriminate Hk]. cbn. eauto.
  - intros s deviceId Hs.
    destruct (String_of deviceId) as [text|e5] eqn:Et.
    + destruct (requestChargingStatus_stage arrivals 3 s deviceId text Hs Et)
        as (s2 & E2 & _ & f1 & f2 & Hf).
      exists s2, f1, f2. now split.
    + exact (requestChargingStatus_unconvertible s deviceId e5 (proj1 Hs) Et).
Qed.

Lemma null_response_aborts_witness :
  fst (run (fun x => x) 0 true (charger_session [] [0%Z]))
  = Throw (Error (js "Init message failed")).
Proof.
  destruct (null_response_aborts (fun x => x) 0 true (Some (js "test@example.com"))
              (Some (js "pw")) [] [0%Z] 0%nat) as [(e & E & He) _].
  - left. reflexivity.
  - reflexivity.
  - unfold charger_session. rewrite E. now rewrite He.
Defined.

(** The run of the counterexample: all five requests are sent, the page is
    stored and [run] returns, although Device Select received nothing. *)
Example device_select_timeout_run :
  let r := run (fun x => x) 0 true (charger_session (handshake_answers Silence) [0; 1000]%Z) in
  response (handshake_answers Silence) 3 = JNull
  /\ fst r = Normal Returned
  /\ devicePages (snd r) = [device_page]
  /\ length (sent_frames (snd r)) = 5%nat
  /\ messageCounter (snd r) = 3%Z.
Proof. vm_compute. repeat split; reflexivity. Qed.

(** Once the counter has reached 256 the fourth header byte on the wire is
    the counter modulo 256. *)
Example counter_wraps_on_the_wire :
  let s := set_messageCounter 256
             (snd (Client.connect (new_session None None [] [] Opens))) in
  sent_frames (snd (sendMessage JNull 0 6 0 None "KEEPALIVE" s)) = [[x00; x06; x00; x00]]
  /\ messageCounter (snd (sendMessage JNull 0 6 0 None "KEEPALIVE" s)) = 257%Z.
Proof. vm_compute. split; reflexivity. Qed.

(** ** The cases of the repository's test suite, on the embedding *)

Example test_create_header_only :
  createBinaryMessage JNull 1 2 3 4 = [x01; x02; x03; x04].
Proof. reflexivity. Qed.

Example test_create_string_payload :
  toString_utf8 (skipn 4 (createBinaryMessage (str "test") 1 2 3 4)) = js "test".
Proof. reflexivity. Qed.

Example test_create_json_payload :
  JSON_parse (toString_utf8 (skipn 4
     (createBinaryMessage
        (JObj [field "key" (str "value"); field "number" (JNum 42 0)]) 1 2 3 4)))
  = Some (JObj [field "key" (str "value"); field "number" (JNum 42 0)]).
Proof. vm_compute. reflexivity. Qed.

Example test_parse_header_only :
  parseBinaryMessage [x01; x02; x03; x04]
  = {| header := Some {| byte1 := 1; byte2 := 2; byte3 := 3; byte4 := 4;
                         hasPayload := false; headerHex := js "01020304";
                         totalLength := 4; payloadType := None |};
       payload := JNull |}.
Proof. reflexivity. Qed.

Example test_parse_ascii_payload :
  payload (parseBinaryMessage ([x01; x02; x03; x04] ++ bytes "test-string"))
  = str "test-string".
Proof. vm_compute. reflexivity. Qed.

Example test_parse_widget_update :
  parseWidgetUpdate (skipn 4 telemetry_frame)
  = JObj [ field "widgetId" (str "5"); field "deviceId" (str "89349");
           field "widgetValue" (str "241.29") ]
  /\ classified_as (parseBinaryMessage telemetry_frame) "widget_update".
Proof. split; vm_compute; reflexivity. Qed.

Example test_parse_widget_update_empty :
  has_member (parseWidgetUpdate []) "error" = true.
Proof. reflexivity. Qed.

Example test_hash_empty_strings :
  Hash.calculateHash (fun x => x) [] [] = js "Xfbg4nYTWdMKgnUFjimfzAOBU0VF9Vz0PkGYP11MlFY=".
Proof. vm_compute. reflexivity. Qed.

Example test_sha256_abc :
  toString_hex (Hash.sha256 (bytes "abc"))
  = js "ba7816bf8f01cfea414140de5dae2223b00361a396177a9cb410ff61f20015ad".
Proof. vm_compute. reflexivity. Qed.

(** ** The end-to-end scenario and the keepalive period *)

(** A scan of the session with one charger stores one device and one page,
    and both maps of device 0 resolve to the same stream descriptor. *)
Example end_to_end_scan :
  let r := run (fun x => x) 0 true monitoring in
  fst r = Normal Returned
  /\ length (devices (snd r)) = 1%nat
  /\ devicePages (snd r) = [device_page]
  /\ option_map (fun m => Map_get m (str "5")) (outer_get (widgetIdMap (snd r)) 0)
     = Some (Some stream5)
  /\ option_map (fun m => Map_get m (str "Charging Power"))
       (outer_get (widgetNameMap (snd r)) 0)
     = Some (Some stream5)
  /\ option_map closed (ws (snd r)) = Some true.
Proof. vm_compute. repeat split; reflexivity. Qed.

(** [keepalive] sends its frame once 15000 ms have passed since the timer was
    set, and not before. *)
Example keepalive_period :
  let s := snd (Client.connect (new_session None None [] [0; 14999; 15000; 15000]%Z Opens)) in
  let s1 := snd (keepalive s) in
  let s2 := snd (keepalive s1) in
  sent_frames s1 = [] /\ sent_frames s2 = [[x00; x06; x00; x00]]
  /\ keepaliveTimer s2 = 15000%Z.
Proof. vm_compute. repeat split; reflexivity. Qed.

(** * Further properties of the frame codec *)

(** ** The UTF-8 text branch *)

Lemma land_shiftl_small (a x n : N) : (x < 2 ^ n)%N -> N.land (N.shiftl a n) x = 0%N.
Proof.
  intros Hx. apply N.bits_inj. intros i. rewrite N.land_spec, N.bits_0.
  destruct (N.lt_ge_cases i n) as [Hi|Hi].
  - now rewrite N.shiftl_spec_low.
  - replace (N.testbit x i) with false; [apply andb_false_r|].
    symmetry. destruct (N.eq_dec x 0) as [->|Hne]; [apply N.bits_0|].
    apply N.bits_above_log2. apply N.log2_lt_pow2; [lia|].
    apply N.lt_le_trans with (2 ^ n)%N; [exact Hx|].
    apply N.pow_le_mono_r; lia.
Qed.

Lemma lor_shiftl_small (a x n : N) :
  (x < 2 ^ n)%N -> N.lor (N.shiftl a n) x = (a * 2 ^ n + x)%N.
Proof.
  intros Hx. pose proof (land_shiftl_small a x n Hx) as H0.
  rewrite <- (N.lxor_lor _ _ H0), <- (N.add_nocarry_lxor _ _ H0).
  now rewrite N.shiftl_mul_pow2.
Qed.

(** [lia] on a goal with [b mod k] for a literal [k]. *)
Ltac mod_lia b k :=
  pose proof (N.div_mod b k ltac:(lia));
  pose proof (N.mod_lt b k ltac:(lia));
  generalize dependent (b mod k)%N; generalize dependent (b / k)%N;
  intros; lia.

Lemma continuation_value (cp b : N) :
  (128 <= b)%N -> (b <= 191)%N ->
  N.lor (N.shiftl cp 6) (N.land b 63) = (cp * 64 + (b - 128))%N.
Proof.
  intros Hl Hu.
  change 63%N with (N.ones 6). rewrite N.land_ones.
  change (2 ^ 6)%N with 64%N.
  assert (Hm : (b mod 64 = b - 128)%N).
  { mod_lia b 64%N. }
  rewrite Hm. rewrite lor_shiftl_small by (change (2 ^ 6)%N with 64%N; lia).
  reflexivity.
Qed.

Lemma printable_code_ascii (c : N) : printable_code c = true -> (c < 128)%N.
Proof.
  unfold printable_code. intros H.
  repeat (apply orb_true_iff in H as [H|H]).
  - apply andb_true_iff in H as [_ H]. apply N.leb_le in H. lia.
  - apply N.eqb_eq in H. lia.
  - apply N.eqb_eq in H. lia.
  - apply N.eqb_eq in H. lia.
Qed.

Lemma code_units_of_high (cp : N) :
  (128 <= cp)%N -> exists c, In c (code_units_of cp) /\ (128 <= c)%N.
Proof.
  intros H. unfold code_units_of. destruct (cp <? 65536)%N.
  - exists cp. split; [now left | exact H].
  - eexists. split; [now left|].
    apply N.le_trans with 55296%N; [lia | apply N.le_add_r].
Qed.

Lemma utf8_lead_pending_ok (b : N) : utf8_pending_ok (fst (utf8_lead b)).
Proof.
  unfold utf8_lead.
  destruct (b <? 128)%N; [exact I|].
  destruct ((194 <=? b)%N && (b <=? 223)%N) eqn:H2.
  { apply andb_true_iff in H2 as [Ha Hb]. apply N.leb_le in Ha, Hb.
    unfold utf8_pending_ok. cbn [fst u_needed u_lower u_upper u_cp N.of_nat].
    change 31%N with (N.ones 5). rewrite N.land_ones. change (2 ^ 5)%N with 32%N.
    change (64 ^ 0)%N with 1%N. mod_lia b 32%N. }
  destruct ((224 <=? b)%N && (b <=? 239)%N) eqn:H3.
  { apply andb_true_iff in H3 as [Ha Hb]. apply N.leb_le in Ha, Hb.
    unfold utf8_pending_ok. cbn [fst u_needed u_lower u_upper u_cp].
    change 15%N with (N.ones 4). rewrite N.land_ones. change (2 ^ 4)%N with 16%N.
    change (64 ^ N.of_nat 1)%N with 64%N.
    destruct (N.eqb_spec b 224); destruct (N.eqb_spec b 237); mod_lia b 16%N. }
  destruct ((240 <=? b)%N && (b <=? 244)%N) eqn:H4; [|exact I].
  apply andb_true_iff in H4 as [Ha Hb]. apply N.leb_le in Ha, Hb.
  unfold utf8_pending_ok. cbn [fst u_needed u_lower u_upper u_cp].
  change 7%N with (N.ones 3). rewrite N.land_ones. change (2 ^ 3)%N with 8%N.
  change (64 ^ N.of_nat 2)%N with 4096%N.
  destruct (N.eqb_spec b 240); destruct (N.eqb_spec b 244); mod_lia b 8%N.
Qed.

Lemma utf8_lead_high (b : N) :
  (128 <= b)%N ->
  (exists k, u_needed (fst (utf8_lead b)) = S k)
  \/ exists c, In c (snd (utf8_lead b)) /\ (128 <= c)%N.
Proof.
  intros Hb. unfold utf8_lead.
  replace (b <? 128)%N with false by (symmetry; apply N.ltb_ge; exact Hb).
  repeat match goal with
         | |- context [if ?c then _ else _] => destruct c
         end; cbn [fst snd u_needed]; eauto.
  right. exists 65533%N. split; [now left | lia].
Qed.

(** A pending sequence always ends in a code unit outside ASCII: the finished
    character, or U+FFFD. *)
Lemma utf8_run_pending (bs : Buffer) :
  forall (st : utf8_state) (k : nat),
    u_needed st = S k -> utf8_pending_ok st ->
    exists c, In c (utf8_run st bs) /\ (128 <= c)%N.
Proof.
  induction bs as [|b r IH]; intros st k Hk Hok.
  - cbn [utf8_run]. rewrite Hk. exists 65533%N. split; [now left | lia].
  - cbn [utf8_run]. unfold utf8_step. rewrite Hk.
    unfold utf8_pending_ok in Hok. rewrite Hk in Hok. destruct Hok as (Hl & Hu & Hv).
    destruct ((u_lower st <=? Byte.to_N b)%N && (Byte.to_N b <=? u_upper st)%N) eqn:Hr.
    + apply andb_true_iff in Hr as [Ha Hb]. apply N.leb_le in Ha, Hb.
      rewrite continuation_value by lia.
      destruct k as [|k'].
      * change (64 ^ N.of_nat 0)%N with 1%N in Hv.
        destruct (@code_units_of_high (u_cp st * 64 + (Byte.to_N b - 128))%N)
          as (c & Hc & Hc'); [lia|].
        exists c. split; [apply in_or_app; now left | exact Hc'].
      * cbn [app].
        destruct (IH {| u_cp := (u_cp st * 64 + (Byte.to_N b - 128))%N;
                        u_needed := S k'; u_lower := 128; u_upper := 191 |} k' eq_refl)
          as (c & Hc & Hc'); [|eauto].
        unfold utf8_pending_ok. cbn [u_needed u_lower u_upper u_cp].
        split; [lia|]. split; [lia|].
        rewrite Nat2N.inj_succ, N.pow_succ_r' in Hv. nia.
    + destruct (utf8_lead (Byte.to_N b)) as [st' out].
      exists 65533%N. split; [now left | lia].
Qed.

(** If the decoded text has only ASCII code units, the bytes were ASCII, and
    the text is the bytes. *)
Lemma utf8_run_all_ascii (bs : Buffer) :
  forall st : utf8_state,
    u_needed st = O ->
    Forall (fun c => (c < 128)%N) (utf8_run st bs) ->
    utf8_run st bs = toString_latin1 bs /\ toString_ascii bs = toString_latin1 bs.
Proof.
  induction bs as [|b r IH]; intros st Hn Hall.
  - cbn. rewrite Hn. now split.
  - cbn [utf8_run] in *. unfold utf8_step in *. rewrite Hn in *.
    destruct (N.lt_ge_cases (Byte.to_N b) 128) as [Hb|Hb].
    + assert (Hlead : utf8_lead (Byte.to_N b) = (utf8_init, [Byte.to_N b])).
      { unfold utf8_lead. apply N.ltb_lt in Hb. now rewrite Hb. }
      rewrite Hlead in *. cbn [app] in *. inversion Hall as [|? ? _ Hall']; subst.
      destruct (IH utf8_init eq_refl Hall') as [E1 E2].
      unfold toString_latin1, toString_ascii in *. cbn [map].
      rewrite E1, E2. split; [reflexivity|]. f_equal.
      change 127%N with (N.ones 7). rewrite N.land_ones.
      apply N.mod_small. exact Hb.
    + exfalso.
      pose proof (utf8_lead_pending_ok (Byte.to_N b)) as Hok.
      destruct (utf8_lead_high (Byte.to_N b) Hb) as [[k Hk]|(c & Hc & Hc')];
        destruct (utf8_lead (Byte.to_N b)) as [st' out]; cbn [fst snd] in *.
      * destruct (utf8_run_pending r st' k Hk Hok) as (c & Hc & Hc').
        rewrite Forall_forall in Hall.
        specialize (Hall c (in_or_app _ _ _ (or_intror Hc))). lia.
      * rewrite Forall_forall in Hall.
        specialize (Hall c (in_or_app _ _ _ (or_introl Hc))). lia.
Qed.

Lemma utf8_printable_is_ascii (p : Buffer) :
  isPrintable (toString_utf8 p) = true -> isPrintable (toString_ascii p) = true.
Proof.
  intros H. unfold isPrintable in *.
  assert (Hall : Forall (fun c => (c < 128)%N) (toString_utf8 p)).
  { rewrite Forall_forall. intros c Hc. rewrite forallb_forall in H.
    apply printable_code_ascii. now apply H. }
  destruct (@utf8_run_all_ascii p utf8_init eq_refl Hall) as [E1 E2].
  unfold toString_utf8 in H. now rewrite E2, <- E1.
Qed.

(** ** The payload kinds *)

Lemma classify_cases (p : Buffer) :
  (exists v, JSON_parse (toString_utf8 p) = Some v /\ classify p = (v, js "json"))
  \/ (JSON_parse (toString_utf8 p) = None /\ isPrintable (toString_ascii p) = true
      /\ classify p = (JStr (toString_ascii p), js "ascii"))
  \/ (JSON_parse (toString_utf8 p) = None /\ isPrintable (toString_ascii p) = false
      /\ isPrintable (toString_utf8 p) = false
      /\ classify p = (binary_descriptor p, js "binary")).
Proof.
  unfold classify.
  destruct (JSON_parse (toString_utf8 p)) as [v|]; [left; eauto|].
  right. destruct (isPrintable (toString_ascii p)) eqn:Ea; [left; auto|].
  right. destruct (isPrintable (toString_utf8 p)) eqn:Eu; [|auto].
  apply utf8_printable_is_ascii in Eu. congruence.
Qed.

(** X1. No frame is ever classified as [text]: a payload whose UTF-8 decoding
    is printable has only ASCII bytes, so the ASCII test before it has already
    accepted it. *)
Theorem payloadType_never_text (data : Buffer) :
  ~ classified_as (parseBinaryMessage data) "text".
Proof.
  unfold classified_as.
  destruct (Nat.lt_ge_cases 4 (length data)) as [Hlen|Hlen].
  - destruct (parseBinaryMessage_payload data Hlen) as [Hw Hc].
    destruct (Z.eq_dec (at_index data 1) 20) as [Hb|Hb].
    + destruct (Hw Hb) as [Ht _]. unfold classified_as in Ht. rewrite Ht.
      intros F. vm_compute in F. discriminate F.
    + destruct (Hc Hb) as [Ht _]. rewrite Ht.
      destruct (classify_cases (skipn 4 data))
        as [(v & _ & ->)|[(_ & _ & ->)|(_ & _ & _ & ->)]];
        intros F; vm_compute in F; discriminate F.
  - unfold parseBinaryMessage.
    destruct (length data <? 4)%nat eqn:E4; [discriminate|].
    replace (4 <? length data)%nat with false by (symmetry; apply Nat.ltb_ge; exact Hlen).
    discriminate.
Qed.

(** X2. Decoding sorts every buffer into exactly one kind, and the kind fixes
    the shape of the payload: no frame below four bytes; a bare header with a
    null payload; a widget update parsed by [parseWidgetUpdate] when the second
    header byte is 0x14; otherwise the JSON value when the payload is a JSON
    text, the string with high bits cleared when that string is printable, and
    the binary descriptor in all remaining cases. *)
Theorem payload_kinds (data : Buffer) :
  ((length data < 4)%nat /\ parseBinaryMessage data = {| header := None; payload := JNull |})
  \/ (length data = 4%nat
      /\ option_map payloadType (header (parseBinaryMessage data)) = Some None
      /\ payload (parseBinaryMessage data) = JNull)
  \/ ((4 < length data)%nat /\ at_index data 1 = 20%Z
      /\ classified_as (parseBinaryMessage data) "widget_update"
      /\ payload (parseBinaryMessage data) = parseWidgetUpdate (skipn 4 data))
  \/ ((4 < length data)%nat /\ at_index data 1 <> 20%Z
      /\ classified_as (parseBinaryMessage data) "json"
      /\ JSON_parse (toString_utf8 (skipn 4 data))
         = Some (payload (parseBinaryMessage data)))
  \/ ((4 < length data)%nat /\ at_index data 1 <> 20%Z
      /\ classified_as (parseBinaryMessage data) "ascii"
      /\ JSON_parse (toString_utf8 (skipn 4 data)) = None
      /\ isPrintable (toString_ascii (skipn 4 data)) = true
      /\ payload (parseBinaryMessage data) = JStr (toString_ascii (skipn 4 data)))
  \/ ((4 < length data)%nat /\ at_index data 1 <> 20%Z
      /\ classified_as (parseBinaryMessage data) "binary"
      /\ JSON_parse (toString_utf8 (skipn 4 data)) = None
      /\ isPrintable (toString_ascii (skipn 4 data)) = false
      /\ payload (parseBinaryMessage data) = binary_descriptor (skipn 4 data)).
Proof.
  destruct (Nat.lt_ge_cases (length data) 4) as [Hs|Hge].
  { left. split; [exact Hs | now apply parseBinaryMessage_short]. }
  right. destruct (Nat.eq_dec (length data) 4) as [H4|Hne].
  { left. split; [exact H4|]. unfold parseBinaryMessage. rewrite H4. split; reflexivity. }
  right. assert (Hlen : (4 < length data)%nat) by lia.
  destruct (parseBinaryMessage_payload data Hlen) as [Hw Hc].
  destruct (Z.eq_dec (at_index data 1) 20) as [Hb|Hb].
  { left. destruct (Hw Hb). auto. }
  right. destruct (Hc Hb) as [Ht Hv]. unfold classified_as. rewrite Ht, Hv.
  destruct (classify_cases (skipn 4 data))
    as [(v & Ev & ->)|[(En & Ea & ->)|(En & Ea & _ & ->)]]; cbn [fst snd].
  - left. auto.
  - right. left. repeat split; auto.
  - right. right. repeat split; auto.
Qed.

(** X3. The decoded payload is null exactly when the buffer has at most four
    bytes, or the frame is not a widget update and its payload is the JSON
    text [null]. *)
Theorem payload_null_cases (data : Buffer) :
  payload (parseBinaryMessage data) = JNull
  <-> ((length data <= 4)%nat
       \/ (at_index data 1 <> 20%Z
           /\ JSON_parse (toString_utf8 (skipn 4 data)) = Some JNull)).
Proof.
  destruct (Nat.lt_ge_cases 4 (length data)) as [Hlen|Hlen].
  - destruct (parseBinaryMessage_payload data Hlen) as [Hw Hc].
    destruct (Z.eq_dec (at_index data 1) 20) as [Hb|Hb].
    + destruct (Hw Hb) as [_ ->]. split.
      * unfold parseWidgetUpdate.
        destruct (length _ <? 2)%nat; intros F; discriminate F.
      * intros [F|[F _]]; [lia | contradiction].
    + destruct (Hc Hb) as [_ ->]. split.
      * intros Hn. right. split; [exact Hb|].
        destruct (classify_cases (skipn 4 data))
          as [(v & Ev & E)|[(_ & _ & E)|(_ & _ & _ & E)]];
          rewrite E in Hn; cbn [fst] in Hn; try discriminate Hn.
        now rewrite Ev, Hn.
      * intros [F|[_ Hn]]; [lia|]. unfold classify. now rewrite Hn.
  - split; [intros _; now left | intros _].
    unfold parseBinaryMessage.
    destruct (length data <? 4)%nat; [reflexivity|].
    replace (4 <? length data)%nat with false by (symmetry; apply Nat.ltb_ge; exact Hlen).
    reflexivity.
Qed.

(** ** Header fields *)

Lemma toString_hex_length (bs : Buffer) : length (toString_hex bs) = (2 * length bs)%nat.
Proof.
  unfold toString_hex. induction bs as [|b r IH]; [reflexivity|].
  cbn [flat_map hex_of_byte app length]. rewrite IH. lia.
Qed.

Lemma toString_hex_firstn (n : nat) (bs : Buffer) :
  toString_hex (firstn n bs) = firstn (2 * n) (toString_hex bs).
Proof.
  unfold toString_hex. revert bs. induction n as [|n IH]; intros bs; [reflexivity|].
  destruct bs as [|b r]; [reflexivity|].
  replace (2 * S n)%nat with (S (S (2 * n))) by lia.
  cbn [firstn flat_map hex_of_byte app]. now rewrite IH.
Qed.

(** X4. Every buffer of at least four bytes decodes to a header that records
    the buffer: its length, whether more than four bytes are present, the hex
    of its first four bytes, and the four bytes themselves, so that encoding
    the decoded header bytes without payload gives back those four bytes. *)
Theorem decoded_header_records_frame (data : Buffer) :
  (4 <= length data)%nat ->
  exists h,
    header (parseBinaryMessage data) = Some h
    /\ totalLength h = Z.of_nat (length data)
    /\ hasPayload h = (4 <? length data)%nat
    /\ Buffer_from_hex (headerHex h) = Some (firstn 4 data)
    /\ length (headerHex h) = 8%nat
    /\ createBinaryMessage JNull (byte1 h) (byte2 h) (byte3 h) (byte4 h) = firstn 4 data.
Proof.
  intros Hlen.
  destruct data as [|d0 [|d1 [|d2 [|d3 rest]]]]; cbn [length] in Hlen; try lia.
  unfold parseBinaryMessage.
  replace (length (d0 :: d1 :: d2 :: d3 :: rest) <? 4)%nat with false by reflexivity.
  match goal with
  | |- context [let '(pl, ptype) := ?X in _] => destruct X as [pl ptype]
  end.
  eexists. split; [reflexivity|].
  cbn [totalLength hasPayload headerHex byte1 byte2 byte3 byte4].
  split; [reflexivity|]. split; [reflexivity|].
  split; [apply Buffer_from_hex_toString_hex|].
  split; [reflexivity|].
  unfold createBinaryMessage, Buffer_from_array, at_index, byte_of_number.
  cbn [map nth firstn].
  repeat match goal with
         | |- context [(Z.of_N (Byte.to_N ?d) mod 256)%Z] =>
             rewrite (Z.mod_small (Z.of_N (Byte.to_N d)) 256)
               by (pose proof (Byte.to_N_bounded d); lia)
         end.
  rewrite !N2Z.id, !byte_of_N_of_to_N. reflexivity.
Qed.

Lemma decoded_header_records_frame_witness :
  exists h,
    header (parseBinaryMessage telemetry_frame) = Some h
    /\ totalLength h = 21%Z
    /\ hasPayload h = true
    /\ Buffer_from_hex (headerHex h) = Some [x00; x14; x00; x00]
    /\ length (headerHex h) = 8%nat
    /\ createBinaryMessage JNull (byte1 h) (byte2 h) (byte3 h) (byte4 h)
       = [x00; x14; x00; x00].
Proof.
  apply (decoded_header_records_frame telemetry_frame). vm_compute. lia.
Defined.

(** ** The binary descriptor *)

(** X5. The descriptor of a binary payload holds the full hex (two digits per
    byte), the byte count, and a preview that is the first
    [2 * min 50 length] digits of the hex: never more than 100 digits, and the
    whole hex when the payload has at most 50 bytes. *)
Theorem binary_descriptor_preview (payloadData : Buffer) :
  member (binary_descriptor payloadData) "hex" = JStr (toString_hex payloadData)
  /\ length (toString_hex payloadData) = (2 * length payloadData)%nat
  /\ member (binary_descriptor payloadData) "length"
     = JNum (Z.of_nat (length payloadData)) 0
  /\ member (binary_descriptor payloadData) "preview"
     = JStr (firstn (2 * Nat.min 50 (length payloadData)) (toString_hex payloadData))
  /\ Buffer_from_hex
       (firstn (2 * Nat.min 50 (length payloadData)) (toString_hex payloadData))
     = Some (firstn 50 payloadData).
Proof.
  split; [reflexivity|]. split; [apply toString_hex_length|]. split; [reflexivity|].
  assert (E : firstn (2 * Nat.min 50 (length payloadData)) (toString_hex payloadData)
              = toString_hex (firstn 50 payloadData)).
  { destruct (Nat.le_gt_cases (length payloadData) 50) as [Hle|Hgt].
    - rewrite Nat.min_r by exact Hle.
      rewrite (firstn_all2 (n:=50)) by exact Hle.
      apply firstn_all2. rewrite toString_hex_length. lia.
    - rewrite Nat.min_l by lia. symmetry. apply toString_hex_firstn. }
  split.
  - rewrite E.
    change (member (binary_descriptor payloadData) "preview")
      with (JStr (if (50 <? length payloadData)%nat
                  then toString_hex (firstn 50 payloadData)
                  else toString_hex payloadData)).
    destruct (Nat.ltb_spec 50 (length payloadData)) as [Hgt|Hle]; [reflexivity|].
    now rewrite (firstn_all2 (n:=50)) by exact Hle.
  - rewrite E. apply Buffer_from_hex_toString_hex.
Qed.

(** ** Round trips of payloads *)

Lemma ascii_Buffer_from_utf8 (s : jsstring) :
  Forall (fun c => (c < 128)%N) s -> Buffer_from_utf8 s = map byte_of_N s.
Proof.
  induction s as [|c r IH]; intros H; [reflexivity|].
  inversion H as [|? ? Hc Hr]; subst.
  cbn [Buffer_from_utf8 map].
  replace (is_high c) with false
    by (symmetry; unfold is_high; apply andb_false_iff; left; apply N.leb_gt; lia).
  replace (is_low c) with false
    by (symmetry; unfold is_low; apply andb_false_iff; left; apply N.leb_gt; lia).
  unfold utf8_of_cp. apply N.ltb_lt in Hc. rewrite Hc. cbn [app].
  now rewrite IH.
Qed.

Lemma ascii_bytes_decoded (s : jsstring) :
  Forall (fun c => (c < 128)%N) s ->
  toString_utf8 (map byte_of_N s) = s /\ toString_ascii (map byte_of_N s) = s.
Proof.
  unfold toString_utf8, toString_ascii.
  induction s as [|c r IH]; intros H; [now split|].
  inversion H as [|? ? Hc Hr]; subst. destruct (IH Hr) as [E1 E2].
  cbn [map utf8_run]. unfold utf8_step. cbn [utf8_init u_needed].
  rewrite byte_of_N_to_N by lia.
  unfold utf8_lead. replace (c <? 128)%N with true by (symmetry; now apply N.ltb_lt).
  cbn [app]. fold utf8_init. rewrite E1, E2. split; [reflexivity|]. f_equal.
  change 127%N with (N.ones 7). rewrite N.land_ones. apply N.mod_small. exact Hc.
Qed.

(** X6. A non-empty printable string sent as payload comes back from the
    decoder as that string, unless the string is itself a JSON text: then the
    decoder returns the JSON value instead (the string [123] comes back as
    the number 123).  The second header byte must not be 0x14. *)
Theorem string_payload_roundtrip (s : jsstring) (b1 b2 b3 b4 : Z) :
  s <> [] -> isPrintable s = true -> (b2 mod 256 <> 20)%Z ->
  payload (parseBinaryMessage (createBinaryMessage (JStr s) b1 b2 b3 b4))
  = match JSON_parse s with Some v => v | None => JStr s end
  /\ classified_as (parseBinaryMessage (createBinaryMessage (JStr s) b1 b2 b3 b4))
       match JSON_parse s with Some _ => "json" | None => "ascii" end.
Proof.
  intros Hne Hp Hb.
  assert (Hall : Forall (fun c => (c < 128)%N) s).
  { rewrite Forall_forall. intros c Hc. unfold isPrintable in Hp.
    rewrite forallb_forall in Hp. apply printable_code_ascii. now apply Hp. }
  destruct (ascii_bytes_decoded s Hall) as [Eu Ea].
  set (data := createBinaryMessage (JStr s) b1 b2 b3 b4).
  assert (Hd : data = byte_of_number b1 :: byte_of_number b2 :: byte_of_number b3
                        :: byte_of_number b4 :: map byte_of_N s).
  { subst data. unfold createBinaryMessage, Buffer_from_array. cbn [map app].
    now rewrite ascii_Buffer_from_utf8. }
  assert (Hlen : (4 < length data)%nat).
  { rewrite Hd. cbn [length]. rewrite length_map. destruct s; [contradiction|cbn; lia]. }
  assert (H2 : at_index data 1 <> 20%Z).
  { rewrite Hd. unfold at_index. cbn [nth]. now rewrite byte_of_number_value. }
  destruct (parseBinaryMessage_payload data Hlen) as [_ Hc].
  destruct (Hc H2) as [Ht Hv]. unfold classified_as. rewrite Ht, Hv.
  replace (skipn 4 data) with (map byte_of_N s) by (rewrite Hd; reflexivity).
  unfold classify. rewrite Eu, Ea, Hp.
  destruct (JSON_parse s); split; reflexivity.
Qed.

Lemma string_payload_roundtrip_witness :
  payload (parseBinaryMessage (createBinaryMessage (str "test-string") 1 2 3 4))
  = str "test-string"
  /\ payload (parseBinaryMessage (createBinaryMessage (str "123") 1 2 3 4)) = JNum 123 0.
Proof.
  split.
  - apply (string_payload_roundtrip (js "test-string") 1 2 3 4);
      [discriminate | reflexivity | vm_compute; discriminate].
  - apply (string_payload_roundtrip (js "123") 1 2 3 4);
      [discriminate | reflexivity | vm_compute; discriminate].
Defined.

(** ** Telemetry fields *)

Lemma to_N_zero (b : byte) : Byte.to_N b = 0%N -> b = x00.
Proof.
  intros H. pose proof (Byte.of_to_N b) as E. rewrite H in E.
  cbn in E. now inversion E.
Qed.

Lemma String_split_field (a r : Buffer) :
  zero_free a ->
  String_split 0 (toString_latin1 (a ++ x00 :: r))
  = toString_latin1 a :: String_split 0 (toString_latin1 r).
Proof.
  unfold toString_latin1. induction a as [|b a IH]; intros H; [reflexivity|].
  inversion H as [|? ? Hb Ha]; subst.
  cbn [app map String_split].
  destruct (N.eqb_spec (Byte.to_N b) 0) as [E|_]; [apply to_N_zero in E; contradiction|].
  now rewrite (IH Ha).
Qed.

Lemma String_split_last (a : Buffer) :
  zero_free a -> String_split 0 (toString_latin1 a) = [toString_latin1 a].
Proof.
  unfold toString_latin1. induction a as [|b a IH]; intros H; [reflexivity|].
  inversion H as [|? ? Hb Ha]; subst.
  cbn [map String_split].
  destruct (N.eqb_spec (Byte.to_N b) 0) as [E|_]; [apply to_N_zero in E; contradiction|].
  now rewrite (IH Ha).
Qed.

(** X7. A widget update frame (second header byte 0x14) whose payload is four
    null-delimited fields decodes to the first field as [deviceId], the third
    as [widgetId] and the fourth as [widgetValue]; the second field and
    anything after a further delimiter are ignored. *)
Theorem telemetry_fields (h0 h2 h3 : byte) (d x w v extra : Buffer) :
  zero_free d -> zero_free x -> zero_free w -> zero_free v ->
  (extra = [] \/ exists t, extra = x00 :: t) ->
  payload (parseBinaryMessage
             (h0 :: x14 :: h2 :: h3
                :: d ++ x00 :: x ++ x00 :: w ++ x00 :: v ++ extra))
  = JObj [ (js "widgetId", JStr (toString_latin1 w));
           (js "deviceId", JStr (toString_latin1 d));
           (js "widgetValue", JStr (toString_latin1 v)) ].
Proof.
  intros Hd Hx Hw Hv Hextra.
  set (p := d ++ x00 :: x ++ x00 :: w ++ x00 :: v ++ extra).
  assert (Hlen : (4 < length (h0 :: x14 :: h2 :: h3 :: p))%nat).
  { subst p. cbn [length]. rewrite length_app. cbn [length]. lia. }
  destruct (parseBinaryMessage_payload _ Hlen) as [Hwu _].
  destruct (Hwu eq_refl) as [_ ->].
  change (skipn 4 (h0 :: x14 :: h2 :: h3 :: p)) with p.
  unfold parseWidgetUpdate. subst p.
  rewrite (String_split_field d _ Hd), (String_split_field x _ Hx),
    (String_split_field w _ Hw).
  destruct Hextra as [->|[t ->]].
  - rewrite app_nil_r, (String_split_last v Hv). reflexivity.
  - rewrite (String_split_field v _ Hv).
    destruct (String_split 0 (toString_latin1 t)); reflexivity.
Qed.

Lemma telemetry_fields_witness :
  payload (parseBinaryMessage telemetry_frame)
  = JObj [ (js "widgetId", str "5"); (js "deviceId", str "89349");
           (js "widgetValue", str "241.29") ].
Proof.
  apply (telemetry_fields x00 x00 x00 (bytes "89349") (bytes "vw") (bytes "5")
           (bytes "241.29") []).
  - repeat constructor; discriminate.
  - repeat constructor; discriminate.
  - repeat constructor; discriminate.
  - repeat constructor; discriminate.
  - left. reflexivity.
Defined.

(** * Further properties of the driver *)

(** ** The loop cannot fail *)

Lemma never_throws_ret (A : Type) (a : A) : never_throws (ret a).
Proof. intros s. unfold ret. eauto. Qed.

Lemma never_throws_get : never_throws get.
Proof. intros s. unfold get. eauto. Qed.

Lemma never_throws_modify (g : State -> State) : never_throws (modify g).
Proof. intros s. unfold modify. eauto. Qed.

Lemma never_throws_bind (A B : Type) (c : M A) (k : A -> M B) :
  never_throws c -> (forall a, never_throws (k a)) -> never_throws (bind c k).
Proof.
  intros Hc Hk s. destruct (Hc s) as (a & s1 & E).
  rewrite (bind_normal k E). apply Hk.
Qed.

Ltac no_throw :=
  repeat first
    [ match goal with H : _ |- _ => solve [apply H] end
    | apply never_throws_ret
    | apply never_throws_get
    | apply never_throws_modify
    | apply never_throws_bind; [|intros ?]
    | match goal with
      | |- never_throws (match ?x with _ => _ end) => destruct x
      | |- never_throws (if ?x then _ else _) => destruct x
      end ].

Lemma listen_never_throws (d : Z) : never_throws (listen d).
Proof. unfold listen. no_throw. Qed.

Lemma sendMessage_never_throws (p : JSValue) (b1 b2 b3 : Z) (b4 : option Z) (d : string) :
  never_throws (sendMessage p b1 b2 b3 b4 d).
Proof. unfold sendMessage, ws_send. no_throw. Qed.

Lemma Date_now_never_throws : never_throws Date_now.
Proof. intros s. unfold Date_now. destruct (clock s); eauto. Qed.

Lemma keepalive_never_throws : never_throws keepalive.
Proof.
  pose proof listen_never_throws. pose proof sendMessage_never_throws.
  pose proof Date_now_never_throws.
  unfold keepalive. no_throw.
Qed.

(** X8. The steady-state loop cannot fail: neither [keepalive] nor [listen]
    throws, whatever arrives (malformed frames included) and whatever the
    clock reads, so every turn of the loop completes. *)
Theorem steady_state_never_throws (n : nat) (s : State) :
  fst (steady_state n s) = Normal tt
  /\ (forall d, exists m, fst (listen d s) = Normal m)
  /\ fst (keepalive s) = Normal tt.
Proof.
  assert (Hs : never_throws (steady_state n)).
  { pose proof listen_never_throws. pose proof keepalive_never_throws.
    induction n as [|n IH]; cbn [steady_state]; no_throw. }
  split; [|split].
  - destruct (Hs s) as ([] & s' & ->). reflexivity.
  - intros d. destruct (listen_never_throws d s) as (m & s' & ->).
    eexists. reflexivity.
  - destruct (keepalive_never_throws s) as ([] & s' & ->). reflexivity.
Qed.

(** ** The socket from [connect] to [finally] *)

Lemma listen_flag (d : Z) : preserves socket_flag (listen d).
Proof. unfold listen. preserve. Qed.

Lemma sendMessage_flag (p : JSValue) (b1 b2 b3 : Z) (b4 : option Z) (d : string) :
  preserves socket_flag (sendMessage p b1 b2 b3 b4 d).
Proof.
  intros s. unfold socket_flag. destruct (ws s) as [k|] eqn:H.
  - destruct b4 as [b4|].
    + rewrite (@sendMessage_explicit _ _ _ _ _ _ _ _ H). reflexivity.
    + rewrite (@sendMessage_auto _ _ _ _ _ _ _ H). reflexivity.
  - rewrite sendMessage_no_socket by exact H. cbn [snd]. now rewrite H.
Qed.

Lemma Date_now_flag : preserves socket_flag Date_now.
Proof. intros s. unfold Date_now. destruct (clock s); reflexivity. Qed.

Lemma keepalive_flag : preserves socket_flag keepalive.
Proof.
  pose proof listen_flag. pose proof sendMessage_flag. pose proof Date_now_flag.
  unfold keepalive. preserve.
Qed.

Lemma handshake_flag (ul : jsstring -> jsstring) : preserves socket_flag (handshake ul).
Proof.
  pose proof listen_flag. pose proof sendMessage_flag. pose proof Date_now_flag.
  unfold handshake, issueInitialization, login, queryDevices, requestChargingStatus,
    extractWidgetMappings, keepalive.
  preserve.
Qed.

Lemma steady_state_flag (n : nat) : preserves socket_flag (steady_state n).
Proof.
  pose proof listen_flag. pose proof keepalive_flag.
  induction n as [|n IH]; cbn [steady_state]; preserve.
Qed.

(** X9. From a successful [connect] on, the socket is closed exactly when
    [run] is over: closed when [run] has returned or thrown (the [finally]
    block), open while the loop is still listening. *)
Theorem run_socket_lifecycle (ul : jsstring -> jsstring) (n : nat) (justScan : bool)
    (s : State) :
  connection s = Opens ->
  socket_flag (snd (run ul n justScan s))
  = match fst (run ul n justScan s) with
    | Normal Listening => Some false
    | _ => Some true
    end.
Proof.
  intros Hc.
  set (sc := set_ws (Some {| sent := []; closed := false |}) s).
  assert (Hr : run ul n justScan s
               = match handshake ul sc with
                 | (Throw e, s') => (Throw e, close_ws s')
                 | (Normal _, s') =>
                     if justScan then (Normal Returned, close_ws s')
                     else match steady_state n s' with
                          | (Throw e, s'') => (Throw e, close_ws s'')
                          | (Normal _, s'') => (Normal Listening, s'')
                          end
                 end).
  { unfold run, connect, bind, get. rewrite Hc. reflexivity. }
  assert (Hclose : forall s', socket_flag s' = Some false ->
                              socket_flag (close_ws s') = Some true).
  { intros s'. unfold socket_flag, close_ws.
    destruct (ws s') as [k|]; [reflexivity | discriminate]. }
  pose proof (handshake_flag ul sc) as Hh.
  change (socket_flag sc) with (Some false) in Hh.
  rewrite Hr. destruct (handshake ul sc) as [[[]|e] s1]; cbn [snd] in Hh.
  - destruct justScan; cbn [fst snd]; [now apply Hclose|].
    pose proof (steady_state_flag n s1) as Hs.
    destruct (steady_state n s1) as [[[]|e] s2]; cbn [fst snd] in *.
    + congruence.
    + apply Hclose. congruence.
  - cbn [fst snd]. now apply Hclose.
Qed.

Lemma run_socket_lifecycle_witness :
  socket_flag (snd (run (fun x => x) 2 false monitoring)) = Some false
  /\ socket_flag (snd (run (fun x => x) 0 true monitoring)) = Some true.
Proof.
  split.
  - apply (run_socket_lifecycle (fun x => x) 2 false monitoring). reflexivity.
  - apply (run_socket_lifecycle (fun x => x) 0 true monitoring). reflexivity.
Defined.

(** X10. When [connect] fails, [run] does not reach its [try] block.  If the
    HTTP request fails, [run] returns and the session is left as it was.  If
    the socket reports an error, [run] throws that error, and the socket that
    was created is never closed. *)
Theorem run_connect_failure (ul : jsstring -> jsstring) (n : nat) (justScan : bool)
    (s : State) :
  (connection s = HttpFails -> run ul n justScan s = (Normal Returned, s))
  /\ (forall message,
         connection s = SocketFails message ->
         run ul n justScan s
         = (Throw (Error message), set_ws (Some {| sent := []; closed := false |}) s)).
Proof.
  split.
  - intros H. unfold run, connect, bind, get. rewrite H. reflexivity.
  - intros message H. unfold run, connect, bind, get. rewrite H. reflexivity.
Qed.

Lemma run_connect_failure_witness :
  run (fun x => x) 3 false (new_session None None [] [] HttpFails)
  = (Normal Returned, new_session None None [] [] HttpFails)
  /\ fst (run (fun x => x) 3 false (new_session None None [] [] (SocketFails (js "refused"))))
     = Throw (Error (js "refused")).
Proof.
  split.
  - apply (run_connect_failure (fun x => x) 3 false (new_session None None [] [] HttpFails)).
    reflexivity.
  - rewrite (proj2 (run_connect_failure (fun x => x) 3 false
                      (new_session None None [] [] (SocketFails (js "refused"))))
               (js "refused") eq_refl).
    reflexivity.
Defined.

(** ** The keepalive period *)

(** X11. [keepalive] compares the clock with the timer.  Less than 15000 ms
    after the timer was set it does nothing: no frame, no [listen], counter and
    timer unchanged.  From 15000 ms on it sets the timer to the next clock
    reading and, when the socket exists, sends the frame 00 06 00 followed by
    the counter, adds one to the counter and consumes one arrival through
    [listen]; without a socket only the timer changes. *)
Theorem keepalive_period_law (s : State) :
  (hd 0%Z (clock s) - keepaliveTimer s < 15000)%Z /\
    sent_frames (snd (keepalive s)) = sent_frames s
    /\ messageCounter (snd (keepalive s)) = messageCounter s
    /\ inbound (snd (keepalive s)) = inbound s
    /\ keepaliveTimer (snd (keepalive s)) = keepaliveTimer s
  \/ (15000 <= hd 0%Z (clock s) - keepaliveTimer s)%Z /\
    keepaliveTimer (snd (keepalive s)) = hd 0%Z (tl (clock s))
    /\ (if has_socket s
        then sent_frames (snd (keepalive s))
             = sent_frames s ++ [[x00; x06; x00; byte_of_number (messageCounter s)]]
             /\ messageCounter (snd (keepalive s)) = (messageCounter s + 1)%Z
             /\ inbound (snd (keepalive s)) = tl (inbound s)
        else sent_frames (snd (keepalive s)) = []
             /\ messageCounter (snd (keepalive s)) = messageCounter s
             /\ inbound (snd (keepalive s)) = inbound s).
Proof.
  destruct s as [u p w us dv dp mc wi wn kt em inb cl cn].
  unfold keepalive, Date_now, sendMessage, listen, ws_send, bind, get, modify, ret,
    sent_frames, has_socket.
  cbn [clock keepaliveTimer ws inbound messageCounter set_clock hd tl fst snd].
  destruct cl as [|t1 cl]; cbn [hd tl fst snd keepaliveTimer clock set_clock];
    match goal with
    | |- context [(15000 <=? ?e)%Z] => destruct (Z.leb_spec 15000 e) as [Hge|Hlt]
    end;
    [right; split; [exact Hge|] | left; split; [exact Hlt|]
    |right; split; [exact Hge|] | left; split; [exact Hlt|]];
    try destruct cl as [|t2 cl]; destruct w as [k|]; destruct inb as [|[data|] inb];
    cbn; repeat split.
Qed.

(** ** The order of the requests *)

Lemma send_exact (s : State) (p : JSValue) (b1 b2 b3 : Z) (b4 : option Z) (d : string) :
  has_socket s = true ->
  exists s0,
    sendMessage p b1 b2 b3 b4 d s = (Normal tt, s0)
    /\ has_socket s0 = true /\ devicePages s0 = devicePages s
    /\ inbound s0 = inbound s
    /\ sent_frames s0
       = sent_frames s
           ++ [createBinaryMessage p b1 b2 b3
                 (match b4 with Some b => b | None => messageCounter s end)]
    /\ messageCounter s0
       = (messageCounter s + match b4 with Some _ => 0 | None => 1 end)%Z.
Proof.
  intros Hs. destruct (has_socket_ws s Hs) as [k Hk].
  destruct b4 as [b4|].
  - rewrite (@sendMessage_explicit _ _ _ _ _ _ _ _ Hk).
    eexists. split; [reflexivity|].
    unfold sent_frames, has_socket. cbn. rewrite Hk.
    repeat split; try reflexivity. lia.
  - rewrite (@sendMessage_auto _ _ _ _ _ _ _ Hk).
    eexists. split; [reflexivity|].
    unfold sent_frames, has_socket. cbn. rewrite Hk. repeat split; reflexivity.
Qed.

Lemma send_listen_exact (arrivals : list Arrival) (i : nat) (s : State)
    (p : JSValue) (b1 b2 b3 : Z) (b4 : option Z) (d : string) (dur : Z) :
  at_stage arrivals i s ->
  exists s1,
    at_stage arrivals (S i) s1
    /\ sent_frames s1
       = sent_frames s
           ++ [createBinaryMessage p b1 b2 b3
                 (match b4 with Some b => b | None => messageCounter s end)]
    /\ messageCounter s1
       = (messageCounter s + match b4 with Some _ => 0 | None => 1 end)%Z
    /\ forall (B : Type) (K : ParsedMessage -> M B),
         bind (sendMessage p b1 b2 b3 b4 d) (fun _ => bind (listen dur) K) s
         = K (arrival_message (nth i arrivals Silence)) s1.
Proof.
  intros (Hs & Hp & Hi).
  destruct (send_exact s p b1 b2 b3 b4 d Hs) as (s0 & E & Ks & Kp & Ki & Kf & Kc).
  exists (set_inbound (tl (inbound s0)) s0).
  split; [|split; [|split]].
  - unfold at_stage, has_socket in *. cbn.
    repeat split; [exact Ks | congruence | rewrite Ki, Hi; apply tl_skipn].
  - exact Kf.
  - exact Kc.
  - intros B K. rewrite (bind_normal _ E).
    unfold bind at 1. rewrite (listen_socket dur s0 Ks).
    now rewrite Ki, Hi, hd_skipn.
Qed.

Lemma frame_headers_sent (s s1 : State) (p : JSValue) (b1 b2 b3 b4 : Z) :
  sent_frames s1 = sent_frames s ++ [createBinaryMessage p b1 b2 b3 b4] ->
  frame_headers s1 = frame_headers s ++ [Buffer_from_array [b1; b2; b3; b4]].
Proof.
  intros H. unfold frame_headers. rewrite H, map_app. cbn [map]. f_equal. f_equal.
  destruct (createBinaryMessage_shape p b1 b2 b3 b4) as [rest ->]. reflexivity.
Qed.

Lemma progress_step (arrivals : list Arrival) (i : nat) (s s1 : State)
    (p : JSValue) (b1 b2 b3 : Z) (b4 : option Z) :
  progress arrivals i s ->
  at_stage arrivals (S i) s1 ->
  sent_frames s1
    = sent_frames s
        ++ [createBinaryMessage p b1 b2 b3
              (match b4 with Some b => b | None => messageCounter s end)] ->
  messageCounter s1 = (messageCounter s + match b4 with Some _ => 0 | None => 1 end)%Z ->
  firstn (S i) handshake_headers
    = firstn i handshake_headers
        ++ [Buffer_from_array
              [b1; b2; b3; match b4 with Some b => b | None => Z.of_nat (i - 2) end]] ->
  Z.of_nat (S i - 2) = (Z.of_nat (i - 2) + match b4 with Some _ => 0 | None => 1 end)%Z ->
  progress arrivals (S i) s1.
Proof.
  intros (Ha & Hf & Hc) Ha1 Hs Hm Hh Hn.
  split; [exact Ha1|]. split.
  - rewrite (frame_headers_sent s s1 p b1 b2 b3 _ Hs), Hf, Hh.
    destruct b4; [reflexivity | now rewrite Hc].
  - rewrite Hm, Hc. now rewrite Hn.
Qed.

Lemma init_progress (arrivals : list Arrival) (s : State) :
  progress arrivals 0 s ->
  exists res s1, issueInitialization s = (res, s1) /\ progress arrivals 1 s1.
Proof.
  intros H. unfold issueInitialization.
  destruct (send_listen_exact arrivals 0 s initPayload 1 48 0 (Some 1%Z) "INIT" 10
              (proj1 H)) as (s1 & H1 & Hf & Hc & E).
  rewrite E.
  assert (Hp : progress arrivals 1 s1).
  { apply (progress_step arrivals 0 s s1 initPayload 1 48 0 (Some 1%Z) H H1 Hf Hc);
      reflexivity. }
  destruct (payload (arrival_message (nth 0 arrivals Silence)));
    do 2 eexists; (split; [reflexivity | exact Hp]).
Qed.

Lemma login_progress (ul : jsstring -> jsstring) (arrivals : list Arrival) (s : State) :
  progress arrivals 1 s ->
  exists res s1,
    login ul s = (res, s1)
    /\ ((res = Normal tt /\ progress arrivals 2 s1)
        \/ ((exists e, res = Throw e) /\ (progress arrivals 1 s1 \/ progress arrivals 2 s1))).
Proof.
  intros H. unfold login. rewrite bind_get.
  destruct (username s) as [u|]; [destruct (password s) as [p|]|].
  - match goal with
    | |- context [sendMessage ?x 0 2 0 (Some 3%Z) "LOGIN"] =>
        destruct (send_listen_exact arrivals 1 s x 0 2 0 (Some 3%Z) "LOGIN" 10 (proj1 H))
          as (s1 & H1 & Hf & Hc & E);
        assert (Hp : progress arrivals 2 s1)
          by (apply (progress_step arrivals 1 s s1 x 0 2 0 (Some 3%Z) H H1 Hf Hc);
              reflexivity)
    end.
    rewrite E.
    destruct (payload (arrival_message (nth 1 arrivals Silence)));
      do 2 eexists; (split; [reflexivity|]);
      first [ left; split; [reflexivity | exact Hp]
            | right; split; [eexists; reflexivity | right; exact Hp] ].
  - do 2 eexists. split; [reflexivity|]. right. split; [eexists; reflexivity | now left].
  - do 2 eexists. split; [reflexivity|]. right. split; [eexists; reflexivity | now left].
Qed.

Lemma query_progress (arrivals : list Arrival) (s : State) :
  progress arrivals 2 s ->
  exists res s1, queryDevices s = (res, s1) /\ progress arrivals 3 s1.
Proof.
  intros H. unfold queryDevices.
  destruct (send_listen_exact arrivals 2 s deviceQuery 1 27 0 None "DEVICE QUERY" 10
              (proj1 H)) as (s1 & H1 & Hf & Hc & E).
  rewrite E. clear E.
  assert (Hp : progress arrivals 3 s1).
  { apply (progress_step arrivals 2 s s1 deviceQuery 1 27 0 None H H1 Hf Hc);
      reflexivity. }
  match goal with
  | |- context [bind ?c ?k s1] => set (rest := bind c k)
  end.
  assert (Ks : preserves ws rest) by (subst rest; preserve).
  assert (Kc : preserves messageCounter rest) by (subst rest; preserve).
  assert (Kp : preserves devicePages rest) by (subst rest; preserve).
  assert (Ki : preserves inbound rest) by (subst rest; preserve).
  specialize (Ks s1). specialize (Kc s1). specialize (Kp s1). specialize (Ki s1).
  destruct (rest s1) as [res s2]. cbn [snd] in *.
  exists res, s2. split; [reflexivity|].
  destruct Hp as ((Hs & Hpg & Hin) & Hfr & Hcn).
  unfold progress, at_stage, frame_headers, sent_frames, has_socket in *.
  rewrite Ks, Kc, Kp, Ki. auto.
Qed.

Lemma charging_progress (arrivals : list Arrival) (s : State) (deviceId : JSValue) :
  progress arrivals 3 s ->
  exists res s2,
    requestChargingStatus deviceId s = (res, s2)
    /\ (((exists v, res = Normal v) /\ progress arrivals 5 s2)
        \/ ((exists e, res = Throw e) /\ s2 = s)).
Proof.
  intros H. unfold requestChargingStatus. rewrite bind_get.
  destruct (has_socket_ws s (proj1 (proj1 H))) as [k Hk]. rewrite Hk.
  unfold bind at 1, lift at 1.
  destruct (String_of deviceId) as [text|e].
  2:{ do 2 eexists. split; [reflexivity|]. right. split; [eauto | reflexivity]. }
  destruct (send_listen_exact arrivals 3 s (JStr text) 0 73 1 None
              "DEVICE NUMBER" 10 (proj1 H)) as (s1 & H1 & Hf1 & Hc1 & E1).
  rewrite E1.
  assert (Hp1 : progress arrivals 4 s1).
  { apply (progress_step arrivals 3 s s1 (JStr text) 0 73 1 None
             H H1 Hf1 Hc1); reflexivity. }
  unfold bind at 1, lift at 1.
  match goal with
  | |- context [sendMessage ?x 1 4 1 None "DEVICE PAGE"] =>
      destruct (send_listen_exact arrivals 4 s1 x 1 4 1 None "DEVICE PAGE" 10 H1)
        as (s2 & H2 & Hf2 & Hc2 & E2);
      assert (Hp2 : progress arrivals 5 s2)
        by (apply (progress_step arrivals 4 s1 s2 x 1 4 1 None Hp1 H2 Hf2 Hc2);
            reflexivity)
  end.
  rewrite E2. do 2 eexists. split; [reflexivity|]. left. split; [eauto | exact Hp2].
Qed.

Lemma only_keepalives_preserves {A : Type} (c : M A) :
  preserves ws c -> only_keepalives c.
Proof.
  intros H s. exists []. split; [|constructor].
  unfold frame_headers, sent_frames. now rewrite (H s), app_nil_r.
Qed.

Lemma only_keepalives_bind {A B : Type} (c : M A) (k : A -> M B) :
  only_keepalives c -> (forall a, only_keepalives (k a)) -> only_keepalives (bind c k).
Proof.
  intros Hc Hk s. unfold bind. destruct (Hc s) as (l1 & E1 & F1).
  destruct (c s) as [[a|e] s1]; cbn [snd] in *.
  - destruct (Hk a s1) as (l2 & E2 & F2). exists (l1 ++ l2). split.
    + now rewrite E2, E1, app_assoc.
    + apply Forall_app. now split.
  - exists l1. now split.
Qed.

Lemma keepalive_only_keepalives : only_keepalives keepalive.
Proof.
  intros s. destruct s as [u p w us dv dp mc wi wn kt em inb cl cn].
  unfold keepalive, Date_now, sendMessage, listen, ws_send, bind, get, modify, ret,
    frame_headers, sent_frames.
  cbn [clock keepaliveTimer ws inbound messageCounter set_clock hd tl fst snd].
  destruct cl as [|t1 cl]; cbn [hd tl fst snd keepaliveTimer clock set_clock];
    match goal with
    | |- context [(15000 <=? ?e)%Z] => destruct (15000 <=? e)%Z
    end;
    try destruct cl as [|t2 cl]; destruct w as [k|]; destruct inb as [|[data|] inb];
    cbn;
    first [ exists []; split; [try rewrite app_nil_r; reflexivity | constructor]
          | eexists; rewrite map_app; split;
            [reflexivity | constructor; [eexists; reflexivity | constructor]] ].
Qed.

Lemma steady_state_only_keepalives (n : nat) : only_keepalives (steady_state n).
Proof.
  induction n as [|n IH]; cbn [steady_state].
  - apply only_keepalives_preserves. preserve.
  - apply only_keepalives_bind; [exact keepalive_only_keepalives|]. intros _.
    apply only_keepalives_bind; [|intros _; exact IH].
    apply only_keepalives_preserves. unfold listen. preserve.
Qed.

Lemma page_only_keepalives (page : JSValue) :
  only_keepalives
    (bind (modify (fun s => set_devicePages (devicePages s ++ [page]) s))
       (fun _ =>
          bind get
            (fun s' =>
               bind (extractWidgetMappings 0 (nth 0 (devicePages s') JUndefined))
                 (fun _ => keepalive)))).
Proof.
  apply only_keepalives_bind; [apply only_keepalives_preserves; preserve|]. intros _.
  apply only_keepalives_bind; [apply only_keepalives_preserves; preserve|]. intros s'.
  apply only_keepalives_bind; [|intros _; exact keepalive_only_keepalives].
  apply only_keepalives_preserves. unfold extractWidgetMappings. preserve.
Qed.

Lemma progress_in_order (arrivals : list Arrival) (i : nat) (s : State) :
  (i <= 5)%nat -> progress arrivals i s -> sent_in_order i s.
Proof.
  intros Hi (_ & Hf & _). split; [exact Hi|]. exists []. split; [|split].
  - now rewrite app_nil_r.
  - constructor.
  - reflexivity.
Qed.

(** The handshake sends its five requests in order, and it ends normally only
    when all five are out. *)
Lemma handshake_order (ul : jsstring -> jsstring) (arrivals : list Arrival) (s : State) :
  progress arrivals 0 s ->
  exists res s' k,
    handshake ul s = (res, s') /\ sent_in_order k s'
    /\ ((k < 5)%nat -> exists e, res = Throw e).
Proof.
  intros H0. unfold handshake.
  destruct (init_progress arrivals s H0) as (r1 & s1 & E1 & H1).
  destruct r1 as [[]|e1].
  2:{ rewrite (bind_throw _ E1). exists (Throw e1), s1, 1%nat.
      split; [reflexivity|]. split; [apply (progress_in_order arrivals); [lia | exact H1]|].
      eauto. }
  rewrite (bind_normal _ E1).
  destruct (login_progress ul arrivals s1 H1) as (r2 & s2 & E2 & [[-> H2]|[[e2 ->] H2]]).
  2:{ rewrite (bind_throw _ E2). destruct H2 as [H2|H2].
      - exists (Throw e2), s2, 1%nat. split; [reflexivity|].
        split; [apply (progress_in_order arrivals); [lia | exact H2]|]. eauto.
      - exists (Throw e2), s2, 2%nat. split; [reflexivity|].
        split; [apply (progress_in_order arrivals); [lia | exact H2]|]. eauto. }
  rewrite (bind_normal _ E2).
  destruct (query_progress arrivals s2 H2) as (r3 & s3 & E3 & H3).
  assert (K3 : sent_in_order 3 s3) by (apply (progress_in_order arrivals); [lia | exact H3]).
  destruct r3 as [[]|e3].
  2:{ rewrite (bind_throw _ E3). exists (Throw e3), s3, 3%nat.
      split; [reflexivity|]. split; [exact K3|]. eauto. }
  rewrite (bind_normal _ E3). rewrite bind_get.
  destruct (devices s3) as [|device rest].
  { do 2 eexists. exists 3%nat. split; [reflexivity|]. split; [exact K3|]. eauto. }
  unfold bind at 1. unfold lift.
  destruct (get_prop device "deviceId") as [deviceId|e4].
  2:{ do 2 eexists. exists 3%nat. split; [reflexivity|]. split; [exact K3|]. eauto. }
  assert (Hgo : exists res s' k,
             bind (requestChargingStatus deviceId)
               (fun page =>
                  bind (modify (fun s => set_devicePages (devicePages s ++ [page]) s))
                    (fun _ =>
                       bind get
                         (fun s' =>
                            bind (extractWidgetMappings 0 (nth 0 (devicePages s') JUndefined))
                              (fun _ => keepalive)))) s3
             = (res, s') /\ sent_in_order k s'
               /\ ((k < 5)%nat -> exists e, res = Throw e)).
  { destruct (charging_progress arrivals s3 deviceId H3)
      as (r5 & s5 & E5 & [[[page ->] H5]|[[e5 ->] ->]]).
    2:{ rewrite (bind_throw _ E5). exists (Throw e5), s3, 3%nat.
        split; [reflexivity|]. split; [exact K3 | eauto]. }
    rewrite (bind_normal _ E5).
    destruct (page_only_keepalives page s5) as (kas & Ek & Fk).
    match goal with |- context [bind ?c ?k s5] => destruct (bind c k s5) as [res s'] end.
    cbn [snd] in Ek. exists res, s', 5%nat. split; [reflexivity|].
    split; [|lia].
    split; [lia|]. exists kas. split; [|split; [exact Fk | lia]].
    rewrite Ek. f_equal. exact (proj1 (proj2 H5)). }
  destruct Hgo as (res & s' & k & Hgo & K5 & T5).
  destruct deviceId;
    try (rewrite Hgo; exists res, s', k; split; [reflexivity|]; split; [exact K5 | exact T5]).
  do 2 eexists. exists 3%nat. split; [reflexivity|]. split; [exact K3|]. eauto.
Qed.

(** X12. Whatever the server answers and however [run] ends, the frames that
    a fresh session has put on the socket are the first [k] of the five
    handshake requests, in the order Init (01 30 00 01), Login (00 02 00 03),
    Device Query (01 1b 00 00), Device Select (00 49 01 01), Device Page
    (01 04 01 02), followed by keepalive frames (00 06 00 and a counter byte)
    only.  No keepalive frame precedes the fifth request, and [run] can end
    without an error only after all five requests. *)
Theorem run_request_order (ul : jsstring -> jsstring) (n : nat) (justScan : bool)
    (u p : option jsstring) (arrivals : list Arrival) (clock : list Z) :
  exists k,
    sent_in_order k (snd (run ul n justScan (new_session u p arrivals clock Opens)))
    /\ ((k < 5)%nat ->
        exists e, fst (run ul n justScan (new_session u p arrivals clock Opens)) = Throw e).
Proof.
  set (s := new_session u p arrivals clock Opens).
  set (sc := set_ws (Some {| sent := []; closed := false |}) s).
  assert (Hr : run ul n justScan s
               = match handshake ul sc with
                 | (Throw e, s') => (Throw e, close_ws s')
                 | (Normal _, s') =>
                     if justScan then (Normal Returned, close_ws s')
                     else match steady_state n s' with
                          | (Throw e, s'') => (Throw e, close_ws s'')
                          | (Normal _, s'') => (Normal Listening, s'')
                          end
                 end).
  { reflexivity. }
  assert (Hclose : forall k s', sent_in_order k s' -> sent_in_order k (close_ws s')).
  { intros k s' H. unfold sent_in_order, frame_headers, sent_frames, close_ws in H |- *.
    destruct (ws s') as [sk|] eqn:Hw; [exact H | rewrite Hw; exact H]. }
  assert (H0 : progress arrivals 0 sc).
  { repeat split. }
  destruct (handshake_order ul arrivals sc H0) as (res & s1 & k & E & Hk & Hthrow).
  rewrite Hr, E.
  destruct res as [[]|e].
  2:{ exists k. cbn [fst snd]. split; [now apply Hclose | eauto]. }
  assert (k = 5%nat) as ->.
  { destruct Hk as [Hk _]. destruct (Nat.eq_dec k 5) as [|Hne]; [assumption|].
    destruct Hthrow as [e F]; [lia | discriminate F]. }
  exists 5%nat. destruct justScan.
  { cbn [fst snd]. split; [now apply Hclose | lia]. }
  destruct (steady_state_only_keepalives n s1) as (kas & Ek & Fk).
  assert (K : sent_in_order 5 (snd (steady_state n s1))).
  { destruct Hk as (_ & kas0 & E0 & F0 & _). split; [lia|].
    exists (kas0 ++ kas). split; [|split; [|lia]].
    - now rewrite Ek, E0, app_assoc.
    - apply Forall_app. now split. }
  destruct (steady_state n s1) as [[[]|e] s2]; cbn [fst snd] in *.
  - split; [exact K | lia].
  - split; [now apply Hclose | lia].
Qed.

(** ** The device list *)

Lemma send_listen_next (s : State) (p : JSValue) (b1 b2 b3 : Z) (b4 : option Z)
    (d : string) (dur : Z) :
  has_socket s = true ->
  exists s1,
    has_socket s1 = true /\ devices s1 = devices s /\ user s1 = user s
    /\ forall (B : Type) (K : ParsedMessage -> M B),
         bind (sendMessage p b1 b2 b3 b4 d) (fun _ => bind (listen dur) K) s
         = K (arrival_message (hd Silence (inbound s))) s1.
Proof.
  intros Hs.
  destruct (send_exact s p b1 b2 b3 b4 d Hs) as (s0 & E & Ks & _ & Ki & _ & _).
  assert (Kd : preserves devices (sendMessage p b1 b2 b3 b4 d))
    by (unfold sendMessage, ws_send; preserve).
  assert (Ku : preserves user (sendMessage p b1 b2 b3 b4 d))
    by (unfold sendMessage, ws_send; preserve).
  specialize (Kd s). specialize (Ku s). rewrite E in Kd, Ku. cbn [snd] in Kd, Ku.
  exists (set_inbound (tl (inbound s0)) s0). split; [exact Ks|].
  split; [exact Kd|]. split; [exact Ku|].
  intros B K. rewrite (bind_normal _ E).
  unfold bind at 1. rewrite (listen_socket dur s0 Ks). now rewrite Ki.
Qed.

Lemma device_step_cases (d : JSValue) (s : State) :
  (exists e, device_step d s = (Throw e, s))
  \/ (exists v,
         get_index d 1 = Normal v
         /\ ((exists e, device_step d s = (Throw e, set_devices (devices s ++ [v]) s))
             \/ device_step d s = (Normal tt, set_devices (devices s ++ [v]) s))).
Proof.
  unfold device_step, bind, lift, modify, ret.
  destruct (get_index d 1) as [v|e]; [|left; eauto].
  right. exists v. split; [reflexivity|].
  destruct (get_prop v "name") as [x|e]; [|left; eauto].
  destruct (String_of x) as [tx|e]; [|left; eauto].
  destruct (get_prop v "deviceId") as [y|e]; [|left; eauto].
  destruct (String_of y) as [ty|e]; [|left; eauto].
  now right.
Qed.

Lemma device_loop_extends (items : list JSValue) (s : State) :
  exists l, devices (snd (for_of items device_step s)) = devices s ++ l.
Proof.
  revert s. induction items as [|d items IH]; intros s.
  - exists []. cbn. now rewrite app_nil_r.
  - cbn [for_of].
    destruct (device_step_cases d s) as [[e E]|(v & _ & [[e E]|E])].
    + rewrite (bind_throw _ E). exists []. cbn. now rewrite app_nil_r.
    + rewrite (bind_throw _ E). exists [v]. reflexivity.
    + rewrite (bind_normal _ E).
      destruct (IH (set_devices (devices s ++ [v]) s)) as [l Hl].
      exists (v :: l). rewrite Hl. cbn [devices set_devices].
      now rewrite <- app_assoc.
Qed.

Lemma device_step_entry (d : JSValue) (s : State) :
  device_entry d ->
  device_step d s = (Normal tt, set_devices (devices s ++ [details d]) s).
Proof.
  intros (Hu & Hn & Hname & Hid). unfold details in *.
  unfold device_step, bind, lift, modify, ret.
  destruct (get_index d 1) as [v|e]; [|now contradiction Hu].
  unfold converts in Hname, Hid.
  assert (Hp : forall k,
             get_prop v k
             = Normal (match get_prop v k with Normal x => x | Throw _ => JUndefined end)).
  { intros k. destruct v; try reflexivity; [now contradiction Hu | now contradiction Hn]. }
  rewrite (Hp "name"%string).
  destruct (String_of _) as [tx|e] in Hname |- *; [|discriminate Hname].
  rewrite (Hp "deviceId"%string).
  destruct (String_of _) as [ty|e] in Hid |- *; [|discriminate Hid].
  reflexivity.
Qed.

Lemma device_loop_entries (items : list JSValue) (s : State) :
  Forall device_entry items ->
  exists s',
    for_of items device_step s = (Normal tt, s')
    /\ devices s' = devices s ++ map details items.
Proof.
  intros H. revert s. induction H as [|d items Hd _ IH]; intros s.
  - exists s. split; [reflexivity|]. cbn. now rewrite app_nil_r.
  - cbn [for_of]. rewrite (bind_normal _ (device_step_entry d s Hd)).
    destruct (IH (set_devices (devices s ++ [details d]) s)) as (s' & E & Hs').
    exists s'. split; [exact E|]. rewrite Hs'. cbn [devices set_devices map].
    now rewrite <- app_assoc.
Qed.

(** X13. [queryDevices] only ever appends to [devices]: whatever the answer
    and even when it throws, the devices known before are kept, in place.
    When the answer has an array [docs] whose entries all carry details (a
    second component that is neither undefined nor null) with a [name] and a
    [deviceId] that [String] converts for the log line, the call returns and
    has appended exactly those details, in the order of [docs]. *)
Theorem queryDevices_appends (s : State) :
  has_socket s = true ->
  (exists l, devices (snd (queryDevices s)) = devices s ++ l)
  /\ (forall items,
         get_prop (payload (arrival_message (hd Silence (inbound s)))) "docs"
         = Normal (JArr items) ->
         Forall device_entry items ->
         fst (queryDevices s) = Normal tt
         /\ devices (snd (queryDevices s)) = devices s ++ map details items).
Proof.
  intros Hs. unfold queryDevices.
  destruct (send_listen_next s deviceQuery 1 27 0 None "DEVICE QUERY" 10 Hs)
    as (s1 & _ & Hd & _ & E).
  rewrite E. clear E. rewrite <- Hd.
  set (answer := payload (arrival_message (hd Silence (inbound s)))).
  split.
  - unfold bind at 1. unfold lift at 1.
    destruct (get_prop answer "docs") as [docs|e].
    2:{ exists []. cbn. now rewrite app_nil_r. }
    unfold bind at 1. unfold lift at 1.
    destruct (iterate docs) as [items|e].
    2:{ exists []. cbn. now rewrite app_nil_r. }
    apply (device_loop_extends items s1).
  - intros items Hdocs Hall.
    destruct (device_loop_entries items s1 Hall) as (s' & E' & Hs').
    assert (E2 : forall K : list JSValue -> M unit,
               bind (lift (get_prop answer "docs"))
                 (fun docs => bind (lift (iterate docs)) K) s1
               = K items s1).
    { intros K. unfold bind, lift. rewrite Hdocs. reflexivity. }
    change (fst (bind (lift (get_prop answer "docs"))
                   (fun docs => bind (lift (iterate docs))
                                  (fun items => for_of items device_step)) s1) = Normal tt
            /\ devices (snd (bind (lift (get_prop answer "docs"))
                               (fun docs => bind (lift (iterate docs))
                                              (fun items => for_of items device_step)) s1))
               = devices s1 ++ map details items).
    rewrite E2, E'. split; [reflexivity | exact Hs'].
Qed.

Lemma queryDevices_appends_witness :
  fst (queryDevices (answering (createBinaryMessage device_list 1 27 0 0))) = Normal tt
  /\ devices (snd (queryDevices (answering (createBinaryMessage device_list 1 27 0 0))))
     = [JObj [ field "name" (str "Home Charger"); field "deviceId" (JNum 89349 0) ]].
Proof.
  apply (proj2 (queryDevices_appends
                  (answering (createBinaryMessage device_list 1 27 0 0)) eq_refl)
           [JArr [ str "DEVICE";
                   JObj [ field "name" (str "Home Charger");
                          field "deviceId" (JNum 89349 0) ] ]]).
  - vm_compute. reflexivity.
  - repeat constructor; discriminate.
Defined.

(** A device whose name cannot be converted: the details are already in
    [devices] when the log line throws. *)
Example queryDevices_unconvertible_name :
  let details :=
    JObj [ field "name" (JObj [field "toString" (JNum 1 0)]);
           field "deviceId" (JNum 89349 0) ] in
  let answer := JObj [ field "docs" (JArr [ JArr [ str "DEVICE"; details ] ]) ] in
  let r := queryDevices (answering (createBinaryMessage answer 1 27 0 0)) in
  fst r = Throw (TypeError (js "Cannot convert object to primitive value"))
  /\ devices (snd r) = [details].
Proof. vm_compute. split; reflexivity. Qed.

(** ** The widget maps *)

Lemma outer_get_set (m : list (Z * JSMap)) (i : Z) (x : JSMap) (j : Z) :
  outer_get (outer_set m i x) j = if (j =? i)%Z then Some x else outer_get m j.
Proof.
  induction m as [|[k y] r IH]; cbn [outer_set outer_get].
  - rewrite Z.eqb_sym. reflexivity.
  - destruct (Z.eqb_spec k i) as [->|Hki]; cbn [outer_get].
    + rewrite (Z.eqb_sym i j). destruct (j =? i)%Z; reflexivity.
    + rewrite IH. destruct (Z.eqb_spec k j) as [Hkj|Hkj]; [|reflexivity].
      destruct (Z.eqb_spec j i) as [Hji|_]; [|reflexivity].
      contradiction Hki. congruence.
Qed.

Lemma outer_get_ensure (m : list (Z * JSMap)) (i j : Z) :
  outer_get (ensure m i) j
  = if (j =? i)%Z
    then Some (match outer_get m i with Some x => x | None => [] end)
    else outer_get m j.
Proof.
  unfold ensure. destruct (outer_get m i) as [x|] eqn:E.
  - destruct (Z.eqb_spec j i) as [->|_]; [exact E | reflexivity].
  - apply outer_get_set.
Qed.

Lemma jsstring_eqb_eq (a b : jsstring) : jsstring_eqb a b = true <-> a = b.
Proof.
  unfold jsstring_eqb. destruct (list_eq_dec N.eq_dec a b); split; congruence.
Qed.

Lemma key_eqb_str (k : JSValue) (q : jsstring) : key_eqb k (JStr q) = true <-> k = JStr q.
Proof.
  destruct k; cbn [key_eqb]; try (split; [discriminate | discriminate]).
  rewrite jsstring_eqb_eq. split; congruence.
Qed.

Lemma key_eqb_str_l (k : JSValue) (q : jsstring) : key_eqb (JStr q) k = true <-> k = JStr q.
Proof.
  destruct k; cbn [key_eqb]; try (split; [discriminate | discriminate]).
  rewrite jsstring_eqb_eq. split; congruence.
Qed.

(** Lookup after insertion, for a string key. *)
Lemma Map_get_set (m : JSMap) (k v : JSValue) (q : jsstring) :
  Map_get (Map_set m k v) (JStr q)
  = if key_eqb k (JStr q) then Some v else Map_get m (JStr q).
Proof.
  induction m as [|[k' v'] r IH]; cbn [Map_set Map_get]; [reflexivity|].
  destruct (key_eqb k' k) eqn:E; cbn [Map_get].
  - destruct (key_eqb k' (JStr q)) eqn:E'.
    + apply key_eqb_str in E'. subst k'. apply key_eqb_str_l in E. subst k.
      cbn [key_eqb]. now rewrite (proj2 (jsstring_eqb_eq q q) eq_refl).
    + destruct (key_eqb k (JStr q)) eqn:E''; [|reflexivity].
      apply key_eqb_str in E''. subst k. congruence.
  - rewrite IH. destruct (key_eqb k (JStr q)) eqn:E''; [|reflexivity].
    apply key_eqb_str in E''. subst k. now rewrite E.
Qed.

Lemma for_of_normal {A : Type} (l : list A) (body : A -> M unit)
    (f : A -> State -> State) (P : A -> Prop) :
  (forall x s s', body x s = (Normal tt, s') -> s' = f x s /\ P x) ->
  forall s s', for_of l body s = (Normal tt, s') ->
               s' = fold_left (fun a x => f x a) l s /\ Forall P l.
Proof.
  intros Hb. induction l as [|x r IH]; intros s s' H; cbn [for_of fold_left] in *.
  - unfold ret in H. split; [congruence | constructor].
  - unfold bind in H. destruct (body x s) as [[[]|e] s1] eqn:E; [|discriminate H].
    apply Hb in E as [-> Hx]. destruct (IH _ _ H) as [-> Hr]. now split; [|constructor].
Qed.

Lemma fold_left_flat_map {A B C : Type} (f : A -> C -> A) (g : B -> list C)
    (l : list B) (a : A) :
  fold_left f (flat_map g l) a = fold_left (fun a x => fold_left f (g x) a) l a.
Proof.
  revert a. induction l as [|x r IH]; intros a; cbn [flat_map fold_left]; [reflexivity|].
  now rewrite fold_left_app, IH.
Qed.

(** A normal end of [extractWidgetMappings] has registered the streams of the
    page one after the other, after making sure of the two inner maps, and
    the id of every stream has been converted. *)
Lemma extractWidgetMappings_fold (i : Z) (page : JSValue) (s s' : State) :
  extractWidgetMappings i page s = (Normal tt, s') ->
  s' = fold_left (fun a x => register i x a) (page_streams page)
         (set_widgetNameMap (ensure (widgetNameMap s) i)
            (set_widgetIdMap (ensure (widgetIdMap s) i) s))
  /\ Forall (fun stream => converts (prop stream "id") = true) (page_streams page).
Proof.
  intros H. unfold extractWidgetMappings in H.
  unfold bind at 1, lift at 1 in H.
  destruct (get_prop page "dashboard") as [dashboard|e] eqn:Ed; [|discriminate H].
  unfold bind at 1, lift at 1 in H.
  destruct (get_prop dashboard "widgets") as [widgets|e] eqn:Ew; [|discriminate H].
  unfold bind at 1, modify at 1 in H. unfold bind at 1, modify at 1 in H.
  unfold bind at 1, lift at 1 in H.
  destruct (iterate widgets) as [ws|e] eqn:Ei; [|discriminate H].
  assert (Hp : items (prop (prop page "dashboard") "widgets") = ws).
  { unfold prop, items. now rewrite Ed, Ew, Ei. }
  unfold page_streams. rewrite Hp, fold_left_flat_map, Forall_flat_map. clear Hp Ed Ew Ei.
  apply (for_of_normal ws _
           (fun widget a =>
              fold_left (fun a x => register i x a)
                (flat_map (fun module => items (prop module "displayDataStreams"))
                   (items (prop widget "modules"))) a)
           (fun widget =>
              Forall (fun stream => converts (prop stream "id") = true)
                (flat_map (fun module => items (prop module "displayDataStreams"))
                   (items (prop widget "modules"))))) in H; [exact H|].
  clear. intros widget s s' H.
  unfold bind at 1, lift at 1 in H.
  destruct (get_prop widget "modules") as [modules|e] eqn:Em; [|discriminate H].
  unfold bind at 1, lift at 1 in H.
  destruct (iterate modules) as [ms|e] eqn:Ei; [|discriminate H].
  assert (Hp : items (prop widget "modules") = ms).
  { unfold prop, items. now rewrite Em, Ei. }
  rewrite Hp, fold_left_flat_map, Forall_flat_map. clear Hp Em Ei.
  apply (for_of_normal ms _
           (fun module a =>
              fold_left (fun a x => register i x a)
                (items (prop module "displayDataStreams")) a)
           (fun module =>
              Forall (fun stream => converts (prop stream "id") = true)
                (items (prop module "displayDataStreams")))) in H; [exact H|].
  clear. intros module s s' H.
  unfold bind at 1, lift at 1 in H.
  destruct (get_prop module "displayDataStreams") as [dds|e] eqn:Ed; [|discriminate H].
  unfold bind at 1, lift at 1 in H.
  destruct (iterate dds) as [ss|e] eqn:Ei; [|discriminate H].
  assert (Hp : items (prop module "displayDataStreams") = ss).
  { unfold prop, items. now rewrite Ed, Ei. }
  rewrite Hp. clear Hp Ed Ei.
  apply (for_of_normal ss _ (register i)
           (fun stream => converts (prop stream "id") = true)) in H; [exact H|].
  clear. intros stream s s' H. unfold register, converts, prop.
  unfold bind, lift, modify in H.
  destruct (get_prop stream "id") as [id|e]; [|discriminate H].
  destruct (String_of id) as [key|e]; [|discriminate H].
  destruct (get_prop stream "name") as [name|e]; [|discriminate H].
  split; [now inversion H | reflexivity].
Qed.

Lemma register_lookup (i : Z) (stream : JSValue) (s : State) :
  has_maps i s ->
  converts (prop stream "id") = true ->
  has_maps i (register i stream s)
  /\ (forall id, stream_by_id (register i stream s) i id
                 = if has_id id stream then Some stream else stream_by_id s i id)
  /\ (forall name, stream_by_name (register i stream s) i name
                   = if has_name name stream then Some stream else stream_by_name s i name)
  /\ (forall j, j <> i ->
                outer_get (widgetIdMap (register i stream s)) j = outer_get (widgetIdMap s) j
                /\ outer_get (widgetNameMap (register i stream s)) j
                   = outer_get (widgetNameMap s) j).
Proof.
  intros [Hi Hn] Hc.
  unfold has_maps, stream_by_id, stream_by_name, has_id, has_name, register, converts in *.
  destruct (String_of (prop stream "id")) as [key|e]; [|discriminate Hc].
  cbn [widgetIdMap widgetNameMap set_widgetIdMap set_widgetNameMap].
  unfold inner_set.
  destruct (outer_get (widgetIdMap s) i) as [mi|] eqn:Ei; [|now contradiction Hi].
  destruct (outer_get (widgetNameMap s) i) as [mn|] eqn:En; [|now contradiction Hn].
  rewrite !outer_get_set, Z.eqb_refl.
  split; [split; discriminate|]. split; [|split].
  - intros id. apply (Map_get_set mi (JStr key) stream id).
  - intros name. apply Map_get_set.
  - intros j Hj. rewrite !outer_get_set.
    destruct (Z.eqb_spec j i) as [->|_]; [now contradiction Hj | now split].
Qed.

Lemma fold_register_lookup (i : Z) (l : list JSValue) (s : State) :
  has_maps i s ->
  Forall (fun stream => converts (prop stream "id") = true) l ->
  has_maps i (fold_left (fun a x => register i x a) l s)
  /\ (forall id,
         stream_by_id (fold_left (fun a x => register i x a) l s) i id
         = match last_with (has_id id) l with
           | Some stream => Some stream
           | None => stream_by_id s i id
           end)
  /\ (forall name,
         stream_by_name (fold_left (fun a x => register i x a) l s) i name
         = match last_with (has_name name) l with
           | Some stream => Some stream
           | None => stream_by_name s i name
           end)
  /\ (forall j, j <> i ->
         outer_get (widgetIdMap (fold_left (fun a x => register i x a) l s)) j
         = outer_get (widgetIdMap s) j
         /\ outer_get (widgetNameMap (fold_left (fun a x => register i x a) l s)) j
            = outer_get (widgetNameMap s) j).
Proof.
  intros H0. induction l as [|x l IH] using rev_ind; intros Hall.
  - cbn. repeat split; solve [apply H0 | reflexivity].
  - apply Forall_app in Hall as [Hl Hx]. inversion Hx as [|? ? Hcx _]; subst.
    rewrite fold_left_app. cbn [fold_left]. unfold last_with.
    destruct (IH Hl) as (Hm & Hid & Hname & Hother).
    destruct (register_lookup i x _ Hm Hcx) as (Km & Kid & Kname & Kother).
    split; [exact Km|]. split; [|split].
    + intros id. rewrite Kid, rev_unit. cbn [find].
      destruct (has_id id x); [reflexivity | apply Hid].
    + intros name. rewrite Kname, rev_unit. cbn [find].
      destruct (has_name name x); [reflexivity | apply Hname].
    + intros j Hj. destruct (Kother j Hj) as [-> ->]. now apply Hother.
Qed.

(** X14. When [extractWidgetMappings] returns, looking a stream up by its id
    (as [String] converts it) or by its name gives, for the device at hand, the last
    stream of the page that carries that id or name, in the order widgets,
    modules, display data streams; an id or name that the page does not
    carry still gives what was registered before.  The maps of the other
    devices are not touched. *)
Theorem extractWidgetMappings_lookup (deviceIdx : Z) (devicePage : JSValue)
    (s s' : State) :
  extractWidgetMappings deviceIdx devicePage s = (Normal tt, s') ->
  (forall id,
      stream_by_id s' deviceIdx id
      = match last_with (has_id id) (page_streams devicePage) with
        | Some stream => Some stream
        | None => stream_by_id s deviceIdx id
        end)
  /\ (forall name,
         stream_by_name s' deviceIdx name
         = match last_with (has_name name) (page_streams devicePage) with
           | Some stream => Some stream
           | None => stream_by_name s deviceIdx name
           end)
  /\ (forall j, j <> deviceIdx ->
         outer_get (widgetIdMap s') j = outer_get (widgetIdMap s) j
         /\ outer_get (widgetNameMap s') j = outer_get (widgetNameMap s) j).
Proof.
  intros H. apply extractWidgetMappings_fold in H as [-> Hconv].
  set (s0 := set_widgetNameMap (ensure (widgetNameMap s) deviceIdx)
               (set_widgetIdMap (ensure (widgetIdMap s) deviceIdx) s)).
  assert (H0 : has_maps deviceIdx s0).
  { unfold has_maps, s0. cbn [widgetIdMap widgetNameMap set_widgetIdMap set_widgetNameMap].
    rewrite !outer_get_ensure, Z.eqb_refl. split; discriminate. }
  assert (Hid : forall id, stream_by_id s0 deviceIdx id = stream_by_id s deviceIdx id).
  { intros id. unfold stream_by_id, s0.
    cbn [widgetIdMap widgetNameMap set_widgetIdMap set_widgetNameMap].
    rewrite outer_get_ensure, Z.eqb_refl.
    destruct (outer_get (widgetIdMap s) deviceIdx); reflexivity. }
  assert (Hname : forall name, stream_by_name s0 deviceIdx name = stream_by_name s deviceIdx name).
  { intros name. unfold stream_by_name, s0.
    cbn [widgetIdMap widgetNameMap set_widgetIdMap set_widgetNameMap].
    rewrite outer_get_ensure, Z.eqb_refl.
    destruct (outer_get (widgetNameMap s) deviceIdx); reflexivity. }
  destruct (fold_register_lookup deviceIdx (page_streams devicePage) s0 H0 Hconv)
    as (_ & Kid & Kname & Kother).
  split; [|split].
  - intros id. now rewrite Kid, Hid.
  - intros name. now rewrite Kname, Hname.
  - intros j Hj. destruct (Kother j Hj) as [-> ->]. unfold s0.
    cbn [widgetIdMap widgetNameMap set_widgetIdMap set_widgetNameMap].
    rewrite !outer_get_ensure.
    destruct (Z.eqb_spec j deviceIdx) as [->|_]; [now contradiction Hj | now split].
Qed.

Lemma extractWidgetMappings_lookup_witness :
  stream_by_id (snd (extractWidgetMappings 0 device_page monitoring)) 0 (js "5")
  = Some stream5
  /\ stream_by_name (snd (extractWidgetMappings 0 device_page monitoring)) 0
       (js "Charging Power")
     = Some stream5.
Proof.
  destruct (extractWidgetMappings_lookup 0 device_page monitoring
              (snd (extractWidgetMappings 0 device_page monitoring)) eq_refl)
    as (Hid & Hname & _).
  split; [apply (Hid (js "5")) | apply (Hname (js "Charging Power"))].
Defined.

(** A stream whose id cannot be converted stops the extraction: the streams
    before it are registered, that stream and the ones after it are not. *)
Example extractWidgetMappings_unconvertible_id :
  let bad := JObj [ field "id" (JObj [field "toString" (JNum 1 0)]); field "name" (str "x") ] in
  let late := JObj [ field "id" (JNum 7 0); field "name" (str "y") ] in
  let page :=
    JObj [ field "dashboard"
             (JObj [ field "widgets"
                       (JArr [ JObj [ field "modules"
                                        (JArr [ JObj [ field "displayDataStreams"
                                                         (JArr [stream5; bad; late]) ] ]) ] ]) ]) ] in
  let r := extractWidgetMappings 0 page (charger_session [] []) in
  fst r = Throw (TypeError (js "Cannot convert object to primitive value"))
  /\ stream_by_id (snd r) 0 (js "5") = Some stream5
  /\ stream_by_id (snd r) 0 (js "[object Object]") = None
  /\ stream_by_name (snd r) 0 (js "x") = None
  /\ stream_by_id (snd r) 0 (js "7") = None.
Proof. vm_compute. repeat split. Qed.

(** * Further properties of the credential hash *)

Lemma toLowerCase_ascii (ul : jsstring -> jsstring) (s : jsstring) :
  forallb Hash.is_ascii s = true -> Hash.toLowerCase ul s = map Hash.ascii_lower s.
Proof. intros H. unfold Hash.toLowerCase. now rewrite H. Qed.

Lemma ascii_lower_ascii (c : N) :
  Hash.is_ascii c = true -> Hash.is_ascii (Hash.ascii_lower c) = true.
Proof.
  unfold Hash.is_ascii, Hash.ascii_lower. intros H. apply N.ltb_lt in H.
  destruct ((65 <=? c)%N && (c <=? 90)%N) eqn:E; apply N.ltb_lt; [|exact H].
  apply andb_true_iff in E as [_ E]. apply N.leb_le in E. lia.
Qed.

Lemma ascii_lower_idempotent (c : N) :
  Hash.ascii_lower (Hash.ascii_lower c) = Hash.ascii_lower c.
Proof.
  unfold Hash.ascii_lower.
  destruct ((65 <=? c)%N && (c <=? 90)%N) eqn:E; [|now rewrite E].
  apply andb_true_iff in E as [E1 E2]. apply N.leb_le in E1, E2.
  replace ((65 <=? c + 32)%N && (c + 32 <=? 90)%N) with false; [reflexivity|].
  symmetry. apply andb_false_iff. right. apply N.leb_gt. lia.
Qed.

(** X16. For e-mail addresses made of ASCII characters the hash depends on
    the address only up to the case of its letters: two addresses with the
    same lower-cased form give the same hash, whatever the case tables of the
    runtime, and lower-casing the address beforehand changes nothing. *)
Theorem calculateHash_email_case (ul ul' : jsstring -> jsstring)
    (email1 email2 password : jsstring) :
  forallb Hash.is_ascii email1 = true ->
  forallb Hash.is_ascii email2 = true ->
  map Hash.ascii_lower email1 = map Hash.ascii_lower email2 ->
  Hash.calculateHash ul email1 password = Hash.calculateHash ul' email2 password
  /\ Hash.calculateHash ul (Hash.toLowerCase ul email1) password
     = Hash.calculateHash ul email1 password.
Proof.
  intros H1 H2 Heq.
  assert (Hl : Hash.toLowerCase ul (Hash.toLowerCase ul email1)
               = Hash.toLowerCase ul email1).
  { rewrite (toLowerCase_ascii ul email1 H1).
    rewrite toLowerCase_ascii.
    - rewrite map_map. apply map_ext. intros c. apply ascii_lower_idempotent.
    - rewrite forallb_forall in H1 |- *. intros c Hc.
      apply in_map_iff in Hc as (c0 & <- & Hc0). apply ascii_lower_ascii. now apply H1. }
  unfold Hash.calculateHash. rewrite Hl.
  rewrite (toLowerCase_ascii ul email1 H1), (toLowerCase_ascii ul' email2 H2), Heq.
  split; reflexivity.
Qed.

Lemma calculateHash_email_case_witness :
  Hash.calculateHash (fun x => x) (js "Test@Example.Com") (js "pw")
  = Hash.calculateHash (fun _ => []) (js "test@example.com") (js "pw").
Proof.
  apply (calculateHash_email_case (fun x => x) (fun _ => [])
           (js "Test@Example.Com") (js "test@example.com") (js "pw"));
    reflexivity.
Defined.

(** ** Logging in *)

(** X17. With credentials and a socket, [login] sends one frame, header
    00 02 00 03, whose payload carries the e-mail address as given and the
    credential hash, and leaves the counter alone.  It then takes the next
    message, whatever its header says: a null payload makes it throw, any
    other payload is stored as the user profile. *)
Theorem login_takes_next_message (ul : jsstring -> jsstring) (s : State)
    (u p : jsstring) :
  has_socket s = true ->
  username s = Some u ->
  password s = Some p ->
  sent_frames (snd (login ul s))
  = sent_frames s
      ++ [createBinaryMessage
            (JObj [ field "email" (JStr u);
                    field "hash" (JStr (Hash.calculateHash ul u p));
                    field "clientType" (str "web");
                    field "version" (str "0.98.2");
                    field "locale" (str "en_US") ])
            0 2 0 3]
  /\ messageCounter (snd (login ul s)) = messageCounter s
  /\ inbound (snd (login ul s)) = tl (inbound s)
  /\ (payload (arrival_message (hd Silence (inbound s))) = JNull ->
      fst (login ul s) = Throw (Error (js "Did not get back user payload"))
      /\ user (snd (login ul s)) = user s)
  /\ (payload (arrival_message (hd Silence (inbound s))) <> JNull ->
      fst (login ul s) = Normal tt
      /\ user (snd (login ul s)) = payload (arrival_message (hd Silence (inbound s)))).
Proof.
  intros Hs Hu Hp. unfold login. rewrite bind_get, Hu, Hp.
  match goal with
  | |- context [sendMessage ?x 0 2 0 (Some 3%Z) "LOGIN"] => set (request := x)
  end.
  destruct (send_exact s request 0 2 0 (Some 3%Z) "LOGIN" Hs)
    as (s0 & E & Ks & _ & Ki & Kf & Kc).
  assert (Ku : preserves user (sendMessage request 0 2 0 (Some 3%Z) "LOGIN"))
    by (unfold sendMessage, ws_send; preserve).
  specialize (Ku s). rewrite E in Ku. cbn [snd] in Ku.
  assert (El : forall K : ParsedMessage -> M unit,
             bind (sendMessage request 0 2 0 (Some 3%Z) "LOGIN")
               (fun _ => bind (listen 10) K) s
             = K (arrival_message (hd Silence (inbound s)))
                 (set_inbound (tl (inbound s0)) s0)).
  { intros K. rewrite (bind_normal _ E). unfold bind at 1.
    rewrite (listen_socket 10 s0 Ks). now rewrite Ki. }
  rewrite El. clear El.
  set (answer := payload (arrival_message (hd Silence (inbound s)))).
  assert (Hf : sent_frames (set_inbound (tl (inbound s0)) s0)
               = sent_frames s ++ [createBinaryMessage request 0 2 0 3]) by exact Kf.
  assert (Hc : messageCounter s0 = messageCounter s) by lia.
  assert (Hi : tl (inbound s0) = tl (inbound s)) by now rewrite Ki.
  destruct answer eqn:Ea; cbn [fst snd];
    (split; [exact Hf|]); (split; [exact Hc|]); (split; [exact Hi|]);
    (split; [intros F; first [discriminate F | split; [reflexivity | exact Ku]]
            |intros F; first [now contradiction F | split; reflexivity]]).
Qed.

Lemma login_takes_next_message_witness :
  fst (login (fun x => x) (answering telemetry_frame)) = Normal tt
  /\ user (snd (login (fun x => x) (answering telemetry_frame)))
     = JObj [ (js "widgetId", str "5"); (js "deviceId", str "89349");
              (js "widgetValue", str "241.29") ].
Proof.
  destruct (login_takes_next_message (fun x => x) (answering telemetry_frame)
              (js "test@example.com") (js "pw") eq_refl eq_refl eq_refl)
    as (_ & _ & _ & _ & H).
  apply H. vm_compute. discriminate.
Defined.

(** * Properties of the logger *)

Lemma perform_cases (toTimeString : nat -> jsstring) (lg : Logging.Logger) (c : LogCall)
    (w : Logging.World) :
  perform toTimeString lg c w
  = if passes lg c
    then {| Logging.console :=
              Logging.console w ++ [written toTimeString lg (Logging.reads w) c];
            Logging.reads := S (Logging.reads w) |}
    else w.
Proof.
  destruct c as [[lvl message] rest]. unfold passes, call_level. cbn [fst].
  unfold perform, Logging.debug, Logging.info, Logging.warn, Logging.error, Logging.log.
  rewrite Z.leb_antisym.
  destruct lvl;
    match goal with
    | |- context [(?a <? ?b)%Z] => destruct (a <? b)%Z
    end; reflexivity.
Qed.

(** X18. A logger lets through exactly the calls whose level is not below its
    own, in the order they were made: each one reads the clock once and makes
    one console call, on the console method of its own level, with the text
    time - name - LEVEL - message and the further arguments unchanged.  A call
    below the level of the logger writes nothing and does not read the clock. *)
Theorem logger_filters (toTimeString : nat -> jsstring) (lg : Logging.Logger)
    (calls : list LogCall) (w : Logging.World) :
  Logging.console (perform_all toTimeString lg calls w)
  = Logging.console w
      ++ map (fun nc => written toTimeString lg (fst nc) (snd nc))
           (combine (seq (Logging.reads w) (length (filter (passes lg) calls)))
              (filter (passes lg) calls))
  /\ Logging.reads (perform_all toTimeString lg calls w)
     = (Logging.reads w + length (filter (passes lg) calls))%nat.
Proof.
  unfold perform_all. revert w.
  induction calls as [|c calls IH]; intros w; cbn [fold_left filter].
  - cbn. now rewrite app_nil_r, Nat.add_0_r.
  - destruct (IH (perform toTimeString lg c w)) as [Hc Hr].
    rewrite Hc, Hr, perform_cases.
    destruct (passes lg c); cbn [Logging.console Logging.reads length seq combine map fst snd].
    + rewrite <- app_assoc. split; [reflexivity | lia].
    + split; reflexivity.
Qed.


(** * The JSON round trip *)

Lemma JSValue_induction (P : JSValue -> Prop) :
  P JUndefined -> P JNull -> (forall b, P (JBool b)) -> (forall m e, P (JNum m e)) ->
  (forall s, P (JStr s)) ->
  (forall l, Forall P l -> P (JArr l)) ->
  (forall fs, Forall (fun kv => P (snd kv)) fs -> P (JObj fs)) ->
  forall v, P v.
Proof.
  intros Hu Hn Hb Hm Hs Ha Ho. fix IH 1. intros [ | |b|m e|s|l|fs].
  - exact Hu.
  - exact Hn.
  - apply Hb.
  - apply Hm.
  - apply Hs.
  - apply Ha. induction l as [|x r IHr]; constructor; [apply IH | exact IHr].
  - apply Ho. induction fs as [|[k x] r IHr]; constructor; [apply IH | exact IHr].
Qed.

(** More fuel does not change what the tokeniser finds. *)
Lemma lex_step (f : nat) :
  forall s ts, lex f s = Some ts -> lex (S f) s = Some ts.
Proof.
  induction f as [|f IH]; intros s ts E.
  - destruct s; [exact E | discriminate E].
  - destruct s as [|c r]; [exact E|].
    remember (S f) as f1. cbn [lex]. subst f1. cbn [lex] in E.
    assert (Hp : forall tk t, push tk (lex f t) = Some ts -> push tk (lex (S f) t) = Some ts).
    { intros tk t H. destruct (lex f t) as [ts'|] eqn:E'; [|discriminate H].
      now rewrite (IH t ts' E'). }
    destruct (is_ws c); [now apply IH|].
    repeat match goal with
           | |- (if ?b then push _ _ else _) = _ => destruct b; [now apply Hp|]
           end.
    destruct (c =? 34)%N.
    { destruct (scan_string r []) as [[str t]|]; [now apply Hp | exact E]. }
    destruct ((c =? 45)%N || is_digit c).
    { destruct (scan_number (c :: r)) as [[v t]|]; [now apply Hp | exact E]. }
    repeat match goal with
           | |- (if ?b then push _ _ else _) = _ => destruct b; [now apply Hp|]
           end.
    exact E.
Qed.

Lemma lex_more (k f : nat) (s : jsstring) (ts : list token) :
  lex f s = Some ts -> lex (k + f) s = Some ts.
Proof.
  intros E. induction k as [|k IH]; [exact E|]. now apply lex_step.
Qed.

(** ** String literals *)

Lemma below_32 (P : N -> Prop) :
  (forall n, (n < 32)%nat -> P (N.of_nat n)) -> forall c, (c < 32)%N -> P c.
Proof.
  intros H c Hc. rewrite <- (N2Nat.id c). apply H. lia.
Qed.

Lemma scan_quote_unit (c : N) (t acc : jsstring) :
  (c < 128)%N -> scan_string (quote_unit c ++ t) acc = scan_string t (c :: acc).
Proof.
  intros Hc. destruct (N.ltb_spec c 32) as [Hlow|Hhigh].
  - revert c Hlow Hc. apply (below_32 (fun c => (c < 128)%N -> _)).
    intros n Hn _.
    do 32 (destruct n as [|n]; [reflexivity|]). lia.
  - unfold quote_unit.
    destruct (N.eqb_spec c 34) as [->|H34]; [reflexivity|].
    destruct (N.eqb_spec c 92) as [->|H92]; [reflexivity|].
    destruct (N.eqb_spec c 8) as [->|_]; [lia|].
    destruct (N.eqb_spec c 12) as [->|_]; [lia|].
    destruct (N.eqb_spec c 10) as [->|_]; [lia|].
    destruct (N.eqb_spec c 13) as [->|_]; [lia|].
    destruct (N.eqb_spec c 9) as [->|_]; [lia|].
    destruct (N.ltb_spec c 32) as [F|_]; [lia|].
    cbn [app scan_string].
    destruct (N.eqb_spec c 34) as [F|_]; [contradiction|].
    destruct (N.eqb_spec c 92) as [F|_]; [contradiction|].
    destruct (N.ltb_spec c 32) as [F|_]; [lia|].
    reflexivity.
Qed.

Lemma quote_units_ascii (c : N) (r : jsstring) :
  (c < 128)%N -> quote_units (c :: r) = quote_unit c ++ quote_units r.
Proof.
  intros Hc. cbn [quote_units].
  replace (is_high c) with false
    by (symmetry; unfold is_high; apply andb_false_iff; left; apply N.leb_gt; lia).
  replace (is_low c) with false
    by (symmetry; unfold is_low; apply andb_false_iff; left; apply N.leb_gt; lia).
  reflexivity.
Qed.

Lemma is_ascii_lt (s : jsstring) :
  forallb Hash.is_ascii s = true -> Forall (fun c => (c < 128)%N) s.
Proof.
  intros H. rewrite Forall_forall. rewrite forallb_forall in H.
  intros c Hc. apply N.ltb_lt. now apply H.
Qed.

Lemma scan_quoted (s : jsstring) :
  Forall (fun c => (c < 128)%N) s ->
  forall rest acc,
    scan_string (quote_units s ++ 34%N :: rest) acc = Some (rev acc ++ s, rest).
Proof.
  induction 1 as [|c r Hc _ IH]; intros rest acc.
  - cbn. now rewrite app_nil_r.
  - rewrite (quote_units_ascii c r Hc), <- app_assoc, (scan_quote_unit c _ acc Hc), IH.
    cbn [rev]. now rewrite <- app_assoc.
Qed.

(** ** Number literals *)

Lemma digits_value_snoc (ds : jsstring) (d : N) :
  digits_value (ds ++ [d]) = (10 * digits_value ds + Z.of_N (d - 48))%Z.
Proof. unfold digits_value. now rewrite fold_left_app. Qed.

Lemma digits_value_zeros (ds : jsstring) (n : nat) :
  digits_value (ds ++ repeat 48%N n) = (digits_value ds * 10 ^ Z.of_nat n)%Z.
Proof.
  unfold digits_value. rewrite fold_left_app.
  generalize (fold_left (fun a c => (10 * a + Z.of_N (c - 48))%Z) ds 0%Z) as a.
  induction n as [|n IH]; intros a.
  - cbn [repeat fold_left]. change (Z.of_nat 0) with 0%Z. lia.
  - cbn [repeat fold_left]. rewrite IH.
    rewrite Nat2Z.inj_succ, Z.pow_succ_r by lia. change (Z.of_N (48 - 48)) with 0%Z. lia.
Qed.

Lemma is_digit_mod (n : N) : is_digit (48 + n mod 10) = true.
Proof.
  unfold is_digit. pose proof (N.mod_upper_bound n 10 ltac:(lia)) as H.
  generalize dependent (n mod 10)%N. intros k Hk.
  apply andb_true_iff. split; apply N.leb_le; lia.
Qed.

Lemma digits_fuel_spec (f : nat) :
  forall (n : N) (acc : jsstring),
    (n < 2 ^ N.of_nat (S f))%N ->
    exists ds,
      digits_fuel (S f) n acc = ds ++ acc
      /\ forallb is_digit ds = true
      /\ ds <> []
      /\ digits_value ds = Z.of_N n
      /\ ((0 < n)%N -> hd 0%N ds <> 48%N)
      /\ ((0 < n)%N -> (10 ^ (Z.of_nat (length ds) - 1) <= Z.of_N n)%Z)
      /\ (Z.of_N n < 10 ^ Z.of_nat (length ds))%Z.
Proof.
  assert (Hone : forall n acc, (n < 10)%N ->
            exists ds,
              (48 + n mod 10)%N :: acc = ds ++ acc
              /\ forallb is_digit ds = true
              /\ ds <> []
              /\ digits_value ds = Z.of_N n
              /\ ((0 < n)%N -> hd 0%N ds <> 48%N)
              /\ ((0 < n)%N -> (10 ^ (Z.of_nat (length ds) - 1) <= Z.of_N n)%Z)
              /\ (Z.of_N n < 10 ^ Z.of_nat (length ds))%Z).
  { intros n acc Hn. exists [(48 + n mod 10)%N].
    rewrite (N.mod_small n 10 Hn).
    split; [reflexivity|]. split.
    { cbn [forallb]. rewrite <- (N.mod_small n 10 Hn), is_digit_mod. reflexivity. }
    split; [discriminate|]. split.
    { unfold digits_value. cbn [fold_left]. lia. }
    split.
    { intros Hp. cbn [hd]. lia. }
    split.
    { intros Hp. cbn [length]. change (Z.of_nat 1 - 1)%Z with 0%Z.
      change (10 ^ 0)%Z with 1%Z. lia. }
    { cbn [length]. change (10 ^ Z.of_nat 1)%Z with 10%Z. lia. } }
  induction f as [|f IH]; intros n acc Hn.
  - change (2 ^ N.of_nat 1)%N with 2%N in Hn.
    cbn [digits_fuel]. destruct (N.ltb_spec n 10) as [H10|H10]; [|lia].
    now apply Hone.
  - remember (S f) as f1. cbn [digits_fuel].
    destruct (N.ltb_spec n 10) as [H10|H10]; [now apply Hone|].
    subst f1.
    assert (Hdiv : (n / 10 < 2 ^ N.of_nat (S f))%N).
    { rewrite (Nat2N.inj_succ (S f)), N.pow_succ_r' in Hn.
      apply N.Div0.div_lt_upper_bound. lia. }
    destruct (IH (n / 10)%N ((48 + n mod 10)%N :: acc) Hdiv)
      as (ds & E & Hd & Hne & Hv & Hh & Hl & Hu).
    assert (Hpos : (0 < n / 10)%N).
    { apply N.div_str_pos. lia. }
    exists (ds ++ [(48 + n mod 10)%N]).
    split; [rewrite E, <- app_assoc; reflexivity|].
    split.
    { rewrite forallb_app, Hd. cbn [forallb]. now rewrite is_digit_mod. }
    split; [destruct ds; discriminate|].
    split.
    { rewrite digits_value_snoc, Hv.
      pose proof (N.div_mod n 10 ltac:(lia)) as Hdm.
      revert Hdm. generalize (n / 10)%N (n mod 10)%N. intros q r Hdm. lia. }
    split.
    { intros _. destruct ds as [|d ds]; [contradiction|]. cbn [app hd] in *.
      now apply Hh. }
    split.
    { intros _. rewrite length_app. cbn [length].
      replace (Z.of_nat (length ds + 1) - 1)%Z with (Z.succ (Z.of_nat (length ds) - 1))%Z by lia.
      assert (0 < length ds)%nat by (destruct ds; [contradiction | cbn; lia]).
      rewrite Z.pow_succ_r by lia.
      specialize (Hl Hpos).
      pose proof (N.div_mod n 10 ltac:(lia)) as Hdm.
      revert Hl Hdm. generalize (n / 10)%N (n mod 10)%N. intros q r Hl Hdm. lia. }
    { rewrite length_app. cbn [length].
      replace (Z.of_nat (length ds + 1)) with (Z.succ (Z.of_nat (length ds))) by lia.
      rewrite Z.pow_succ_r by lia.
      pose proof (N.div_mod n 10 ltac:(lia)) as Hdm.
      pose proof (N.mod_upper_bound n 10 ltac:(lia)) as Hm.
      revert Hu Hdm Hm. generalize (n / 10)%N (n mod 10)%N. intros q r Hu Hdm Hm. lia. }
Qed.

Lemma decimal_spec (n : N) :
  forallb is_digit (decimal n) = true
  /\ decimal n <> []
  /\ digits_value (decimal n) = Z.of_N n
  /\ ((0 < n)%N -> hd 0%N (decimal n) <> 48%N)
  /\ ((0 < n)%N -> (10 ^ (Z.of_nat (length (decimal n)) - 1) <= Z.of_N n)%Z)
  /\ (Z.of_N n < 10 ^ Z.of_nat (length (decimal n)))%Z.
Proof.
  unfold decimal.
  assert (Hn : (n < 2 ^ N.of_nat (S (N.to_nat (N.log2 n))))%N).
  { rewrite Nat2N.inj_succ, N2Nat.id.
    destruct (N.eq_dec n 0) as [->|Hn]; [reflexivity|].
    apply N.log2_spec. lia. }
  destruct (digits_fuel_spec _ n [] Hn) as (ds & E & H).
  rewrite E, app_nil_r. exact H.
Qed.

(** ** Integers in binary64 *)

Lemma binary64_eqb_eq (a b : binary64) : binary64_eqb a b = true -> a = b.
Proof.
  destruct a, b; cbn [binary64_eqb]; intros H; try discriminate; try reflexivity.
  apply andb_true_iff in H as [H1 H2].
  apply Z.eqb_eq in H1, H2. now subst.
Qed.

Lemma log2_ratio_integer (d : Z) : (1 <= d)%Z -> log2_ratio d 1 = Z.log2 d.
Proof.
  intros Hd. unfold log2_ratio.
  change (Z.log2 1) with 0%Z. rewrite Z.sub_0_r.
  pose proof (Z.log2_nonneg d) as Hl.
  destruct (Z.leb_spec 0 (Z.log2 d)) as [_|]; [|lia].
  pose proof (Z.log2_spec d ltac:(lia)) as [Hlo _].
  destruct (Z.leb_spec (1 * 2 ^ Z.log2 d) d) as [_|]; [reflexivity | lia].
Qed.

(** An integer below [2^53] is represented exactly. *)
Lemma round_binary64_exact (d : Z) :
  (1 <= d < 2 ^ 53)%Z ->
  round_binary64 d 1 = B_finite (d * 2 ^ (52 - Z.log2 d)) (Z.log2 d - 52).
Proof.
  intros Hd. unfold round_binary64. rewrite log2_ratio_integer by lia.
  pose proof (Z.log2_nonneg d) as Hl.
  assert (Hl53 : (Z.log2 d < 53)%Z) by (apply Z.log2_lt_pow2; lia).
  pose proof (Z.log2_spec d ltac:(lia)) as [Hlo Hhi].
  rewrite Z.max_l by lia.
  set (L := Z.log2 d) in *.
  assert (Hscaled : (1 <= d * 2 ^ (52 - L) < 2 ^ 53)%Z).
  { assert (0 < 2 ^ (52 - L))%Z by (apply Z.pow_pos_nonneg; lia).
    split; [nia|].
    replace 53%Z with (Z.succ L + (52 - L))%Z at 1 by lia.
    rewrite Z.pow_add_r by lia. nia. }
  destruct (Z.leb_spec 0 (L - 52)) as [Hq|Hq].
  - assert (HL : L = 52%Z) by lia.
    rewrite HL in *. change (52 - 52)%Z with 0%Z in *.
    change (2 ^ 0)%Z with 1%Z in *. change (1 * 1)%Z with 1%Z.
    rewrite Z.div_1_r, Z.mod_1_r, Z.mul_1_r in *.
    change (1 <? 2 * 0)%Z with false. change (1 =? 2 * 0)%Z with false.
    cbn [orb andb].
    destruct (Z.eqb_spec d (2 ^ 53)) as [|_]; [lia|].
    destruct (Z.eqb_spec d 0) as [|_]; [lia|].
    reflexivity.
  - replace (- (L - 52))%Z with (52 - L)%Z by lia.
    rewrite Z.div_1_r, Z.mod_1_r.
    change (1 <? 2 * 0)%Z with false. change (1 =? 2 * 0)%Z with false.
    cbn [orb andb].
    destruct (Z.eqb_spec (d * 2 ^ (52 - L)) (2 ^ 53)) as [|_]; [lia|].
    destruct (Z.eqb_spec (d * 2 ^ (52 - L)) 0) as [|_]; [lia|].
    destruct (Z.ltb_spec 971 (L - 52)) as [|_]; [lia|].
    reflexivity.
Qed.

(** From [2^53] on the exponent is positive (or the value is infinite). *)
Lemma round_binary64_large (d f q : Z) :
  (2 ^ 53 <= d)%Z -> round_binary64 d 1 = B_finite f q -> (1 <= q)%Z.
Proof.
  intros Hd. unfold round_binary64.
  assert (H1 : (1 <= d)%Z) by (change (2 ^ 53)%Z with 9007199254740992%Z in Hd; lia).
  rewrite log2_ratio_integer by exact H1.
  assert (Hl : (53 <= Z.log2 d)%Z) by (apply Z.log2_le_pow2; lia).
  rewrite Z.max_l by lia.
  set (q0 := (Z.log2 d - 52)%Z) in *.
  destruct (Z.leb_spec 0 q0) as [_|]; [|lia].
  match goal with
  | |- context [if ?c then (?a + 1)%Z else ?a] => generalize (if c then (a + 1)%Z else a)
  end.
  intros f1.
  destruct (f1 =? 2 ^ 53)%Z;
    repeat match goal with
           | |- context [if ?c then _ else _] => destruct c
           end; intros E; inversion E; lia.
Qed.

Lemma round_binary64_injective (a d : Z) :
  (1 <= a < 2 ^ 53)%Z -> (1 <= d)%Z -> round_binary64 d 1 = round_binary64 a 1 -> d = a.
Proof.
  intros Ha Hd E.
  rewrite (round_binary64_exact a Ha) in E.
  pose proof (Z.log2_nonneg a) as Hla.
  assert (Hl53 : (Z.log2 a < 53)%Z) by (apply Z.log2_lt_pow2; lia).
  destruct (Z_lt_le_dec d (2 ^ 53)) as [Hlt|Hge].
  - rewrite (round_binary64_exact d (conj Hd Hlt)) in E.
    assert (Eq : (Z.log2 d - 52 = Z.log2 a - 52)%Z) by congruence.
    assert (Ef : (d * 2 ^ (52 - Z.log2 d) = a * 2 ^ (52 - Z.log2 a))%Z) by congruence.
    assert (El : Z.log2 d = Z.log2 a) by lia.
    rewrite El in Ef.
    assert (0 < 2 ^ (52 - Z.log2 a))%Z by (apply Z.pow_pos_nonneg; lia).
    apply Z.mul_reg_r in Ef; [exact Ef | lia].
  - pose proof (round_binary64_large _ _ _ Hge E). lia.
Qed.

Lemma to_binary64_integer (s e : Z) :
  (0 <= e)%Z -> to_binary64 s e = round_binary64 (s * 10 ^ e) 1.
Proof.
  intros He. unfold to_binary64.
  destruct (Z.leb_spec 0 e); [reflexivity | lia].
Qed.

(** The search for the shortest digits of an integer stops at the digits
    that are followed by zeros only. *)
Lemma shortest_integer (a xd n : Z) :
  (1 <= a < 2 ^ 53)%Z -> (0 < xd)%Z -> (10 ^ (n - 1) <= a)%Z ->
  forall (fuel : nat) (k : Z),
    (1 <= k <= n)%Z -> (n - k < Z.of_nat fuel)%Z ->
    exists s j,
      shortest fuel (round_binary64 a 1) (a * xd) xd n k = (s, n)
      /\ (0 <= j)%Z /\ (s * 10 ^ j = a)%Z.
Proof.
  intros Ha Hxd Hn fuel.
  induction fuel as [|fuel IH]; intros k Hk Hf; [cbn in Hf; lia|].
  cbn [shortest]. unfold scaled.
  destruct (Z.leb_spec 0 (k - n)) as [Hkn|Hkn].
  - assert (k = n) by lia. subst k. rewrite Z.sub_diag.
    change (10 ^ 0)%Z with 1%Z. rewrite Z.mul_1_r.
    rewrite Z.div_mul, Z.mod_mul by lia.
    cbn [Z.eqb]. exists a, 0%Z. split; [reflexivity|]. split; [lia|].
    change (10 ^ 0)%Z with 1%Z. lia.
  - replace (- (k - n))%Z with (n - k)%Z by lia.
    set (P := (10 ^ (n - k))%Z).
    assert (HP : (0 < P)%Z) by (apply Z.pow_pos_nonneg; lia).
    rewrite (Z.mul_comm a xd).
    rewrite Z.div_mul_cancel_l by lia.
    rewrite Z.mul_mod_distr_l by lia.
    pose proof (Z.div_mod a P ltac:(lia)) as Hdm.
    pose proof (Z.mod_pos_bound a P HP) as Hmb.
    destruct (Z.eqb_spec (xd * (a mod P)) 0) as [Hr|Hr].
    + assert (Hm : (a mod P = 0)%Z) by nia.
      exists (a / P)%Z, (n - k)%Z. split; [reflexivity|]. split; [lia|].
      fold P. lia.
    + assert (Hm : (0 < a mod P)%Z) by nia.
      assert (HPa : (P <= a)%Z).
      { apply Z.le_trans with (10 ^ (n - 1))%Z; [|exact Hn].
        apply Z.pow_le_mono_r; lia. }
      assert (Hlo : (1 <= a / P)%Z).
      { apply Z.div_le_lower_bound; lia. }
      assert (Elo : binary64_eqb (to_binary64 (a / P) (n - k)) (round_binary64 a 1) = false).
      { destruct (binary64_eqb _ _) eqn:E; [|reflexivity].
        apply binary64_eqb_eq in E.
        rewrite to_binary64_integer in E by lia. fold P in E.
        apply round_binary64_injective in E; [nia | exact Ha | nia]. }
      assert (Ehi : forall hi hn,
                 (if (a / P + 1 =? 10 ^ k)%Z then ((10 ^ (k - 1))%Z, (n + 1)%Z)
                  else ((a / P + 1)%Z, n)) = (hi, hn) ->
                 binary64_eqb (to_binary64 hi (hn - k)) (round_binary64 a 1) = false).
      { intros hi hn Eh.
        assert (Hv : (hi * 10 ^ (hn - k) = (a / P + 1) * P)%Z /\ (0 <= hn - k)%Z).
        { destruct (Z.eqb_spec (a / P + 1) (10 ^ k)) as [E10|_]; inversion Eh; subst hi hn.
          - rewrite E10. split; [|lia]. unfold P.
            rewrite <- !Z.pow_add_r by lia. f_equal. lia.
          - fold P. split; [reflexivity | lia]. }
        destruct Hv as [Hv Hp].
        destruct (binary64_eqb (to_binary64 hi (hn - k)) (round_binary64 a 1)) eqn:E;
          [|reflexivity].
        apply binary64_eqb_eq in E.
        rewrite to_binary64_integer in E by lia. rewrite Hv in E.
        apply round_binary64_injective in E; [nia | exact Ha | nia]. }
      destruct (if (a / P + 1 =? 10 ^ k)%Z then ((10 ^ (k - 1))%Z, (n + 1)%Z)
                else ((a / P + 1)%Z, n)) as [hi hn] eqn:Eh.
      rewrite Elo, (Ehi hi hn eq_refl). cbn [andb].
      rewrite (Z.mul_comm xd a). apply IH; lia.
Qed.

Lemma pow10_digits (s j n K : Z) :
  (0 <= j)%Z -> (1 <= K)%Z -> (1 <= n)%Z ->
  (10 ^ (K - 1) <= s < 10 ^ K)%Z ->
  (10 ^ (n - 1) <= s * 10 ^ j < 10 ^ n)%Z ->
  (K + j = n)%Z.
Proof.
  intros Hj HK Hn [Hs1 Hs2] [Ha1 Ha2].
  assert (HP : (0 < 10 ^ j)%Z) by (apply Z.pow_pos_nonneg; lia).
  assert (H1 : (10 ^ (K - 1 + j) < 10 ^ n)%Z).
  { rewrite Z.pow_add_r by lia. nia. }
  assert (H2 : (10 ^ (n - 1) < 10 ^ (K + j))%Z).
  { rewrite Z.pow_add_r by lia. nia. }
  apply Z.pow_lt_mono_r_iff in H1; [|lia|lia].
  apply Z.pow_lt_mono_r_iff in H2; [|lia|lia].
  lia.
Qed.

(** What the printing of a safe integer comes down to. *)
Lemma Number_toString_integer (m : Z) :
  safe_integer m = true -> m <> 0%Z ->
  exists s j,
    (0 <= j)%Z /\ (1 <= s)%Z /\ (s * 10 ^ j = Z.abs m)%Z
    /\ Number_toString m 0
       = (if (m <? 0)%Z then js "-" else []) ++ decimal (Z.to_N s) ++ zeros j.
Proof.
  intros Hs Hm. unfold safe_integer in Hs. apply Z.leb_le in Hs.
  set (a := Z.abs m) in *.
  assert (Ha : (1 <= a < 2 ^ 53)%Z).
  { change (2 ^ 53)%Z with 9007199254740992%Z. lia. }
  unfold Number_toString.
  destruct (Z.eqb_spec m 0) as [|_]; [contradiction|]. fold a.
  rewrite to_binary64_integer by lia.
  change (10 ^ 0)%Z with 1%Z. rewrite Z.mul_1_r.
  pose proof (round_binary64_exact a Ha) as Ex.
  pose proof (Z.log2_nonneg a) as Hl0.
  assert (Hl53 : (Z.log2 a < 53)%Z) by (apply Z.log2_lt_pow2; lia).
  set (L := Z.log2 a) in *.
  rewrite Ex. cbv iota. rewrite <- Ex.
  set (xd := (2 ^ (52 - L))%Z).
  assert (Hxd : (0 < xd)%Z) by (apply Z.pow_pos_nonneg; lia).
  assert (Exx : (if (0 <=? L - 52)%Z then ((a * xd * 2 ^ (L - 52))%Z, 1%Z)
                 else ((a * xd)%Z, (2 ^ (- (L - 52)))%Z))
                = ((a * xd)%Z, xd)).
  { destruct (Z.leb_spec 0 (L - 52)).
    - assert (HL : L = 52%Z) by lia. unfold xd. rewrite HL.
      change (52 - 52)%Z with 0%Z. change (2 ^ 0)%Z with 1%Z.
      now rewrite !Z.mul_1_r.
    - unfold xd. now replace (- (L - 52))%Z with (52 - L)%Z by lia. }
  rewrite Exx. cbv iota.
  destruct (decimal_spec (Z.to_N a)) as (_ & Hne & _ & _ & Hlen & Hup).
  rewrite Z2N.id in Hlen, Hup by lia. specialize (Hlen ltac:(lia)).
  assert (Emag : magnitude (a * xd) xd = Z.of_nat (length (decimal (Z.to_N a)))).
  { unfold magnitude. destruct (Z.leb_spec xd (a * xd)) as [_|]; [|nia].
    now rewrite Z.div_mul by lia. }
  rewrite Emag.
  set (n := Z.of_nat (length (decimal (Z.to_N a)))) in *.
  assert (Hn1 : (1 <= n)%Z).
  { subst n. destruct (decimal (Z.to_N a)); [contradiction | cbn [length]; lia]. }
  assert (Hn16 : (n <= 16)%Z).
  { destruct (Z_lt_le_dec n 17) as [|Hbig]; [lia|].
    assert (10 ^ 16 <= 10 ^ (n - 1))%Z by (apply Z.pow_le_mono_r; lia).
    change (10 ^ 16)%Z with 10000000000000000%Z in *.
    change (2 ^ 53)%Z with 9007199254740992%Z in *. lia. }
  destruct (shortest_integer a xd n Ha Hxd Hlen 17%nat 1%Z ltac:(lia) ltac:(lia))
    as (s & j & Esh & Hj & Hv).
  rewrite Esh. cbv iota zeta.
  assert (HP : (0 < 10 ^ j)%Z) by (apply Z.pow_pos_nonneg; lia).
  assert (Hs1 : (1 <= s)%Z) by nia.
  destruct (decimal_spec (Z.to_N s)) as (_ & Hne' & _ & _ & Hlen' & Hup').
  rewrite Z2N.id in Hlen', Hup' by lia. specialize (Hlen' ltac:(lia)).
  set (K := Z.of_nat (length (decimal (Z.to_N s)))) in *.
  assert (HK1 : (1 <= K)%Z).
  { subst K. destruct (decimal (Z.to_N s)); [contradiction | cbn [length]; lia]. }
  assert (HKn : (K + j = n)%Z).
  { apply (pow10_digits s j n K); try rewrite Hv; lia. }
  exists s, j. split; [exact Hj|]. split; [exact Hs1|]. split; [exact Hv|].
  replace ((K <=? n) && (n <=? 21))%Z with true
    by (symmetry; apply andb_true_iff; split; apply Z.leb_le; lia).
  now replace (n - K)%Z with j by lia.
Qed.

Lemma safe_integer_finite (m : Z) : safe_integer m = true -> is_finite m 0 = true.
Proof.
  intros Hs. unfold safe_integer in Hs. apply Z.leb_le in Hs.
  unfold is_finite. destruct (Z.eqb_spec m 0) as [|Hm]; [reflexivity|].
  rewrite to_binary64_integer by lia.
  change (10 ^ 0)%Z with 1%Z. rewrite Z.mul_1_r.
  rewrite round_binary64_exact; [reflexivity|].
  change (2 ^ 53)%Z with 9007199254740992%Z. lia.
Qed.

Lemma span_digits_all (ds rest : jsstring) :
  forallb is_digit ds = true ->
  match rest with [] => True | c :: _ => is_digit c = false end ->
  span_digits (ds ++ rest) = (ds, rest).
Proof.
  intros Hd Hr. induction ds as [|d ds IH].
  - cbn [app]. destruct rest as [|c r]; [reflexivity|]. cbn [span_digits]. now rewrite Hr.
  - cbn [forallb] in Hd. apply andb_true_iff in Hd as [H1 H2].
    cbn [app span_digits]. now rewrite H1, (IH H2).
Qed.

Lemma delimited_cases (rest : jsstring) :
  delimited rest ->
  match rest with [] => True | c :: _ => is_digit c = false end
  /\ scan_fraction rest = Some ([], rest)
  /\ scan_exponent rest = Some (0%Z, rest).
Proof.
  destruct rest as [|c r]; [intros _; repeat split|].
  cbn [delimited]. intros [ -> | [ -> | -> ] ]; repeat split.
Qed.

Lemma forallb_repeat_digit (n : nat) : forallb is_digit (repeat 48%N n) = true.
Proof. induction n as [|n IH]; [reflexivity | exact IH]. Qed.

(** The text of a safe integer: an optional minus sign and the digits, which
    the tokeniser reads back as the same number. *)
Lemma number_text (m : Z) :
  safe_integer m = true ->
  exists (neg : bool) (ds : jsstring),
    Number_toString m 0 = (if neg then [45%N] else []) ++ ds
    /\ forallb is_digit ds = true
    /\ ds <> []
    /\ (hd 0%N ds = 48%N -> length ds = 1%nat)
    /\ (if neg then - digits_value ds else digits_value ds)%Z = m.
Proof.
  intros Hs.
  destruct (Z.eq_dec m 0) as [->|Hm].
  { exists false, [48%N]. repeat split; try reflexivity. discriminate. }
  destruct (Number_toString_integer m Hs Hm) as (s & j & Hj & Hs1 & Hv & E).
  destruct (decimal_spec (Z.to_N s)) as (Hd & Hne & Hval & Hhd & _).
  rewrite Z2N.id in Hval by lia.
  specialize (Hhd ltac:(lia)).
  exists (m <? 0)%Z, (decimal (Z.to_N s) ++ repeat 48%N (Z.to_nat j)).
  split; [rewrite E; unfold zeros; destruct (m <? 0)%Z; reflexivity|].
  split; [rewrite forallb_app, Hd; apply forallb_repeat_digit|].
  split; [destruct (decimal (Z.to_N s)); [contradiction | discriminate]|].
  split.
  { intros H0. destruct (decimal (Z.to_N s)) as [|d s']; [contradiction|].
    cbn [app hd] in H0. cbn [hd] in Hhd. contradiction. }
  rewrite digits_value_zeros, Hval, Z2Nat.id by lia. rewrite Hv.
  destruct (Z.ltb_spec m 0); lia.
Qed.

Lemma scan_number_text (m : Z) (rest : jsstring) :
  safe_integer m = true -> delimited rest ->
  scan_number (Number_toString m 0 ++ rest) = Some (JNum m 0, rest).
Proof.
  intros Hs Hr.
  destruct (number_text m Hs) as (neg & ds & -> & Hd & Hne & Hz & Hv).
  destruct (delimited_cases rest Hr) as (Hnd & Hf & He).
  destruct ds as [|d0 more]; [contradiction|].
  assert (Hd0 : is_digit d0 = true).
  { cbn [forallb] in Hd. now apply andb_true_iff in Hd as [Hd _]. }
  assert (Hminus : scan_minus ((if neg then [45%N] else []) ++ (d0 :: more) ++ rest)
                   = (neg, (d0 :: more) ++ rest)).
  { destruct neg; [reflexivity|]. cbn [app scan_minus].
    destruct (N.eqb_spec d0 45) as [->|_]; [discriminate Hd0 | reflexivity]. }
  unfold scan_number. rewrite <- app_assoc, Hminus.
  rewrite (span_digits_all (d0 :: more) rest Hd Hnd).
  assert (Hlead : (d0 =? 48)%N && negb (Nat.eqb (length more) 0) = false).
  { destruct (N.eqb_spec d0 48) as [->|_]; [|reflexivity].
    specialize (Hz eq_refl). cbn [length] in Hz.
    destruct more; [reflexivity | discriminate Hz]. }
  rewrite Hlead, Hf, He. rewrite app_nil_r.
  cbn [length]. change (0 - Z.of_nat 0)%Z with 0%Z.
  now rewrite Hv.
Qed.

Lemma number_text_head (m : Z) :
  safe_integer m = true ->
  exists c r, Number_toString m 0 = c :: r /\ (c = 45%N \/ is_digit c = true).
Proof.
  intros Hs. destruct (number_text m Hs) as (neg & ds & -> & Hd & Hne & _).
  destruct ds as [|d0 more]; [contradiction|].
  cbn [forallb] in Hd. apply andb_true_iff in Hd as [Hd _].
  destruct neg; cbn [app]; eauto.
Qed.

Lemma lex_number_char (c : N) (t : jsstring) (f : nat) :
  c = 45%N \/ is_digit c = true ->
  lex (S f) (c :: t)
  = match scan_number (c :: t) with
    | Some (v, t') => push (TAtom v) (lex f t')
    | None => None
    end.
Proof.
  intros [->|Hd]; [reflexivity|].
  unfold is_digit in Hd. apply andb_true_iff in Hd as [H1 H2].
  apply N.leb_le in H1, H2.
  cbn [lex]. unfold is_ws, is_digit.
  repeat match goal with
         | |- context [(c =? ?k)%N] => destruct (N.eqb_spec c k); [lia|]
         end.
  cbn [orb].
  replace ((48 <=? c)%N && (c <=? 57)%N) with true
    by (symmetry; apply andb_true_iff; split; apply N.leb_le; lia).
  reflexivity.
Qed.

(** ** From the text to the tokens *)

Lemma lex_lbrack (f : nat) (r : jsstring) : lex (S f) (91%N :: r) = push TLBrack (lex f r).
Proof. reflexivity. Qed.

Lemma lex_rbrack (f : nat) (r : jsstring) : lex (S f) (93%N :: r) = push TRBrack (lex f r).
Proof. reflexivity. Qed.

Lemma lex_lbrace (f : nat) (r : jsstring) : lex (S f) (123%N :: r) = push TLBrace (lex f r).
Proof. reflexivity. Qed.

Lemma lex_rbrace (f : nat) (r : jsstring) : lex (S f) (125%N :: r) = push TRBrace (lex f r).
Proof. reflexivity. Qed.

Lemma lex_colon (f : nat) (r : jsstring) : lex (S f) (58%N :: r) = push TColon (lex f r).
Proof. reflexivity. Qed.

Lemma lex_comma (f : nat) (r : jsstring) : lex (S f) (44%N :: r) = push TComma (lex f r).
Proof. reflexivity. Qed.

Lemma lex_quote (f : nat) (r : jsstring) :
  lex (S f) (34%N :: r)
  = match scan_string r [] with
    | Some (str, t) => push (TStr str) (lex f t)
    | None => None
    end.
Proof. reflexivity. Qed.

Lemma lex_null (f : nat) (rest : jsstring) :
  lex (S f) (js "null" ++ rest) = push (TAtom JNull) (lex f rest).
Proof. reflexivity. Qed.

Lemma lex_true (f : nat) (rest : jsstring) :
  lex (S f) (js "true" ++ rest) = push (TAtom (JBool true)) (lex f rest).
Proof. reflexivity. Qed.

Lemma lex_false (f : nat) (rest : jsstring) :
  lex (S f) (js "false" ++ rest) = push (TAtom (JBool false)) (lex f rest).
Proof. reflexivity. Qed.

Lemma lexes_join (texts : list jsstring) (toks : list (list token)) :
  Forall2 lexes texts toks -> lexes (join (js ",") texts) (token_join toks).
Proof.
  induction 1 as [|text tk texts toks Hx Hr IH]; intros rest ts f0 Hd E.
  - exact E.
  - destruct Hr as [|text' tk' texts' toks' Hx' Hr'].
    + cbn [join token_join]. now apply Hx.
    + remember (text' :: texts') as tl. remember (tk' :: toks') as kl.
      assert (Hj : join (js ",") (text :: tl) = text ++ 44%N :: join (js ",") tl)
        by (subst tl; reflexivity).
      assert (Hk : token_join (tk :: kl) = tk ++ TComma :: token_join kl)
        by (subst kl; reflexivity).
      rewrite Hj, Hk, <- !app_assoc. cbn [app].
      replace (length (text ++ 44%N :: join (js ",") tl) + f0)%nat
        with (length text + S (length (join (js ",") tl) + f0))%nat
        by (rewrite length_app; cbn [length]; lia).
      apply Hx; [cbn; now left|].
      rewrite lex_comma. now rewrite (IH rest ts f0 Hd E).
Qed.

Lemma lexes_string (s : jsstring) :
  Forall (fun c => (c < 128)%N) s -> lexes (quote s) [TStr s].
Proof.
  intros Hs rest ts f0 _ E. unfold quote. cbn [app length plus].
  rewrite <- app_assoc. cbn [app]. rewrite lex_quote, (scan_quoted s Hs rest []).
  cbn [rev app].
  rewrite length_app. cbn [length].
  replace (length (quote_units s) + 1 + f0)%nat with ((length (quote_units s) + 1) + f0)%nat
    by lia.
  now rewrite (lex_more _ f0 rest ts E).
Qed.

Lemma stringify_members (fs : list (jsstring * JSValue)) :
  forallb (fun kv : jsstring * JSValue => let '(k, x) := kv in plain_key k && plain x) fs = true ->
  JSON_stringify (JObj fs)
  = 123%N :: join (js ",")
               (map (fun kv : jsstring * JSValue =>
                       quote (fst kv) ++ 58%N :: JSON_stringify (snd kv)) fs)
      ++ [125%N].
Proof.
  intros H. cbn [JSON_stringify]. change (js "{") with [123%N]. change (js "}") with [125%N].
  cbn [app]. f_equal. f_equal. f_equal.
  induction fs as [|[k x] r IH]; [reflexivity|].
  cbn [forallb] in H. apply andb_true_iff in H as [H1 H2].
  apply andb_true_iff in H1 as [_ Hx].
  cbn [map fst snd]. rewrite <- (IH H2).
  destruct x; try reflexivity. discriminate Hx.
Qed.

Lemma lexes_value (v : JSValue) : plain v = true -> lexes (JSON_stringify v) (tokens v).
Proof.
  induction v as [ | |b|m e|s|l IH|fs IH] using JSValue_induction; intros Hp.
  - discriminate Hp.
  - intros rest ts f0 _ E. cbn [JSON_stringify tokens].
    change (length (js "null") + f0)%nat with (S (3 + f0)).
    now rewrite lex_null, (lex_more 3 f0 rest ts E).
  - intros rest ts f0 _ E. destruct b; cbn [JSON_stringify tokens].
    + change (length (js "true") + f0)%nat with (S (3 + f0)).
      now rewrite lex_true, (lex_more 3 f0 rest ts E).
    + change (length (js "false") + f0)%nat with (S (4 + f0)).
      now rewrite lex_false, (lex_more 4 f0 rest ts E).
  - cbn [plain] in Hp. apply andb_true_iff in Hp as [He Hs].
    apply Z.eqb_eq in He. subst e.
    intros rest ts f0 Hd E. cbn [JSON_stringify tokens].
    rewrite (safe_integer_finite m Hs).
    pose proof (scan_number_text m rest Hs Hd) as Hn.
    destruct (number_text_head m Hs) as (c & r & Ht & Hc).
    rewrite Ht in Hn |- *. cbn [length app plus] in Hn |- *.
    rewrite (lex_number_char c (r ++ rest) _ Hc), Hn.
    now rewrite (lex_more _ f0 rest ts E).
  - cbn [plain] in Hp. cbn [JSON_stringify tokens].
    apply lexes_string. now apply is_ascii_lt.
  - cbn [plain] in Hp. intros rest ts f0 Hd E. cbn [JSON_stringify tokens].
    change (js "[") with [91%N]. change (js "]") with [93%N].
    cbn [app length plus]. rewrite <- !app_assoc. cbn [app].
    rewrite lex_lbrack.
    assert (Hl : lexes (join (js ",") (map JSON_stringify l)) (token_join (map tokens l))).
    { apply lexes_join. clear -IH Hp.
      induction l as [|x r IHr]; [constructor|].
      cbn [forallb] in Hp. apply andb_true_iff in Hp as [Hx Hr].
      inversion IH; subst. constructor; [auto | now apply IHr]. }
    rewrite length_app. cbn [length].
    replace (length (join (js ",") (map JSON_stringify l)) + 1 + f0)%nat
      with (length (join (js ",") (map JSON_stringify l)) + S f0)%nat by lia.
    rewrite (Hl (93%N :: rest) (TRBrack :: ts) (S f0)); [reflexivity | cbn; tauto |].
    rewrite lex_rbrack. now rewrite E.
  - cbn [plain] in Hp. apply andb_true_iff in Hp as [Hp _].
    intros rest ts f0 Hd E. rewrite (stringify_members fs Hp). cbn [tokens].
    cbn [app length plus]. rewrite <- !app_assoc. cbn [app].
    rewrite lex_lbrace.
    set (texts := map (fun kv : jsstring * JSValue =>
                         quote (fst kv) ++ 58%N :: JSON_stringify (snd kv)) fs).
    set (toks := map (fun kv : jsstring * JSValue =>
                        let '(k, x) := kv in TStr k :: TColon :: tokens x) fs).
    assert (Hl : lexes (join (js ",") texts) (token_join toks)).
    { apply lexes_join. subst texts toks. clear -IH Hp.
      induction fs as [|[k x] r IHr]; [constructor|].
      cbn [forallb] in Hp. apply andb_true_iff in Hp as [Hkx Hr].
      apply andb_true_iff in Hkx as [Hk Hx].
      inversion IH as [|? ? Hx' Hr']; subst. cbn [snd] in Hx'.
      cbn [map fst snd]. constructor; [|now apply IHr].
      intros rest ts f0 Hd E.
      unfold plain_key in Hk. apply andb_true_iff in Hk as [Hk _].
      apply is_ascii_lt in Hk.
      unfold quote. cbn [app length plus]. rewrite <- !app_assoc. cbn [app].
      rewrite lex_quote, (scan_quoted k Hk _ []). cbn [rev app].
      rewrite !length_app. cbn [length].
      replace (length (quote_units k) + S (S (length (JSON_stringify x))) + f0)%nat
        with ((length (quote_units k) + 1) + S (length (JSON_stringify x) + f0))%nat by lia.
      rewrite (lex_more _ (S (length (JSON_stringify x) + f0))
                 (58%N :: JSON_stringify x ++ rest) (TColon :: tokens x ++ ts));
        [reflexivity|].
      rewrite lex_colon. now rewrite (Hx' Hx rest ts f0 Hd E). }
    rewrite length_app. cbn [length].
    replace (length (join (js ",") texts) + 1 + f0)%nat
      with (length (join (js ",") texts) + S f0)%nat by lia.
    rewrite (Hl (125%N :: rest) (TRBrace :: ts) (S f0)); [reflexivity | cbn; tauto |].
    rewrite lex_rbrace. now rewrite E.
Qed.

(** ** From the tokens to the value *)

Lemma tokens_head (v : JSValue) :
  exists t r,
    tokens v = t :: r
    /\ match t with TRBrack | TRBrace | TColon | TComma => False | _ => True end.
Proof. destruct v as [ | |b|m e|s|l|fs]; do 2 eexists; (split; [reflexivity | exact I]). Qed.

Lemma tokens_length (v : JSValue) : (1 <= length (tokens v))%nat.
Proof. destruct (tokens_head v) as (t & r & -> & _). cbn [length]. lia. Qed.

Lemma parse_elements_tokens (l : list JSValue) :
  Forall parses l -> l <> [] ->
  forall acc f rest,
    (length (token_join (map tokens l)) + 1 <= f)%nat ->
    parse_elements f (token_join (map tokens l) ++ TRBrack :: rest) acc
    = Some (JArr (rev acc ++ l), rest).
Proof.
  induction 1 as [|x r Hx Hr IH]; intros Hne acc f rest Hf; [contradiction|].
  destruct r as [|y r].
  - cbn [map token_join] in Hf |- *.
    destruct f as [|f]; [lia|]. cbn [parse_elements].
    rewrite (Hx f (TRBrack :: rest)) by lia. reflexivity.
  - remember (y :: r) as yr.
    assert (Hj : token_join (map tokens (x :: yr))
                 = tokens x ++ TComma :: token_join (map tokens yr))
      by (subst yr; reflexivity).
    rewrite Hj in Hf |- *. rewrite length_app in Hf. cbn [length] in Hf.
    pose proof (tokens_length x).
    destruct f as [|f]; [lia|]. cbn [parse_elements].
    rewrite <- app_assoc. cbn [app].
    rewrite (Hx f (TComma :: token_join (map tokens yr) ++ TRBrack :: rest)) by lia.
    rewrite IH; [|subst yr; discriminate | lia].
    cbn [rev]. now rewrite <- app_assoc.
Qed.

Lemma jsstring_eqb_sym (a b : jsstring) : jsstring_eqb a b = jsstring_eqb b a.
Proof.
  destruct (jsstring_eqb a b) eqn:E; symmetry.
  - apply jsstring_eqb_eq. symmetry. now apply jsstring_eqb_eq.
  - destruct (jsstring_eqb b a) eqn:E'; [|reflexivity].
    apply jsstring_eqb_eq in E'. subst. 
    rewrite (proj2 (jsstring_eqb_eq a a) eq_refl) in E. discriminate E.
Qed.

Lemma obj_set_fresh (acc : list (jsstring * JSValue)) (k : jsstring) (v : JSValue) :
  existsb (jsstring_eqb k) (map fst acc) = false -> obj_set acc k v = acc ++ [(k, v)].
Proof.
  induction acc as [|[k' v'] r IH]; intros H; [reflexivity|].
  cbn [map fst existsb] in H. apply orb_false_iff in H as [H1 H2].
  cbn [obj_set app]. rewrite jsstring_eqb_sym, H1. now rewrite (IH H2).
Qed.

Lemma distinct_middle (a : list jsstring) (k : jsstring) (r : list jsstring) :
  distinct (a ++ k :: r) = true -> existsb (jsstring_eqb k) a = false.
Proof.
  induction a as [|k' a IH]; intros H; [reflexivity|].
  cbn [app distinct] in H. apply andb_true_iff in H as [H1 H2].
  cbn [existsb]. rewrite (IH H2), orb_false_r.
  apply negb_true_iff in H1. rewrite existsb_app in H1.
  apply orb_false_iff in H1 as [_ H1]. cbn [existsb] in H1.
  apply orb_false_iff in H1 as [H1 _]. now rewrite jsstring_eqb_sym.
Qed.

Lemma parse_members_tokens (fs : list (jsstring * JSValue)) :
  Forall (fun kv => parses (snd kv)) fs -> fs <> [] ->
  forall acc f rest,
    distinct (map fst (acc ++ fs)) = true ->
    (length (token_join
               (map (fun kv : jsstring * JSValue =>
                       let '(k, x) := kv in TStr k :: TColon :: tokens x) fs)) + 1 <= f)%nat ->
    parse_members f
      (token_join
         (map (fun kv : jsstring * JSValue =>
                 let '(k, x) := kv in TStr k :: TColon :: tokens x) fs)
         ++ TRBrace :: rest) acc
    = Some (JObj (acc ++ fs), rest).
Proof.
  induction 1 as [|[k x] r Hx Hr IH]; intros Hne acc f rest Hd Hf; [contradiction|].
  cbn [snd] in Hx.
  assert (Hk : existsb (jsstring_eqb k) (map fst acc) = false).
  { rewrite map_app in Hd. cbn [map fst] in Hd. now apply distinct_middle in Hd. }
  pose proof (tokens_length x).
  destruct r as [|y r].
  - cbn [map token_join] in Hf |- *. cbn [length] in Hf.
    destruct f as [|f]; [lia|]. cbn [parse_members app].
    rewrite (Hx f (TRBrace :: rest)) by lia.
    now rewrite (obj_set_fresh acc k x Hk).
  - remember (y :: r) as yr.
    set (mt := fun kv : jsstring * JSValue =>
                 let '(k, x) := kv in TStr k :: TColon :: tokens x) in *.
    assert (Hj : token_join (map mt ((k, x) :: yr))
                 = (TStr k :: TColon :: tokens x) ++ TComma :: token_join (map mt yr))
      by (subst yr; reflexivity).
    rewrite Hj in Hf |- *. rewrite length_app in Hf. cbn [length] in Hf.
    destruct f as [|f]; [lia|]. cbn [app]. cbn [parse_members].
    rewrite <- app_assoc. cbn [app].
    rewrite (Hx f (TComma :: token_join (map mt yr) ++ TRBrace :: rest)) by lia.
    rewrite (obj_set_fresh acc k x Hk).
    rewrite IH.
    + now rewrite <- app_assoc.
    + subst yr. discriminate.
    + now rewrite <- app_assoc.
    + lia.
Qed.

Lemma parses_value (v : JSValue) : plain v = true -> parses v.
Proof.
  induction v as [ | |b|m e|s|l IH|fs IH] using JSValue_induction; intros Hp f rest Hf.
  - discriminate Hp.
  - destruct f; [cbn in Hf; lia | reflexivity].
  - destruct f; [cbn in Hf; lia | reflexivity].
  - destruct f; [cbn in Hf; lia | reflexivity].
  - destruct f; [cbn in Hf; lia | reflexivity].
  - cbn [plain] in Hp. cbn [tokens] in Hf |- *.
    cbn [length] in Hf. rewrite length_app in Hf. cbn [length] in Hf.
    destruct f as [|f]; [lia|].
    destruct l as [|x r].
    { reflexivity. }
    assert (Hall : Forall parses (x :: r)).
    { clear -IH Hp. induction (x :: r) as [|y l IHl]; [constructor|].
      cbn [forallb] in Hp. apply andb_true_iff in Hp as [Hy Hl].
      inversion IH; subst. constructor; [auto | now apply IHl]. }
    remember (x :: r) as l.
    assert (Hhead : exists t ts, token_join (map tokens l) = t :: ts
                                 /\ t <> TRBrack).
    { subst l. destruct (tokens_head x) as (t & ts & Et & Ht).
      destruct r; cbn [map token_join]; rewrite Et; cbn [app];
        do 2 eexists; (split; [reflexivity|]); intros ->; exact Ht. }
    destruct Hhead as (t & ts & Et & Ht).
    cbn [app]. rewrite <- app_assoc. cbn [app].
    assert (Ep : parse_value (S f) (TLBrack :: token_join (map tokens l) ++ TRBrack :: rest)
                 = parse_elements f (token_join (map tokens l) ++ TRBrack :: rest) []).
    { rewrite Et. cbn [app parse_value]. destruct t; try reflexivity. now contradiction Ht. }
    rewrite Ep, (parse_elements_tokens l Hall); [reflexivity | subst l; discriminate | lia].
  - cbn [plain] in Hp. apply andb_true_iff in Hp as [Hp Hd].
    cbn [tokens] in Hf |- *.
    cbn [length] in Hf. rewrite length_app in Hf. cbn [length] in Hf.
    destruct f as [|f]; [lia|].
    destruct fs as [|[k x] r].
    { reflexivity. }
    assert (Hall : Forall (fun kv => parses (snd kv)) ((k, x) :: r)).
    { clear -IH Hp. induction ((k, x) :: r) as [|[k' y] l IHl]; [constructor|].
      cbn [forallb] in Hp. apply andb_true_iff in Hp as [Hy Hl].
      apply andb_true_iff in Hy as [_ Hy].
      inversion IH as [|? ? Hy' Hl']; subst. cbn [snd] in Hy'.
      constructor; [cbn [snd]; auto | now apply IHl]. }
    remember ((k, x) :: r) as fs.
    set (mt := fun kv : jsstring * JSValue =>
                 let '(k, x) := kv in TStr k :: TColon :: tokens x) in *.
    assert (Hhead : exists ts, token_join (map mt fs) = TStr k :: ts).
    { subst fs. destruct r; cbn [map token_join]; subst mt; cbn [app]; eexists; reflexivity. }
    destruct Hhead as (ts & Et).
    cbn [app]. rewrite <- app_assoc. cbn [app].
    assert (Ep : parse_value (S f) (TLBrace :: token_join (map mt fs) ++ TRBrace :: rest)
                 = parse_members f (token_join (map mt fs) ++ TRBrace :: rest) []).
    { rewrite Et. reflexivity. }
    rewrite Ep, (parse_members_tokens fs Hall);
      [reflexivity | subst fs; discriminate | exact Hd | subst mt; lia].
Qed.

(** ** The round trip *)

Lemma JSON_roundtrip (v : JSValue) :
  plain v = true -> JSON_parse (JSON_stringify v) = Some v.
Proof.
  intros Hp. unfold JSON_parse.
  pose proof (lexes_value v Hp [] [] 0%nat I eq_refl) as Hl.
  rewrite Nat.add_0_r, !app_nil_r in Hl. rewrite Hl.
  pose proof (parses_value v Hp (S (2 * length (tokens v))) [] ltac:(lia)) as Hv.
  rewrite app_nil_r in Hv. now rewrite Hv.
Qed.

(** ** The text of a plain value is ASCII *)

Lemma quote_unit_ascii (c : N) :
  (c < 128)%N -> Forall (fun c => (c < 128)%N) (quote_unit c).
Proof.
  intros Hc. destruct (N.ltb_spec c 32) as [Hlow|Hhigh].
  - revert c Hlow Hc. apply (below_32 (fun c => (c < 128)%N -> _)).
    intros n Hn _.
    do 32 (destruct n as [|n]; [repeat constructor|]). lia.
  - unfold quote_unit.
    repeat match goal with
           | |- context [(c =? ?k)%N] => destruct (N.eqb_spec c k); [repeat constructor|]
           end.
    destruct (N.ltb_spec c 32); [lia|]. repeat constructor. exact Hc.
Qed.

Lemma quote_ascii (s : jsstring) :
  Forall (fun c => (c < 128)%N) s -> Forall (fun c => (c < 128)%N) (quote s).
Proof.
  intros H. unfold quote. cbn [app]. constructor; [reflexivity|].
  apply Forall_app. split; [|repeat constructor].
  induction H as [|c r Hc _ IH]; [constructor|].
  rewrite (quote_units_ascii c r Hc). apply Forall_app. split; [|exact IH].
  now apply quote_unit_ascii.
Qed.

Lemma join_ascii (texts : list jsstring) :
  Forall (Forall (fun c => (c < 128)%N)) texts ->
  Forall (fun c => (c < 128)%N) (join (js ",") texts).
Proof.
  induction 1 as [|x r Hx Hr IH]; [constructor|].
  destruct r as [|y r]; [exact Hx|].
  remember (y :: r) as yr.
  replace (join (js ",") (x :: yr)) with (x ++ 44%N :: join (js ",") yr)
    by (subst yr; reflexivity).
  apply Forall_app. split; [exact Hx|]. constructor; [reflexivity | exact IH].
Qed.

Lemma stringify_ascii (v : JSValue) :
  plain v = true -> Forall (fun c => (c < 128)%N) (JSON_stringify v).
Proof.
  induction v as [ | |b|m e|s|l IH|fs IH] using JSValue_induction; intros Hp.
  - discriminate Hp.
  - repeat constructor.
  - destruct b; repeat constructor.
  - cbn [plain] in Hp. apply andb_true_iff in Hp as [He Hs].
    apply Z.eqb_eq in He. subst e. cbn [JSON_stringify].
    rewrite (safe_integer_finite m Hs).
    destruct (number_text m Hs) as (neg & ds & -> & Hd & _).
    apply Forall_app. split; [destruct neg; repeat constructor|].
    rewrite Forall_forall. rewrite forallb_forall in Hd. intros c Hc.
    specialize (Hd c Hc). unfold is_digit in Hd.
    apply andb_true_iff in Hd as [_ Hd]. apply N.leb_le in Hd. lia.
  - cbn [plain] in Hp. cbn [JSON_stringify]. apply quote_ascii. now apply is_ascii_lt.
  - cbn [plain] in Hp. cbn [JSON_stringify].
    change (js "[") with [91%N]. change (js "]") with [93%N]. cbn [app].
    constructor; [reflexivity|]. apply Forall_app. split; [|repeat constructor].
    apply join_ascii. clear -IH Hp.
    induction l as [|x r IHr]; [constructor|].
    cbn [forallb] in Hp. apply andb_true_iff in Hp as [Hx Hr].
    inversion IH; subst. cbn [map]. constructor; [auto | now apply IHr].
  - cbn [plain] in Hp. apply andb_true_iff in Hp as [Hp _].
    rewrite (stringify_members fs Hp).
    constructor; [reflexivity|]. apply Forall_app. split; [|repeat constructor].
    apply join_ascii. clear -IH Hp.
    induction fs as [|[k x] r IHr]; [constructor|].
    cbn [forallb] in Hp. apply andb_true_iff in Hp as [Hkx Hr].
    apply andb_true_iff in Hkx as [Hk Hx].
    inversion IH as [|? ? Hx' Hr']; subst. cbn [snd] in Hx'.
    cbn [map fst snd]. constructor; [|now apply IHr].
    apply Forall_app. split.
    + apply quote_ascii. unfold plain_key in Hk. apply andb_true_iff in Hk as [Hk _].
      now apply is_ascii_lt.
    + constructor; [reflexivity | auto].
Qed.

Lemma stringify_nonempty (v : JSValue) : JSON_stringify v <> [] \/ exists m e, v = JNum m e.
Proof.
  destruct v as [ | |b|m e|s|l|fs]; try (left; discriminate).
  - left. destruct b; discriminate.
  - right. eauto.
Qed.

(** X19. A plain payload that is not a string comes back from the decoder as
    it went into the encoder: null, booleans, safe integers, and the arrays
    and objects (with distinct ASCII keys that are not array indices) made of
    them and of ASCII strings.  Unless it is null, the frame is classified as
    JSON.  The second header byte must not be 0x14, which selects the
    telemetry decoder. *)
Theorem payload_roundtrip (v : JSValue) (b1 b2 b3 b4 : Z) :
  plain v = true ->
  (forall s, v <> JStr s) ->
  (b2 mod 256 <> 20)%Z ->
  payload (parseBinaryMessage (createBinaryMessage v b1 b2 b3 b4)) = v
  /\ (v <> JNull -> classified_as (parseBinaryMessage (createBinaryMessage v b1 b2 b3 b4)) "json").
Proof.
  intros Hp Hs Hb.
  destruct v as [ | |b|m e|s|l|fs] eqn:Ev; try discriminate Hp.
  { split; [reflexivity | intros F; now contradiction F]. }
  3:{ now contradiction (Hs s). }
  all: rewrite <- Ev in *; clear Hs;
    assert (Hc : createBinaryMessage v b1 b2 b3 b4
                 = byte_of_number b1 :: byte_of_number b2 :: byte_of_number b3
                     :: byte_of_number b4 :: map byte_of_N (JSON_stringify v))
      by (rewrite Ev; unfold createBinaryMessage, Buffer_from_array; cbn [map app];
          rewrite <- Ev; now rewrite (ascii_Buffer_from_utf8 _ (stringify_ascii v Hp)));
    assert (Hne : JSON_stringify v <> [])
      by (destruct (stringify_nonempty v) as [H|(m' & e' & H)]; [exact H|];
          rewrite H in Hp |- *; cbn [plain] in Hp;
          apply andb_true_iff in Hp as [He Hm]; apply Z.eqb_eq in He; subst e';
          destruct (number_text_head m' Hm) as (c & r & Ht & _);
          cbn [JSON_stringify]; rewrite (safe_integer_finite m' Hm), Ht; discriminate);
    set (data := createBinaryMessage v b1 b2 b3 b4) in *;
    assert (Hlen : (4 < length data)%nat)
      by (rewrite Hc; cbn [length]; rewrite length_map;
          destruct (JSON_stringify v); [contradiction | cbn [length]; lia]);
    assert (H2 : at_index data 1 <> 20%Z)
      by (rewrite Hc; unfold at_index; cbn [nth]; now rewrite byte_of_number_value);
    destruct (parseBinaryMessage_payload data Hlen) as [_ Hk];
    destruct (Hk H2) as [Ht Hv]; unfold classified_as; rewrite Ht, Hv;
    replace (skipn 4 data) with (map byte_of_N (JSON_stringify v))
      by (rewrite Hc; reflexivity);
    unfold classify;
    rewrite (proj1 (ascii_bytes_decoded _ (stringify_ascii v Hp))), (JSON_roundtrip v Hp);
    split; [reflexivity | intros _; reflexivity].
Qed.

Lemma payload_roundtrip_witness :
  payload (parseBinaryMessage (createBinaryMessage deviceQuery 1 27 0 0)) = deviceQuery
  /\ payload (parseBinaryMessage (createBinaryMessage initPayload 1 48 0 1)) = initPayload.
Proof.
  split.
  - apply (payload_roundtrip deviceQuery 1 27 0 0);
      [reflexivity | discriminate | vm_compute; discriminate].
  - apply (payload_roundtrip initPayload 1 48 0 1);
      [reflexivity | discriminate | vm_compute; discriminate].
Defined.

(** ** A session that was never connected *)

(** X20. On a session whose socket was never created, no method touches the
    session: [sendMessage] returns without sending or counting, [listen]
    returns the null message without taking an arrival, and the handshake
    methods throw: [issueInitialization] "Init message failed", [login] "Did
    not get back user payload" (or, without credentials, "User and password
    must be set"), [queryDevices] a TypeError, [requestChargingStatus] its own
    error. *)
Theorem unconnected_session (ul : jsstring -> jsstring) (s : State) :
  ws s = None ->
  (forall p b1 b2 b3 b4 d, sendMessage p b1 b2 b3 b4 d s = (Normal tt, s))
  /\ (forall duration, listen duration s = (Normal null_message, s))
  /\ issueInitialization s = (Throw (Error (js "Init message failed")), s)
  /\ login ul s
     = (Throw (Error (match username s, password s with
                      | Some _, Some _ => js "Did not get back user payload"
                      | _, _ => js "User and password must be set"
                      end)), s)
  /\ (exists m, queryDevices s = (Throw (TypeError m), s))
  /\ (forall deviceId,
         requestChargingStatus deviceId s
         = (Throw (Error (js "Cannot request charging status before websocket is created")),
            s)).
Proof.
  intros H.
  assert (Hsend : forall p b1 b2 b3 b4 d, sendMessage p b1 b2 b3 b4 d s = (Normal tt, s)).
  { intros. unfold sendMessage. rewrite bind_get, H. reflexivity. }
  assert (Hlisten : forall duration, listen duration s = (Normal null_message, s)).
  { intros. unfold listen. rewrite bind_get, H. reflexivity. }
  split; [exact Hsend|]. split; [exact Hlisten|]. split; [|split; [|split]].
  - unfold issueInitialization.
    rewrite (bind_normal _ (Hsend _ _ _ _ _ _)), (bind_normal _ (Hlisten _)). reflexivity.
  - unfold login. rewrite bind_get.
    destruct (username s); [destruct (password s)|]; try reflexivity.
    rewrite (bind_normal _ (Hsend _ _ _ _ _ _)), (bind_normal _ (Hlisten _)). reflexivity.
  - unfold queryDevices.
    rewrite (bind_normal _ (Hsend _ _ _ _ _ _)), (bind_normal _ (Hlisten _)).
    eexists. reflexivity.
  - intros deviceId. unfold requestChargingStatus. rewrite bind_get, H. reflexivity.
Qed.

Lemma unconnected_session_witness :
  issueInitialization (new_session None None [Frame telemetry_frame] [] Opens)
  = (Throw (Error (js "Init message failed")),
     new_session None None [Frame telemetry_frame] [] Opens).
Proof.
  apply (unconnected_session (fun x => x)
           (new_session None None [Frame telemetry_frame] [] Opens)).
  reflexivity.
Defined.

(** ** A cooperative server *)

Lemma Date_now_keeps {X : Type} (f : State -> X) :
  (forall c s, f (set_clock c s) = f s) -> preserves f Date_now.
Proof. intros H s. unfold Date_now. destruct (clock s); [reflexivity | apply H]. Qed.

(** A method leaves alone every field that it does not assign. *)
Ltac keeps :=
  match goal with
  | |- preserves ?f _ => pose proof (Date_now_keeps f (fun _ _ => eq_refl))
  end;
  unfold issueInitialization, login, queryDevices, requestChargingStatus,
    extractWidgetMappings, keepalive, sendMessage, ws_send, listen;
  preserve.

Lemma get_prop_readable (v : JSValue) (k : string) :
  readable v = true -> get_prop v k = Normal (prop v k).
Proof. unfold prop. destruct v; try discriminate; reflexivity. Qed.

Lemma iterate_iterable (v : JSValue) : iterable v = true -> iterate v = Normal (items v).
Proof. unfold iterable, items. destruct (iterate v); [reflexivity | discriminate]. Qed.

Lemma for_of_total {A : Type} (l : list A) (body : A -> M unit) :
  (forall x, In x l -> forall s, exists s', body x s = (Normal tt, s')) ->
  forall s, exists s', for_of l body s = (Normal tt, s').
Proof.
  induction l as [|x r IH]; intros H s; cbn [for_of].
  - eexists. reflexivity.
  - destruct (H x (or_introl eq_refl) s) as [s1 E1].
    rewrite (bind_normal _ E1). apply IH. intros y Hy. apply H. now right.
Qed.

Lemma extractWidgetMappings_ok (i : Z) (page : JSValue) (s : State) :
  page_ok page = true -> exists s', extractWidgetMappings i page s = (Normal tt, s').
Proof.
  unfold page_ok. intros H.
  apply andb_true_iff in H as [H Hws]. apply andb_true_iff in H as [H Hiw].
  apply andb_true_iff in H as [Hp Hd].
  unfold extractWidgetMappings.
  unfold bind at 1, lift at 1. rewrite (get_prop_readable page "dashboard" Hp).
  unfold bind at 1, lift at 1.
  rewrite (get_prop_readable (prop page "dashboard") "widgets" Hd).
  unfold bind at 1, modify at 1. unfold bind at 1, modify at 1.
  unfold bind at 1, lift at 1. rewrite (iterate_iterable _ Hiw).
  rewrite forallb_forall in Hws.
  apply for_of_total. intros widget Hin s1. specialize (Hws widget Hin).
  apply andb_true_iff in Hws as [Hw Hms]. apply andb_true_iff in Hw as [Hw Him].
  unfold bind at 1, lift at 1. rewrite (get_prop_readable widget "modules" Hw).
  unfold bind at 1, lift at 1. rewrite (iterate_iterable _ Him).
  rewrite forallb_forall in Hms.
  apply for_of_total. intros module Hin2 s2. specialize (Hms module Hin2).
  apply andb_true_iff in Hms as [Hm Hss]. apply andb_true_iff in Hm as [Hm Hid].
  unfold bind at 1, lift at 1. rewrite (get_prop_readable module "displayDataStreams" Hm).
  unfold bind at 1, lift at 1. rewrite (iterate_iterable _ Hid).
  rewrite forallb_forall in Hss.
  apply for_of_total. intros stream Hin3 s3. specialize (Hss stream Hin3).
  apply andb_true_iff in Hss as [Hss Hconv]. unfold converts in Hconv.
  unfold bind, lift, modify.
  rewrite (get_prop_readable stream "id" Hss), (get_prop_readable stream "name" Hss).
  destruct (String_of (prop stream "id")); [|discriminate Hconv].
  eexists. reflexivity.
Qed.

Lemma login_ok (ul : jsstring -> jsstring) (arrivals : list Arrival) (i : nat) (s : State)
    (u p : jsstring) :
  at_stage arrivals i s ->
  username s = Some u -> password s = Some p ->
  response arrivals i <> JNull ->
  exists s2,
    login ul s = (Normal tt, s2)
    /\ at_stage arrivals (S i) s2
    /\ user s2 = response arrivals i.
Proof.
  intros H Hu Hp Hr. unfold login. rewrite bind_get, Hu, Hp.
  match goal with
  | |- context [sendMessage ?x 0 2 0 (Some 3%Z) "LOGIN"] =>
      destruct (send_listen_exact arrivals i s x 0 2 0 (Some 3%Z) "LOGIN" 10 H)
        as (s1 & H1 & _ & _ & E)
  end.
  rewrite E. unfold response in Hr.
  destruct (payload (arrival_message (nth i arrivals Silence))) eqn:Ea;
    try (eexists; split; [reflexivity|]; split; [exact H1 | unfold response; now rewrite Ea]).
  now contradiction Hr.
Qed.

Lemma queryDevices_ok (arrivals : list Arrival) (i : nat) (s : State)
    (entries : list JSValue) :
  at_stage arrivals i s ->
  get_prop (response arrivals i) "docs" = Normal (JArr entries) ->
  Forall device_entry entries ->
  exists s3,
    queryDevices s = (Normal tt, s3)
    /\ at_stage arrivals (S i) s3
    /\ devices s3 = devices s ++ map details entries.
Proof.
  intros H Hdocs Hall.
  destruct (queryDevices_stage arrivals i s H) as (res & s3 & E & H3 & _).
  exists s3. rewrite E. revert E. unfold queryDevices.
  destruct (send_listen_next s deviceQuery 1 27 0 None "DEVICE QUERY" 10 (proj1 H))
    as (s1 & _ & Hd & _ & E1).
  rewrite E1. clear E1.
  destruct H as (_ & _ & Hi). rewrite Hi, hd_skipn.
  fold (response arrivals i).
  destruct (device_loop_entries entries s1 Hall) as (s' & E' & Hs').
  assert (E2 : forall K : list JSValue -> M unit,
             bind (lift (get_prop (response arrivals i) "docs"))
               (fun docs => bind (lift (iterate docs)) K) s1
             = K entries s1).
  { intros K. unfold bind, lift. rewrite Hdocs. reflexivity. }
  rewrite E2. unfold device_step in E'. rewrite E'. intros E. inversion E; subst.
  split; [reflexivity|]. split; [exact H3|]. now rewrite Hs', Hd.
Qed.

Lemma steady_state_keeps {X : Type} (f : State -> X) (n : nat) :
  preserves f keepalive -> (forall d, preserves f (listen d)) ->
  preserves f (steady_state n).
Proof.
  intros Hk Hl. induction n as [|n IH]; cbn [steady_state]; preserve.
Qed.

Lemma steady_state_returns (n : nat) (s : State) :
  exists s', steady_state n s = (Normal tt, s').
Proof.
  revert s. induction n as [|n IH]; intros s; cbn [steady_state].
  - eexists. reflexivity.
  - destruct (keepalive_never_throws s) as ([] & s1 & E1). rewrite (bind_normal _ E1).
    destruct (listen_never_throws 20 s1) as (m & s2 & E2). rewrite (bind_normal _ E2).
    apply IH.
Qed.

(** The handshake with a cooperative server. *)
Lemma handshake_succeeds (ul : jsstring -> jsstring) (s : State)
    (u p : jsstring) (arrivals : list Arrival) (device : JSValue) (others : list JSValue) :
  at_stage arrivals 0 s ->
  (username s, password s, devices s, widgetIdMap s, widgetNameMap s)
  = (Some u, Some p, [], [], []) ->
  response arrivals 0 <> JNull ->
  response arrivals 1 <> JNull ->
  get_prop (response arrivals 2) "docs" = Normal (JArr (device :: others)) ->
  Forall device_entry (device :: others) ->
  prop (details device) "deviceId" <> JUndefined ->
  page_ok (response arrivals 4) = true ->
  exists s7,
    handshake ul s = (Normal tt, s7)
    /\ (user s7, devices s7, devicePages s7)
       = (response arrivals 1, map details (device :: others), [response arrivals 4])
    /\ (forall id,
           stream_by_id s7 0 id
           = last_with (has_id id) (page_streams (response arrivals 4)))
    /\ (forall name,
           stream_by_name s7 0 name
           = last_with (has_name name) (page_streams (response arrivals 4))).
Proof.
  intros H0 K0 R0 R1 Hdocs Hall Hid Hpage.
  set (page := response arrivals 4) in *.
  unfold handshake.
  (* Init *)
  destruct (issueInitialization_cases arrivals 0 s H0)
    as (s1 & H1 & [[F _]|[_ E1]]); [now contradiction R0|].
  assert (K1 : (username s1, password s1, devices s1, widgetIdMap s1, widgetNameMap s1)
               = (Some u, Some p, [], [], [])).
  { assert (K : preserves (fun s => (username s, password s, devices s,
                                     widgetIdMap s, widgetNameMap s))
                  issueInitialization) by keeps.
    specialize (K s). rewrite E1 in K. cbn [snd] in K. congruence. }
  rewrite (bind_normal _ E1).
  (* Login *)
  destruct (login_ok ul arrivals 1 s1 u p H1 ltac:(congruence) ltac:(congruence) R1)
    as (s2 & E2 & H2 & Hu2).
  assert (K2 : (devices s2, widgetIdMap s2, widgetNameMap s2) = ([], [], [])).
  { assert (K : preserves (fun s => (devices s, widgetIdMap s, widgetNameMap s))
                  (login ul)) by keeps.
    specialize (K s1). rewrite E2 in K. cbn [snd] in K. congruence. }
  rewrite (bind_normal _ E2).
  (* Device Query *)
  destruct (queryDevices_ok arrivals 2 s2 (device :: others) H2 Hdocs Hall)
    as (s3 & E3 & H3 & Hd3).
  replace (devices s2) with (@nil JSValue) in Hd3 by congruence. cbn [app] in Hd3.
  assert (K3 : (user s3, widgetIdMap s3, widgetNameMap s3)
               = (response arrivals 1, [], [])).
  { assert (K : preserves (fun s => (user s, widgetIdMap s, widgetNameMap s))
                  queryDevices) by keeps.
    specialize (K s2). rewrite E3 in K. cbn [snd] in K. congruence. }
  rewrite (bind_normal _ E3), bind_get, Hd3. cbn [map].
  (* the first device *)
  inversion Hall as [|? ? (Hdu & Hdn & _ & Hcd) _]; subst.
  assert (Hread : readable (details device) = true).
  { destruct (details device); try reflexivity; [now contradiction Hdu | now contradiction Hdn]. }
  unfold bind at 1, lift at 1.
  rewrite (get_prop_readable (details device) "deviceId" Hread) in Hcd |- *.
  set (deviceId := prop (details device) "deviceId") in *.
  unfold converts in Hcd.
  destruct (String_of deviceId) as [text|] eqn:Et; [|discriminate Hcd].
  (* Device Select and Device Page *)
  destruct (requestChargingStatus_stage arrivals 3 s3 deviceId text H3 Et)
    as (s5 & E5 & (Hs5 & Hp5 & _) & _).
  fold page in E5.
  assert (K5 : (user s5, devices s5, widgetIdMap s5, widgetNameMap s5)
               = (response arrivals 1, map details (device :: others), [], [])).
  { assert (K : preserves (fun s => (user s, devices s, widgetIdMap s, widgetNameMap s))
                  (requestChargingStatus deviceId)) by keeps.
    specialize (K s3). rewrite E5 in K. cbn [snd] in K. congruence. }
  (* the widget maps *)
  set (s5' := set_devicePages (devicePages s5 ++ [page]) s5).
  destruct (extractWidgetMappings_ok 0 page s5' Hpage) as (s6 & E6).
  assert (K6 : (user s6, devices s6, devicePages s6)
               = (response arrivals 1, map details (device :: others), [page])).
  { assert (K : preserves (fun s => (user s, devices s, devicePages s))
                  (extractWidgetMappings 0 page)) by keeps.
    specialize (K s5'). rewrite E6 in K. cbn [snd] in K. rewrite K.
    subst s5'. cbn [user devices devicePages set_devicePages].
    rewrite Hp5. cbn [app]. congruence. }
  pose proof (extractWidgetMappings_fold 0 page s5' s6 E6) as [Hf Hconv].
  (* keepalive *)
  destruct (keepalive_never_throws s6) as ([] & s7 & E7).
  assert (K7 : (user s7, devices s7, devicePages s7, widgetIdMap s7, widgetNameMap s7)
               = (user s6, devices s6, devicePages s6, widgetIdMap s6, widgetNameMap s6)).
  { assert (K : preserves (fun s => (user s, devices s, devicePages s,
                                     widgetIdMap s, widgetNameMap s))
                  keepalive) by keeps.
    specialize (K s6). rewrite E7 in K. exact K. }
  exists s7. split.
  { assert (Hgo : bind (requestChargingStatus deviceId)
               (fun page0 =>
                  bind (modify (fun s => set_devicePages (devicePages s ++ [page0]) s))
                    (fun _ =>
                       bind get
                         (fun s' =>
                            bind (extractWidgetMappings 0 (nth 0 (devicePages s') JUndefined))
                              (fun _ => keepalive)))) s3
             = (Normal tt, s7)).
    { rewrite (bind_normal _ E5). unfold bind at 1. unfold modify.
      unfold bind at 1. unfold get. fold s5'.
      replace (nth 0 (devicePages s5') JUndefined) with page
        by (subst s5'; cbn [devicePages set_devicePages]; now rewrite Hp5).
      now rewrite (bind_normal _ E6). }
    destruct deviceId; try exact Hgo. now contradiction Hid. }
  split.
  { change (details device :: map details others) with (map details (device :: others)).
    congruence. }
  (* lookups *)
  assert (H5' : has_maps 0 (set_widgetNameMap (ensure (widgetNameMap s5') 0)
                             (set_widgetIdMap (ensure (widgetIdMap s5') 0) s5'))).
  { unfold has_maps. cbn [widgetIdMap widgetNameMap set_widgetIdMap set_widgetNameMap].
    rewrite !outer_get_ensure. split; discriminate. }
  destruct (fold_register_lookup 0 (page_streams page) _ H5' Hconv) as (_ & Lid & Lname & _).
  rewrite <- Hf in Lid, Lname.
  assert (Ei : widgetIdMap s5' = []) by (subst s5'; cbn [widgetIdMap set_devicePages]; congruence).
  assert (En : widgetNameMap s5' = [])
    by (subst s5'; cbn [widgetNameMap set_devicePages]; congruence).
  split.
  - intros id. specialize (Lid id). unfold stream_by_id in *.
    replace (widgetIdMap s7) with (widgetIdMap s6) by congruence.
    rewrite Lid. cbn [widgetIdMap widgetNameMap set_widgetIdMap set_widgetNameMap].
    rewrite Ei. now destruct (last_with _ _).
  - intros name. specialize (Lname name). unfold stream_by_name in *.
    replace (widgetNameMap s7) with (widgetNameMap s6) by congruence.
    rewrite Lname. cbn [widgetIdMap widgetNameMap set_widgetIdMap set_widgetNameMap].
    rewrite En. now destruct (last_with _ _).
Qed.

(** X21. When the server answers the handshake as expected, [run] does not
    fail.  Expected are: a non-null answer to Init and to Login; a device list
    whose entries all carry details with a [name] and a [deviceId] that
    [String] converts (an object with a [toString] entry of its own does not
    convert), and whose first device has a [deviceId]; and, as the fifth
    message, a device page on which every access of [extractWidgetMappings]
    succeeds and every stream id converts.  Whatever the Device Select
    acknowledgement, whatever arrives afterwards and whatever the clock reads,
    [run] then returns (scan only) or is still listening after any number of
    turns.  The session holds the answer to Login as the user, the details of
    the listed devices in order, the page, and the streams of the page under
    their ids and names; the socket is closed exactly after a scan. *)
Theorem run_succeeds (ul : jsstring -> jsstring) (n : nat) (justScan : bool)
    (u p : jsstring) (arrivals : list Arrival) (clock : list Z)
    (device : JSValue) (others : list JSValue) :
  response arrivals 0 <> JNull ->
  response arrivals 1 <> JNull ->
  get_prop (response arrivals 2) "docs" = Normal (JArr (device :: others)) ->
  Forall device_entry (device :: others) ->
  prop (details device) "deviceId" <> JUndefined ->
  page_ok (response arrivals 4) = true ->
  fst (run ul n justScan (new_session (Some u) (Some p) arrivals clock Opens))
  = Normal (if justScan then Returned else Listening)
  /\ user (after_run ul n justScan u p arrivals clock) = response arrivals 1
  /\ devices (after_run ul n justScan u p arrivals clock) = map details (device :: others)
  /\ devicePages (after_run ul n justScan u p arrivals clock) = [response arrivals 4]
  /\ socket_flag (after_run ul n justScan u p arrivals clock) = Some justScan
  /\ (forall id,
         stream_by_id (after_run ul n justScan u p arrivals clock) 0 id
         = last_with (has_id id) (page_streams (response arrivals 4)))
  /\ (forall name,
         stream_by_name (after_run ul n justScan u p arrivals clock) 0 name
         = last_with (has_name name) (page_streams (response arrivals 4))).
Proof.
  intros R0 R1 Hdocs Hall Hid Hpage. unfold after_run.
  set (s0 := new_session (Some u) (Some p) arrivals clock Opens).
  set (sc := set_ws (Some {| sent := []; closed := false |}) s0).
  assert (Hr : run ul n justScan s0
               = match handshake ul sc with
                 | (Throw e, s') => (Throw e, close_ws s')
                 | (Normal _, s') =>
                     if justScan then (Normal Returned, close_ws s')
                     else match steady_state n s' with
                          | (Throw e, s'') => (Throw e, close_ws s'')
                          | (Normal _, s'') => (Normal Listening, s'')
                          end
                 end) by reflexivity.
  destruct (handshake_succeeds ul sc u p arrivals device others
              ltac:(repeat split) eq_refl R0 R1 Hdocs Hall Hid Hpage)
    as (s7 & E7 & K7 & Lid & Lname).
  pose proof (handshake_flag ul sc) as F7. rewrite E7 in F7. cbn [snd] in F7.
  change (socket_flag sc) with (Some false) in F7.
  rewrite Hr, E7. clear Hr.
  destruct justScan.
  - cbn [fst snd].
    assert (Hc : (user (close_ws s7), devices (close_ws s7), devicePages (close_ws s7),
                  widgetIdMap (close_ws s7), widgetNameMap (close_ws s7))
                 = (user s7, devices s7, devicePages s7, widgetIdMap s7, widgetNameMap s7)
                 /\ socket_flag (close_ws s7) = Some true).
    { unfold close_ws, socket_flag in *. destruct (ws s7); [split; reflexivity | discriminate F7]. }
    destruct Hc as [Hc Hflag].
    split; [reflexivity|]. split; [congruence|]. split; [congruence|].
    split; [congruence|]. split; [exact Hflag|]. split.
    + intros id. rewrite <- Lid. unfold stream_by_id.
      replace (widgetIdMap (close_ws s7)) with (widgetIdMap s7) by congruence. reflexivity.
    + intros name. rewrite <- Lname. unfold stream_by_name.
      replace (widgetNameMap (close_ws s7)) with (widgetNameMap s7) by congruence. reflexivity.
  - destruct (steady_state_returns n s7) as (s8 & E8). rewrite E8. cbn [fst snd].
    assert (K8 : (user s8, devices s8, devicePages s8, widgetIdMap s8, widgetNameMap s8)
                 = (user s7, devices s7, devicePages s7, widgetIdMap s7, widgetNameMap s7)).
    { assert (K : preserves (fun s => (user s, devices s, devicePages s,
                                       widgetIdMap s, widgetNameMap s))
                    (steady_state n)).
      { apply steady_state_keeps; [keeps | intros d; keeps]. }
      specialize (K s7). rewrite E8 in K. exact K. }
    pose proof (steady_state_flag n s7) as F8. rewrite E8 in F8. cbn [snd] in F8.
    split; [reflexivity|]. split; [congruence|]. split; [congruence|].
    split; [congruence|]. split; [congruence|]. split.
    + intros id. rewrite <- Lid. unfold stream_by_id.
      replace (widgetIdMap s8) with (widgetIdMap s7) by congruence. reflexivity.
    + intros name. rewrite <- Lname. unfold stream_by_name.
      replace (widgetNameMap s8) with (widgetNameMap s7) by congruence. reflexivity.
Qed.

Lemma run_succeeds_witness :
  fst (run (fun x => x) 2 false
         (new_session (Some (js "test@example.com")) (Some (js "pw")) cooperative_answers
            [0; 1000; 2000; 16000; 16000]%Z Opens))
  = Normal Listening
  /\ devices (after_run (fun x => x) 2 false (js "test@example.com") (js "pw")
                cooperative_answers [0; 1000; 2000; 16000; 16000]%Z)
     = [JObj [ field "name" (str "Home Charger"); field "deviceId" (JNum 89349 0) ]]
  /\ stream_by_id (after_run (fun x => x) 2 false (js "test@example.com") (js "pw")
                     cooperative_answers [0; 1000; 2000; 16000; 16000]%Z) 0 (js "5")
     = Some stream5.
Proof.
  destruct (run_succeeds (fun x => x) 2 false (js "test@example.com") (js "pw")
              cooperative_answers [0; 1000; 2000; 16000; 16000]%Z
              (JArr [ str "DEVICE";
                      JObj [ field "name" (str "Home Charger");
                             field "deviceId" (JNum 89349 0) ] ])
              [])
    as (Hres & _ & Hdev & _ & _ & Hid & _).
  - vm_compute. discriminate.
  - vm_compute. discriminate.
  - vm_compute. reflexivity.
  - repeat constructor; discriminate.
  - vm_compute. discriminate.
  - vm_compute. reflexivity.
  - split; [exact Hres|]. split; [rewrite Hdev; reflexivity|].
    rewrite (Hid (js "5")). vm_compute. reflexivity.
Defined.
